(** * The dashboard's orchestration logic (src/App.jsx), embedded in Rocq

    The development covers the part of [App] that is not markup: the
    settings loader and the two write-through effects, the Pollinations
    chat wrapper with its retry loop, the two submit handlers, the
    wallpaper generator and the weather refresher.

    JavaScript values are modelled as far as the program needs them
    (module [Js]); [JSON.parse] and [JSON.stringify] are modelled in
    module [Json]; the program itself is in module [App].  An asynchronous
    function is a computation that emits, in the order in which they
    happen, the state setters it calls, the requests it sends and the
    time it waits; what the network, the random generator and the
    geolocation service answer is a parameter of the computation. *)

From Stdlib Require Import ZArith QArith String Ascii List Lia Lqa DecimalString.
From stdpp Require Import gmap strings list.

Local Open Scope string_scope.
Local Open Scope Z_scope.
Local Open Scope list_scope.

(** * JavaScript values *)

Module Js.

(** ** Numbers

    A finite number is a decimal [m * 10^e], kept in normal form ([m] not
    divisible by ten, zero as [Dec 0 0]).  This is exact where binary64
    is: integers below 2^53 in magnitude, and decimal literals of at most
    fifteen significant digits within binary64's range, which print back
    as themselves.  Rounding to binary64 beyond that and the sign of zero
    are not represented. *)

Inductive number :=
| Dec (m e : Z)
| NaN
| Infinity (negative : bool).

Fixpoint strip_zeros (fuel : nat) (m e : Z) : Z * Z :=
  match fuel with
  | O => (m, e)
  | S fuel' =>
      if (m mod 10 =? 0) then strip_zeros fuel' (m / 10) (e + 1) else (m, e)
  end.

Definition dec (m e : Z) : number :=
  if m =? 0 then Dec 0 0
  else let '(m', e') := strip_zeros (Z.to_nat (Z.log2 (Z.abs m))) m e in Dec m' e'.

Definition of_Z (z : Z) : number := dec z 0.

Definition digits (p : positive) : string :=
  NilZero.string_of_uint (Pos.to_uint p).

Definition string_of_Z (z : Z) : string :=
  NilZero.string_of_int (Z.to_int z).

Fixpoint zeros (n : nat) : string :=
  match n with
  | O => ""
  | S n' => String "0" (zeros n')
  end.

(** [Number::toString] (radix ten) on the decimal [s * 10^(n-k)], [s] of
    [k] digits. *)
Definition positive_to_string (s : positive) (e : Z) : string :=
  let d := digits s in
  let k := Z.of_nat (String.length d) in
  let n := k + e in
  if (k <=? n) && (n <=? 21) then
    d +:+ zeros (Z.to_nat (n - k))
  else if (0 <? n) && (n <=? 21) then
    substring 0 (Z.to_nat n) d +:+ "." +:+ substring (Z.to_nat n) (Z.to_nat (k - n)) d
  else if (-6 <? n) && (n <=? 0) then
    "0." +:+ zeros (Z.to_nat (- n)) +:+ d
  else
    let exponent := (if 0 <=? n - 1 then "+" else "-") +:+ string_of_Z (Z.abs (n - 1)) in
    if k =? 1 then d +:+ "e" +:+ exponent
    else substring 0 1 d +:+ "." +:+ substring 1 (Z.to_nat (k - 1)) d +:+ "e" +:+ exponent.

Definition number_to_string (x : number) : string :=
  match x with
  | NaN => "NaN"
  | Infinity false => "Infinity"
  | Infinity true => "-Infinity"
  | Dec (Zpos s) e => positive_to_string s e
  | Dec (Zneg s) e => "-" +:+ positive_to_string s e
  | Dec Z0 _ => "0"
  end.

(** [Math.round]: the integer nearest to [x], ties towards +Infinity. *)
Definition Math_round (x : number) : number :=
  match x with
  | Dec m e =>
      if 0 <=? e then x
      else let scale := 10 ^ (- e) in of_Z ((2 * m + scale) / (2 * scale))
  | _ => x
  end.

Definition number_truthy (x : number) : bool :=
  match x with
  | Dec m _ => negb (m =? 0)
  | NaN => false
  | Infinity _ => true
  end.

(** ** Strings

    A string is a sequence of UTF-16 code units; the model covers the
    code units below 256, one per [ascii]. *)

Definition code (c : ascii) : Z := Z.of_N (N_of_ascii c).

Definition is_digit (c : ascii) : bool := (48 <=? code c) && (code c <=? 57).

Definition digit_value (c : ascii) : Z := code c - 48.

(** The digits a string starts with, and what follows them. *)
Fixpoint scan_digits (s : string) : string * string :=
  match s with
  | String c rest =>
      if is_digit c then let '(ds, rest') := scan_digits rest in (String c ds, rest')
      else ("", s)
  | "" => ("", "")
  end.

Fixpoint Z_of_digits_from (acc : Z) (ds : string) : Z :=
  match ds with
  | String c rest => Z_of_digits_from (10 * acc + digit_value c) rest
  | "" => acc
  end.

Definition Z_of_digits (ds : string) : Z := Z_of_digits_from 0 ds.

(** An optional exponent part [e±ddd]: [None] when an [e] is not followed
    by digits. *)
Definition scan_exponent (s : string) : option (Z * string) :=
  match s with
  | String c rest =>
      if (code c =? 101) || (code c =? 69) then
        let '(sign, rest1) :=
          match rest with
          | String "+" r => (1, r)
          | String "-" r => (-1, r)
          | _ => (1, rest)
          end in
        let '(ds, rest2) := scan_digits rest1 in
        if String.eqb ds "" then None else Some (sign * Z_of_digits ds, rest2)
      else Some (0, s)
  | "" => Some (0, "")
  end.

(** The decimal [int.frac * 10^exponent]. *)
Definition decimal (negative : bool) (int frac : string) (exponent : Z) : number :=
  let m := Z_of_digits (int +:+ frac) in
  dec (if negative then - m else m) (exponent - Z.of_nat (String.length frac)).

(** [WhiteSpace] and [LineTerminator] below 256: TAB, LF, VT, FF, CR,
    SP and NBSP. *)
Definition is_white_space (c : ascii) : bool :=
  ((9 <=? code c) && (code c <=? 13)) || (code c =? 32) || (code c =? 160).

Fixpoint trim_start (s : string) : string :=
  match s with
  | String c rest => if is_white_space c then trim_start rest else s
  | "" => ""
  end.

Fixpoint trim_end (s : string) : string :=
  match s with
  | String c rest =>
      let rest' := trim_end rest in
      if is_white_space c && String.eqb rest' "" then "" else String c rest'
  | "" => ""
  end.

(** [String.prototype.trim]. *)
Definition trim (s : string) : string := trim_end (trim_start s).

Definition hex_value (c : ascii) : option Z :=
  if is_digit c then Some (digit_value c)
  else if (97 <=? code c) && (code c <=? 102) then Some (code c - 87)
  else if (65 <=? code c) && (code c <=? 70) then Some (code c - 55)
  else None.

(** The value of a non-empty run of digits of the given radix. *)
Fixpoint radix_value_from (radix acc : Z) (s : string) : option Z :=
  match s with
  | String c rest =>
      match hex_value c with
      | Some d => if d <? radix then radix_value_from radix (radix * acc + d) rest else None
      | None => None
      end
  | "" => Some acc
  end.

Definition radix_literal (radix : Z) (s : string) : number :=
  if String.eqb s "" then NaN
  else match radix_value_from radix 0 s with
       | Some z => of_Z z
       | None => NaN
       end.

(** [StrUnsignedDecimalLiteral]: [Infinity], [ddd.ddd e±dd], [.ddd e±dd]. *)
Definition unsigned_decimal_literal (negative : bool) (s : string) : number :=
  if String.eqb s "Infinity" then Infinity negative
  else
    let '(int, s1) := scan_digits s in
    let '(dot, frac, s2) :=
      match s1 with
      | String "." r => let '(f, r') := scan_digits r in (true, f, r')
      | _ => (false, "", s1)
      end in
    if String.eqb int "" && String.eqb frac "" then NaN
    else match scan_exponent s2 with
         | Some (e, "") => decimal negative int frac e
         | _ => NaN
         end.

(** [StringToNumber]. *)
Definition string_to_number (text : string) : number :=
  match trim text with
  | "" => Dec 0 0
  | String "+" s => unsigned_decimal_literal false s
  | String "-" s => unsigned_decimal_literal true s
  | String "0" (String c s) as t =>
      if (code c =? 120) || (code c =? 88) then radix_literal 16 s
      else if (code c =? 111) || (code c =? 79) then radix_literal 8 s
      else if (code c =? 98) || (code c =? 66) then radix_literal 2 s
      else unsigned_decimal_literal false t
  | t => unsigned_decimal_literal false t
  end.

(** ** Values

    The values JSON can denote, and [undefined].  An object is the list of
    its own properties in property order. *)

#[warnings="-register-all"]
Inductive value :=
| VUndefined
| VNull
| VBool (b : bool)
| VNum (n : number)
| VStr (s : string)
| VArr (items : list value)
| VObj (props : list (string * value)).

(** What evaluating an expression or running a block ends in: a value, or
    a thrown error (an [Error] object, of which the program only ever
    reads the [message]). *)
Inductive completion (A : Type) :=
| Normal (a : A)
| Throw (message : string).
Arguments Normal {A} a.
Arguments Throw {A} message.

#[global] Instance completion_ret : MRet completion := fun A a => Normal a.

#[global] Instance completion_bind : MBind completion := fun A B f c =>
  match c with
  | Normal a => f a
  | Throw message => Throw message
  end.

(** [ToBoolean]. *)
Definition truthy (v : value) : bool :=
  match v with
  | VUndefined | VNull => false
  | VBool b => b
  | VNum n => number_truthy n
  | VStr s => negb (String.eqb s "")
  | VArr _ | VObj _ => true
  end.

Fixpoint join (sep : string) (parts : list string) : string :=
  match parts with
  | [] => ""
  | [x] => x
  | x :: rest => x +:+ sep +:+ join sep rest
  end.

(** [ToString], as a template literal applies it. *)
Fixpoint to_string (v : value) : string :=
  match v with
  | VUndefined => "undefined"
  | VNull => "null"
  | VBool true => "true"
  | VBool false => "false"
  | VNum n => number_to_string n
  | VStr s => s
  | VArr items =>
      join "," (map (fun x => match x with
                              | VUndefined | VNull => ""
                              | _ => to_string x
                              end) items)
  | VObj _ => "[object Object]"
  end.

(** [ToNumber]. *)
Definition to_number (v : value) : number :=
  match v with
  | VUndefined => NaN
  | VNull => Dec 0 0
  | VBool true => Dec 1 0
  | VBool false => Dec 0 0
  | VNum n => n
  | VStr s => string_to_number s
  | VArr _ | VObj _ => string_to_number (to_string v)
  end.

(** [v === s] for a string [s]. *)
Definition is_string (v : value) (s : string) : bool :=
  match v with
  | VStr t => String.eqb t s
  | _ => false
  end.

(** An array index: the canonical decimal spelling of an integer below
    2^32 - 1. *)
Definition array_index (key : string) : option Z :=
  match scan_digits key with
  | (String c ds as all, "") =>
      if (code c =? 48) && negb (String.eqb ds "") then None
      else let i := Z_of_digits all in
           if i <? 2 ^ 32 - 1 then Some i else None
  | _ => None
  end.

Fixpoint assoc (key : string) (props : list (string * value)) : option value :=
  match props with
  | [] => None
  | (k, v) :: rest => if String.eqb k key then Some v else assoc key rest
  end.

Fixpoint replace (key : string) (v : value) (props : list (string * value))
  : list (string * value) :=
  match props with
  | [] => []
  | (k, w) :: rest =>
      if String.eqb k key then (k, v) :: rest else (k, w) :: replace key v rest
  end.

(** Where a new array-index key goes: before the first key that is not
    an array index or is a larger one. *)
Fixpoint insert_index (i : Z) (key : string) (v : value) (props : list (string * value))
  : list (string * value) :=
  match props with
  | [] => [(key, v)]
  | (k, w) :: rest =>
      match array_index k with
      | Some j => if j <? i then (k, w) :: insert_index i key v rest
                  else (key, v) :: props
      | None => (key, v) :: props
      end
  end.

(** [CreateDataProperty] on an ordinary object: an existing key keeps its
    place; a new array index is placed in ascending order before the
    other keys; any other new key comes last. *)
Definition define (props : list (string * value)) (key : string) (v : value)
  : list (string * value) :=
  match assoc key props with
  | Some _ => replace key v props
  | None =>
      match array_index key with
      | Some i => insert_index i key v props
      | None => props ++ [(key, v)]
      end
  end.

(** The object an object literal [{k1: v1, ...}] evaluates to. *)
Definition object (entries : list (string * value)) : value :=
  VObj (fold_left (fun props '(k, v) => define props k v) entries []).

Fixpoint indexed {A : Type} (f : A -> value) (i : Z) (xs : list A) : list (string * value) :=
  match xs with
  | [] => []
  | x :: rest => (string_of_Z i, f x) :: indexed f (i + 1) rest
  end.

(** The own enumerable properties of [ToObject v], in order: what a spread
    [{...v}] copies. *)
Definition own_properties (v : value) : list (string * value) :=
  match v with
  | VObj props => props
  | VArr items => indexed id 0 items
  | VStr s => indexed (fun c => VStr (String c "")) 0 (list_ascii_of_string s)
  | _ => []
  end.

(** [{...v, key: x}]. *)
Definition spread_with (v : value) (key : string) (x : value) : value :=
  object (own_properties v ++ [(key, x)]).

Definition cannot_read (base key : string) : string :=
  "Cannot read properties of " +:+ base +:+ " (reading '" +:+ key +:+ "')".

(** [v.key] and [v[key]] for an own property.  Reading from [undefined]
    or [null] throws a TypeError (the message is V8's); a property that
    is not there reads as [undefined].  Properties found on a prototype
    (methods) are not modelled: the program reads none. *)
Definition get (v : value) (key : string) : completion value :=
  match v with
  | VUndefined => Throw (cannot_read "undefined" key)
  | VNull => Throw (cannot_read "null" key)
  | VBool _ | VNum _ => Normal VUndefined
  | VStr s =>
      if String.eqb key "length" then Normal (VNum (of_Z (Z.of_nat (String.length s))))
      else match array_index key with
           | Some i => match String.get (Z.to_nat i) s with
                       | Some c => Normal (VStr (String c ""))
                       | None => Normal VUndefined
                       end
           | None => Normal VUndefined
           end
  | VArr items =>
      if String.eqb key "length" then Normal (VNum (of_Z (Z.of_nat (length items))))
      else match array_index key with
           | Some i => Normal (nth (Z.to_nat i) items VUndefined)
           | None => Normal VUndefined
           end
  | VObj props => Normal (from_option id VUndefined (assoc key props))
  end.

(** [v?.key]: [undefined] when [v] is [undefined] or [null]. *)
Definition get_optional (v : value) (key : string) : completion value :=
  match v with
  | VUndefined | VNull => Normal VUndefined
  | _ => get v key
  end.

End Js.

(** * JSON *)

Module Json.
Import Js.

Definition hex_digit (d : Z) : ascii :=
  ascii_of_N (Z.to_N (if d <? 10 then 48 + d else 87 + d)).

(** One code unit of a string inside [QuoteJSONString]. *)
Definition quote_char (c : ascii) : string :=
  let n := code c in
  if n =? 8 then "\b"
  else if n =? 9 then "\t"
  else if n =? 10 then "\n"
  else if n =? 12 then "\f"
  else if n =? 13 then "\r"
  else if n =? 34 then String "\" (String c "")
  else if n =? 92 then "\\"
  else if n <? 32 then "\u00" +:+ String (hex_digit (n / 16)) (String (hex_digit (n mod 16)) "")
  else String c "".

Fixpoint quote_chars (s : string) : string :=
  match s with
  | String c rest => quote_char c +:+ quote_chars rest
  | "" => ""
  end.

Definition quote (s : string) : string :=
  String (ascii_of_N 34) (quote_chars s +:+ String (ascii_of_N 34) "").

(** [JSON.stringify(v)] with no replacer and no indentation: [None] is
    [undefined].  In an array [undefined] is written [null]; in an object
    a property whose value is [undefined] is left out. *)
Fixpoint stringify (v : value) : option string :=
  match v with
  | VUndefined => None
  | VNull => Some "null"
  | VBool true => Some "true"
  | VBool false => Some "false"
  | VNum (Dec _ _ as n) => Some (number_to_string n)
  | VNum _ => Some "null"
  | VStr s => Some (quote s)
  | VArr items =>
      Some ("[" +:+ join "," (map (fun x => from_option id "null" (stringify x)) items) +:+ "]")
  | VObj props =>
      Some ("{" +:+ join "," (omap (fun '(k, x) =>
                                      match stringify x with
                                      | Some text => Some (quote k +:+ ":" +:+ text)
                                      | None => None
                                      end) props) +:+ "}")
  end.

(** ** [JSON.parse] *)

Inductive parsed (A : Type) :=
| Parsed (a : A) (rest : string)
| SyntaxError
| NotCovered.
Arguments Parsed {A} a rest.
Arguments SyntaxError {A}.
Arguments NotCovered {A}.

(** JSON white space: TAB, LF, CR and SP. *)
Definition is_json_space (c : ascii) : bool :=
  (code c =? 9) || (code c =? 10) || (code c =? 13) || (code c =? 32).

Fixpoint skip_space (s : string) : string :=
  match s with
  | String c rest => if is_json_space c then skip_space rest else s
  | "" => ""
  end.

(** [-? (0 | [1-9] digits) (. digits)? (e [+-]? digits)?] *)
Definition parse_number (s : string) : parsed value :=
  let '(negative, s0) :=
    match s with
    | String "-" r => (true, r)
    | _ => (false, s)
    end in
  let '(int, s1) := scan_digits s0 in
  match int with
  | "" => SyntaxError
  | String c more =>
      if (code c =? 48) && negb (String.eqb more "") then SyntaxError
      else
        let fraction :=
          match s1 with
          | String "." r =>
              let '(f, r') := scan_digits r in
              if String.eqb f "" then None else Some (f, r')
          | _ => Some ("", s1)
          end in
        match fraction with
        | None => SyntaxError
        | Some (frac, s2) =>
            match scan_exponent s2 with
            | Some (e, s3) => Parsed (VNum (decimal negative int frac e)) s3
            | None => SyntaxError
            end
        end
  end.

(** The code unit of a [\uXXXX] escape. *)
Definition parse_unicode_escape (s : string) : parsed ascii :=
  match s with
  | String a (String b (String c (String d rest))) =>
      match hex_value a, hex_value b, hex_value c, hex_value d with
      | Some x3, Some x2, Some x1, Some x0 =>
          if (x3 =? 0) && (x2 =? 0) then Parsed (ascii_of_N (Z.to_N (16 * x1 + x0))) rest
          else NotCovered
      | _, _, _, _ => SyntaxError
      end
  | _ => SyntaxError
  end.

(** The characters of a string literal after its opening quote. *)
Fixpoint parse_chars (fuel : nat) (s : string) : parsed string :=
  match fuel with
  | O => NotCovered
  | S fuel' =>
      match s with
      | "" => SyntaxError
      | String c rest =>
          let continue_with (c' : ascii) (rest' : string) :=
            match parse_chars fuel' rest' with
            | Parsed text after => Parsed (String c' text) after
            | SyntaxError => SyntaxError
            | NotCovered => NotCovered
            end in
          if code c =? 34 then Parsed "" rest
          else if code c <? 32 then SyntaxError
          else if code c =? 92 then
            match rest with
            | String e rest' =>
                let n := code e in
                if n =? 34 then continue_with e rest'
                else if n =? 92 then continue_with e rest'
                else if n =? 47 then continue_with e rest'
                else if n =? 98 then continue_with (ascii_of_N 8) rest'
                else if n =? 102 then continue_with (ascii_of_N 12) rest'
                else if n =? 110 then continue_with (ascii_of_N 10) rest'
                else if n =? 114 then continue_with (ascii_of_N 13) rest'
                else if n =? 116 then continue_with (ascii_of_N 9) rest'
                else if n =? 117 then
                  match parse_unicode_escape rest' with
                  | Parsed u rest'' => continue_with u rest''
                  | SyntaxError => SyntaxError
                  | NotCovered => NotCovered
                  end
                else SyntaxError
            | "" => SyntaxError
            end
          else continue_with c rest
      end
  end.

Definition parse_string (s : string) : parsed string :=
  parse_chars (S (String.length s)) s.

Definition expect (word : string) (v : value) (s : string) : parsed value :=
  if String.prefix word s
  then Parsed v (substring (String.length word) (String.length s - String.length word) s)
  else SyntaxError.

(** A JSON value in front of [s], after white space.  [parse_elements]
    reads what follows the opening bracket of an array or an element's
    comma, [parse_members] likewise for an object; [first] tells whether
    the closing bracket may come right away. *)
Fixpoint parse_value (fuel : nat) (s : string) : parsed value :=
  match fuel with
  | O => NotCovered
  | S fuel' =>
      match skip_space s with
      | "" => SyntaxError
      | String c rest as t =>
          let n := code c in
          if n =? 123 then parse_members fuel' true [] rest
          else if n =? 91 then parse_elements fuel' true [] rest
          else if n =? 34 then
            match parse_string rest with
            | Parsed text after => Parsed (VStr text) after
            | SyntaxError => SyntaxError
            | NotCovered => NotCovered
            end
          else if n =? 116 then expect "true" (VBool true) t
          else if n =? 102 then expect "false" (VBool false) t
          else if n =? 110 then expect "null" VNull t
          else parse_number t
      end
  end
with parse_elements (fuel : nat) (first : bool) (items : list value) (s : string)
  : parsed value :=
  match fuel with
  | O => NotCovered
  | S fuel' =>
      match skip_space s with
      | String c rest as t =>
          if first && (code c =? 93) then Parsed (VArr []) rest
          else
            match parse_value fuel' t with
            | Parsed v after =>
                match skip_space after with
                | String d more =>
                    if code d =? 44 then parse_elements fuel' false (items ++ [v]) more
                    else if code d =? 93 then Parsed (VArr (items ++ [v])) more
                    else SyntaxError
                | "" => SyntaxError
                end
            | SyntaxError => SyntaxError
            | NotCovered => NotCovered
            end
      | "" => SyntaxError
      end
  end
with parse_members (fuel : nat) (first : bool) (props : list (string * value)) (s : string)
  : parsed value :=
  match fuel with
  | O => NotCovered
  | S fuel' =>
      match skip_space s with
      | String c rest =>
          if first && (code c =? 125) then Parsed (VObj []) rest
          else if code c =? 34 then
            match parse_string rest with
            | Parsed key after =>
                match skip_space after with
                | String colon s1 =>
                    if code colon =? 58 then
                      match parse_value fuel' s1 with
                      | Parsed v s2 =>
                          match skip_space s2 with
                          | String d more =>
                              if code d =? 44
                              then parse_members fuel' false (define props key v) more
                              else if code d =? 125
                              then Parsed (VObj (define props key v)) more
                              else SyntaxError
                          | "" => SyntaxError
                          end
                      | SyntaxError => SyntaxError
                      | NotCovered => NotCovered
                      end
                    else SyntaxError
                | "" => SyntaxError
                end
            | SyntaxError => SyntaxError
            | NotCovered => NotCovered
            end
          else SyntaxError
      | "" => SyntaxError
      end
  end.

(** [JSON.parse(text)] with no reviver: one value, white space around it
    and nothing else.  [Throw] is the SyntaxError; [None] is a text the
    model does not cover (an escape for a code unit above 255, or nesting
    that uses up the fuel). *)
Definition parse (text : string) : option (completion value) :=
  match parse_value (2 * String.length text + 2) text with
  | Parsed v rest =>
      if String.eqb (skip_space rest) "" then Some (Normal v) else Some (Throw "SyntaxError")
  | SyntaxError => Some (Throw "SyntaxError")
  | NotCovered => None
  end.

End Json.

(** * The application *)

Module App.
Import Js.

(** ** Constants *)

Record Wallpaper := { name : string; url : string }.

Definition WALLPAPERS : list Wallpaper :=
  [ {| name := "Mountain Lake";
       url := "https://images.unsplash.com/photo-1550684848-fac1c5b4e853?q=80&w=2070&auto=format&fit=crop" |};
    {| name := "Midnight City";
       url := "https://images.unsplash.com/photo-1514525253440-b393452e8d26?q=80&w=2000&auto=format&fit=crop" |};
    {| name := "Forest Mist";
       url := "https://images.unsplash.com/photo-1511497584788-876760111969?q=80&w=2000&auto=format&fit=crop" |};
    {| name := "Ocean Sunset";
       url := "https://images.unsplash.com/photo-1507525428034-b723cf961d3e?q=80&w=2000&auto=format&fit=crop" |} ].

(** [WALLPAPERS[0].url] *)
Definition first_wallpaper_url : string :=
  match WALLPAPERS with
  | w :: _ => url w
  | [] => ""
  end.

Definition DEFAULT_SETTINGS : value :=
  object
    [ ("userName", VStr "Guest");
      ("userEmail", VStr "guest@example.com");
      ("apiKey", VStr "");
      ("pollinationsApiKey", VStr "");
      ("profilePictureUrl", VStr "https://api.dicebear.com/7.x/avataaars/svg?seed=Guest");
      ("location", VStr "Rochester, MN");
      ("isAutoLocation", VBool false);
      ("is24Hour", VBool false);
      ("unit", VStr "F");
      ("wallpaper", VStr first_wallpaper_url);
      ("aiSearchModel", VStr "gemini-search") ].

(** ** Component state

    The [useState] cells the orchestration logic reads or writes, and the
    browser's [localStorage]; the cells of the clock, the quote, the
    Google search box and the settings panel's toggle are left out.
    [settings_ref] is the identity of the object held in [settings]:
    every [setSettings] call of the program passes a freshly built
    object, and React compares the dependency [settings] of the
    write-through effect by identity. *)

Record WeatherSnapshot := {
  temp : value;
  condition : value;
  location : value;
  icon : value;
  humidity : value;
  wind : value
}.

Record State := {
  settings : value;
  settings_ref : nat;
  notes : string;
  weather : option WeatherSnapshot;
  loadingWeather : bool;
  aiChatQuery : string;
  aiChatResponse : value;
  isAIChatting : bool;
  aiSearchQuery : string;
  aiSearchResponse : value;
  isAISearching : bool;
  wallpaperPrompt : string;
  isGeneratingWallpaper : bool;
  settingsMessage : option string;
  localStorage : gmap string string
}.

(** ** What the program does to the outside *)

Record Request := {
  request_url : string;
  method : string;
  headers : list (string * string);
  body : option string
}.

(** The argument of [setSettings]: a new object, or the updater
    [prev => ({...prev, key: x})]. *)
Inductive settings_update :=
| NewSettings (v : value)
| SpreadPrev (key : string) (x : value).

Inductive event :=
| SetSettings (u : settings_update)
| SetNotes (s : string)
| SetWeather (w : WeatherSnapshot)
| SetLoadingWeather (b : bool)
| SetAiChatQuery (s : string)
| SetAiChatResponse (v : value)
| SetIsAIChatting (b : bool)
| SetAiSearchQuery (s : string)
| SetAiSearchResponse (v : value)
| SetIsAISearching (b : bool)
| SetWallpaperPrompt (s : string)
| SetIsGeneratingWallpaper (b : bool)
| SetSettingsMessage (s : string)
| Fetch (r : Request)
| GetCurrentPosition
| Wait (ms : Q)
| WarnRetrying (delay : Q).

(** What the outside answers: how a request, the reading of its body or
    a position request settles.  A promise that never settles is not
    among the outcomes; what is proved of a run is proved of the runs
    whose awaited promises settle. *)
Inductive json_outcome :=
| JsonRejects (message : string)
| JsonResolves (data : value).

Inductive fetch_outcome :=
| FetchRejects (message : string)
| FetchResolves (status : Z) (json : json_outcome).

Inductive position_outcome :=
| PositionRejects
| PositionResolves (pos : value).

(** [res.ok] *)
Definition ok (status : Z) : bool := (200 <=? status) && (status <=? 299).

(** ** Asynchronous computations

    The events a computation causes, in order, and how it ends. *)

Definition M (A : Type) : Type := list event * completion A.

#[global] Instance M_ret : MRet M := fun A a => ([], Normal a).

#[global] Instance M_bind : MBind M := fun A B f m =>
  match m with
  | (t, Normal a) => let '(t', r) := f a in ((t ++ t')%list, r)
  | (t, Throw e) => (t, Throw e)
  end.

Definition emit (e : event) : M unit := ([e], Normal tt).

Definition throw {A : Type} (message : string) : M A := ([], Throw message).

Definition lift {A : Type} (c : completion A) : M A := ([], c).

Definition trace {A : Type} (m : M A) : list event := fst m.

Definition result {A : Type} (m : M A) : completion A := snd m.

(** [try { body } catch (error) { handler } finally { finalizer }]: the
    handler receives [error.message]. *)
Definition try_catch_finally {A : Type}
    (body : M A) (handler : string -> M A) (finalizer : M unit) : M A :=
  let '(t1, r1) := body in
  let '(t2, r2) :=
    match r1 with
    | Throw message => handler message
    | _ => ([], r1)
    end in
  let '(t3, r3) := finalizer in
  ((t1 ++ t2 ++ t3)%list,
   match r3 with
   | Normal _ => r2
   | Throw message => Throw message
   end).

(** [await res.json()] *)
Definition res_json (j : json_outcome) : M value :=
  match j with
  | JsonRejects message => throw message
  | JsonResolves data => mret data
  end.

(** How one turn of a loop body ends. *)
Inductive control :=
| Continue
| Return (v : value).

(** ** Settings and notes: loading and write-through *)

(** The [useState] initialiser of [settings]:
    [saved ? JSON.parse(saved) : DEFAULT_SETTINGS]. *)
Definition load_settings (ls : gmap string string) : option (completion value) :=
  match ls !! "dashboardSettings" with
  | Some saved =>
      if truthy (VStr saved) then Json.parse saved else Some (Normal DEFAULT_SETTINGS)
  | None => Some (Normal DEFAULT_SETTINGS)
  end.

(** The [useState] initialiser of [notes]:
    [localStorage.getItem('dashboardNotes') || '']. *)
Definition load_notes (ls : gmap string string) : string :=
  match ls !! "dashboardNotes" with
  | Some saved => if truthy (VStr saved) then saved else ""
  | None => ""
  end.

(** [localStorage.setItem(key, v)] stores [ToString(v)]; [JSON.stringify]
    returns a string or [undefined]. *)
Definition storage_text (v : option string) : string :=
  from_option id "undefined" v.

(** The effect with dependency [settings]. *)
Definition persist_settings (settings : value) (ls : gmap string string)
  : gmap string string :=
  <["dashboardSettings" := storage_text (Json.stringify settings)]> ls.

(** The effect with dependency [notes]. *)
Definition persist_notes (notes : string) (ls : gmap string string)
  : gmap string string :=
  <["dashboardNotes" := notes]> ls.

Definition update_settings (u : settings_update) (prev : value) : value :=
  match u with
  | NewSettings v => v
  | SpreadPrev key x => spread_with prev key x
  end.

(** The state update an event queues; requests and waits update nothing. *)
Definition apply (st : State) (e : event) : State :=
  let '(Build_State se ref no we lw cq cr cb sq sr sb wp gw sm ls) := st in
  match e with
  | SetSettings u =>
      Build_State (update_settings u se) (S ref) no we lw cq cr cb sq sr sb wp gw sm ls
  | SetNotes s => Build_State se ref s we lw cq cr cb sq sr sb wp gw sm ls
  | SetWeather w => Build_State se ref no (Some w) lw cq cr cb sq sr sb wp gw sm ls
  | SetLoadingWeather b => Build_State se ref no we b cq cr cb sq sr sb wp gw sm ls
  | SetAiChatQuery s => Build_State se ref no we lw s cr cb sq sr sb wp gw sm ls
  | SetAiChatResponse v => Build_State se ref no we lw cq v cb sq sr sb wp gw sm ls
  | SetIsAIChatting b => Build_State se ref no we lw cq cr b sq sr sb wp gw sm ls
  | SetAiSearchQuery s => Build_State se ref no we lw cq cr cb s sr sb wp gw sm ls
  | SetAiSearchResponse v => Build_State se ref no we lw cq cr cb sq v sb wp gw sm ls
  | SetIsAISearching b => Build_State se ref no we lw cq cr cb sq sr b wp gw sm ls
  | SetWallpaperPrompt s => Build_State se ref no we lw cq cr cb sq sr sb s gw sm ls
  | SetIsGeneratingWallpaper b => Build_State se ref no we lw cq cr cb sq sr sb wp b sm ls
  | SetSettingsMessage s => Build_State se ref no we lw cq cr cb sq sr sb wp gw (Some s) ls
  | Fetch _ | GetCurrentPosition | Wait _ | WarnRetrying _ => st
  end.

Definition with_storage (st : State) (ls : gmap string string) : State :=
  let '(Build_State se ref no we lw cq cr cb sq sr sb wp gw sm _) := st in
  Build_State se ref no we lw cq cr cb sq sr sb wp gw sm ls.

(** The effects React runs after committing the render that follows a
    batch of updates: each of the two write-through effects runs when its
    dependency differs from the previous render's. *)
Definition run_effects (before after : State) : State :=
  let ls1 :=
    if Nat.eqb (settings_ref before) (settings_ref after) then localStorage after
    else persist_settings (settings after) (localStorage after) in
  let ls2 :=
    if String.eqb (notes before) (notes after) then ls1
    else persist_notes (notes after) ls1 in
  with_storage after ls2.

(** One batch of state updates, the render and its effects. *)
Definition dispatch (st : State) (batch : list event) : State :=
  run_effects st (fold_left apply batch st).

(** The first render over a given [localStorage] and its effects, which
    all run.  A throwing initialiser leaves no component.  (Over the
    stored text [null] the initialiser returns [null] and the program's
    render then throws at [settings.location]; [mount] gives a state there
    all the same, so that [reachable] below has states the program has
    not, and what holds of every reachable state holds of the
    program's.) *)
Definition mount (ls : gmap string string) : option (completion State) :=
  match load_settings ls with
  | Some (Normal s) =>
      let no := load_notes ls in
      Some (Normal (Build_State s 0 no None false "" (VStr "") false "" (VStr "") false ""
                      false None (persist_notes no (persist_settings s ls))))
  | Some (Throw message) => Some (Throw message)
  | None => None
  end.

(** The states the component goes through. *)
Inductive reachable : State -> Prop :=
| reachable_mount ls st : mount ls = Some (Normal st) -> reachable st
| reachable_dispatch st batch : reachable st -> reachable (dispatch st batch).

(** The settings panel's handlers: [setSettings({...settings, key: x})]
    over the settings of the render [r]. *)
Definition change_setting (r : State) (key : string) (x : value) : list event :=
  [SetSettings (NewSettings (spread_with (settings r) key x))].

(** ** The Pollinations chat wrapper

    [r] is the render whose closure the function belongs to: [settings],
    [isAIChatting] and [isAISearching] are that render's values for the
    whole call.  (Every render reads [settings.location], so that a render
    exists only over settings that can be read from.)  [fetch] and
    [random] give what the attempt's request and its [Math.random()]
    return. *)

Definition apiUrl : string :=
  "https://enter.pollinations.ai/api/generate/v1/chat/completions".

Definition maxRetries : Z := 3.

Definition key_not_set : string :=
  "Error: Pollinations API Key not set in settings.".

Definition authentication_failed : string :=
  "Authentication failed. Check your API key.".

(** [`API call failed with status: ${res.status}`] *)
Definition api_call_failed (status : Z) : string :=
  "API call failed with status: " +:+ string_of_Z status.

(** [`AI Error: ${error.message}`] *)
Definition ai_error (message : string) : string := "AI Error: " +:+ message.

Definition no_response : string := "No response received from AI.".

(** *** binary64 arithmetic

    A delay is a number: each product and the sum are rounded. *)

(** The integer nearest to [num / den], for a positive [den]; a tie goes
    to the even one. *)
Definition nearest_even (num den : Z) : Z :=
  let d := num / den in
  match 2 * (num mod den) ?= den with
  | Lt => d
  | Gt => d + 1
  | Eq => if Z.even d then d else d + 1
  end.

(** [floor (log2 (p / q))], for positive [p] and [q]. *)
Definition floor_log2 (p q : Z) : Z :=
  let l := Z.log2 p - Z.log2 q in
  if (if 0 <=? l then 2 ^ l * q <=? p else q <=? 2 ^ (- l) * p) then l else l - 1.

(** The binary64 nearest to [p / q], for positive [p] and [q]: 53
    significant bits, or a multiple of [2^-1074] where those are fewer. *)
Definition round64_positive (p q : Z) : Q :=
  let e := Z.max (floor_log2 p q - 52) (-1074) in
  if 0 <=? e then inject_Z (nearest_even p (q * 2 ^ e) * 2 ^ e)
  else Qred (nearest_even (p * 2 ^ (- e)) q # Z.to_pos (2 ^ (- e))).

(** Rounding to binary64, to nearest and ties to even, as every
    arithmetic operation on numbers does.  Overflow to [Infinity] (from
    [2^1024] on) and the sign of zero are not represented. *)
Definition round64 (x : Q) : Q :=
  match Qnum x with
  | Z0 => 0%Q
  | Zpos p => round64_positive (Zpos p) (Zpos (Qden x))
  | Zneg p => (- round64_positive (Zpos p) (Zpos (Qden x)))%Q
  end.

(** [Math.pow(2, attempt) * 1000 + Math.random() * 1000], in ms: the two
    products and their sum, each rounded to binary64 ([Math.pow(2, attempt)]
    is exact for the attempts of the loop). *)
Definition backoff_delay (attempt : Z) (rnd : Q) : Q :=
  round64 (round64 (2 ^ attempt * 1000) + round64 (rnd * 1000)).

Definition chat_payload (prompt : string) (model : value) : value :=
  object
    [ ("model", model);
      ("messages", VArr [object [("role", VStr "user"); ("content", VStr prompt)]]);
      ("stream", VBool false) ].

Definition set_response (isSearch : bool) (v : value) : event :=
  if isSearch then SetAiSearchResponse v else SetAiChatResponse v.

Definition set_busy (isSearch : bool) (b : bool) : event :=
  if isSearch then SetIsAISearching b else SetIsAIChatting b.

(** [data.choices?.[0]?.message?.content || "No response received from AI."] *)
Definition response_text (data : value) : completion value :=
  choices ← get data "choices";
  choice ← get_optional choices "0";
  message ← get_optional choice "message";
  content ← get_optional message "content";
  mret (if truthy content then content else VStr no_response).

(** The request [fetch(url, {method: 'POST', headers: {...}, body:
    JSON.stringify(payload)})] with the bearer credential [key]. *)
Definition post_request (url : string) (key payload : value) : Request :=
  {| request_url := url;
     method := "POST";
     headers := [ ("Content-Type", "application/json");
                  ("Authorization", "Bearer " +:+ to_string key) ];
     body := Json.stringify payload |}.

(** The [try] block of one attempt. *)
Definition attempt_body (r : State) (fetch : Z -> fetch_outcome) (random : Z -> Q)
    (payload : value) (isSearch : bool) (attempt : Z) : M control :=
  key ← lift (get (settings r) "pollinationsApiKey");
  emit (Fetch (post_request apiUrl key payload));;
  match fetch attempt with
  | FetchRejects message => throw message
  | FetchResolves status json =>
      if negb (ok status) then
        if status =? 401 then throw authentication_failed
        else if (status =? 429) && (attempt <? maxRetries - 1) then
          let delay := backoff_delay attempt (random attempt) in
          emit (WarnRetrying delay);;
          emit (Wait delay);;
          mret Continue
        else throw (api_call_failed status)
      else
        data ← res_json json;
        responseText ← lift (response_text data);
        emit (set_response isSearch responseText);;
        mret (Return responseText)
  end.

(** The [catch] block. *)
Definition attempt_catch (isSearch : bool) (message : string) : M control :=
  let errMsg := VStr (ai_error message) in
  emit (set_response isSearch errMsg);;
  mret (Return errMsg).

(** The [finally] block. *)
Definition attempt_finally (r : State) (isSearch : bool) (attempt : Z) : M unit :=
  if (attempt =? maxRetries - 1) || (negb (isAIChatting r) && negb (isAISearching r))
  then emit (set_busy isSearch false)
  else mret tt.

(** One turn of the loop: its [try], [catch] and [finally]. *)
Definition turn (r : State) (fetch : Z -> fetch_outcome) (random : Z -> Q)
    (payload : value) (isSearch : bool) (attempt : Z) : M control :=
  try_catch_finally
    (attempt_body r fetch random payload isSearch attempt)
    (attempt_catch isSearch)
    (attempt_finally r isSearch attempt).

(** A turn that ends the call: the request, the one response, and the
    [finally] block. *)
Definition final_turn (r : State) (payload : value) (isSearch : bool) (attempt : Z)
    (key text : value) : M control :=
  ([Fetch (post_request apiUrl key payload); set_response isSearch text]
     ++ trace (attempt_finally r isSearch attempt),
   Normal (Return text)).

(** A turn that is a retry: the request, the wait, and the [finally]
    block. *)
Definition retry_turn (r : State) (random : Z -> Q) (payload : value) (isSearch : bool)
    (attempt : Z) (key : value) : M control :=
  ([Fetch (post_request apiUrl key payload);
    WarnRetrying (backoff_delay attempt (random attempt));
    Wait (backoff_delay attempt (random attempt))]
     ++ trace (attempt_finally r isSearch attempt),
   Normal Continue).

(** The events of [n] retry turns in a row, from [attempt] on. *)
Fixpoint retry_turns (r : State) (random : Z -> Q) (payload : value) (isSearch : bool)
    (key : value) (n : nat) (attempt : Z) : list event :=
  match n with
  | O => []
  | S n' =>
      trace (retry_turn r random payload isSearch attempt key)
        ++ retry_turns r random payload isSearch key n' (attempt + 1)
  end.

(** The [for] loop from [attempt] on, [remaining] turns before
    [attempt < maxRetries] fails. *)
Fixpoint attempts (r : State) (fetch : Z -> fetch_outcome) (random : Z -> Q)
    (payload : value) (isSearch : bool) (remaining : nat) (attempt : Z) : M value :=
  match remaining with
  | O => mret VUndefined
  | S remaining' =>
      c ← turn r fetch random payload isSearch attempt;
      match c with
      | Return v => mret v
      | Continue => attempts r fetch random payload isSearch remaining' (attempt + 1)
      end
  end.

Definition callPollinationsChatAPI (r : State) (fetch : Z -> fetch_outcome) (random : Z -> Q)
    (prompt : string) (model : value) (isSearch : bool) : M value :=
  key ← lift (get (settings r) "pollinationsApiKey");
  if negb (truthy key) then
    emit (set_response isSearch (VStr key_not_set));;
    mret VUndefined
  else
    emit (set_busy isSearch true);;
    attempts r fetch random (chat_payload prompt model) isSearch (Z.to_nat (maxRetries - 0)) 0.

(** The events of a computation up to its first suspension, which is
    where it first awaits a request, a position or a timer, and the events
    that follow it.  A computation that awaits nothing runs to its end. *)
Fixpoint first_suspension (t : list event) : list event * list event :=
  match t with
  | [] => ([], [])
  | e :: rest =>
      match e with
      | Fetch _ | GetCurrentPosition | Wait _ => ([e], rest)
      | _ => let '(before, after) := first_suspension rest in (e :: before, after)
      end
  end.

(** A call that is not awaited, and the rest of its caller.  The call
    runs up to its first suspension; the caller then runs to its end; what
    is left of the call comes after.  What the call returns or throws is
    not the caller's. *)
Definition unawaited {A B : Type} (call : M A) (rest : M B) : M B :=
  let '(before, after) := first_suspension (trace call) in
  (before ++ trace rest ++ after, result rest).

(** The submit handlers.  The wrapper is called and not awaited: the
    input is emptied when the wrapper first suspends, at its first
    request, or after its end when it sends none. *)

Definition handleAIChatSubmit (r : State) (fetch : Z -> fetch_outcome) (random : Z -> Q)
  : M unit :=
  if negb (truthy (VStr (trim (aiChatQuery r)))) then mret tt
  else
    emit (SetAiChatResponse (VStr "Thinking..."));;
    unawaited (callPollinationsChatAPI r fetch random (aiChatQuery r) (VStr "openai") false)
      (emit (SetAiChatQuery "")).

Definition handleAISearchSubmit (r : State) (fetch : Z -> fetch_outcome) (random : Z -> Q)
  : M unit :=
  if negb (truthy (VStr (trim (aiSearchQuery r)))) then mret tt
  else
    emit (SetAiSearchResponse (VStr "Searching the web..."));;
    model ← lift (get (settings r) "aiSearchModel");
    unawaited (callPollinationsChatAPI r fetch random (aiSearchQuery r) model true)
      (emit (SetAiSearchQuery "")).

(** ** The wallpaper generator *)

Definition image_apiUrl : string := "https://enter.pollinations.ai/api/generate/image".

Definition generation_error (message : string) : string :=
  "Image generation error. Check prompt and key. (" +:+ message +:+ ")".

Definition image_payload (finalPrompt : string) : value :=
  object
    [ ("prompt", VStr finalPrompt);
      ("model", VStr "nanobanana-pro");
      ("width", VNum (of_Z 1920));
      ("height", VNum (of_Z 1080)) ].

Definition generate_body (r : State) (fetch : fetch_outcome) (finalPrompt : string) : M unit :=
  key ← lift (get (settings r) "pollinationsApiKey");
  emit (Fetch (post_request image_apiUrl key (image_payload finalPrompt)));;
  match fetch with
  | FetchRejects message => throw message
  | FetchResolves status json =>
      if negb (ok status) then throw ("Status: " +:+ string_of_Z status)
      else
        data ← res_json json;
        imageUrl ← lift (get data "url");
        if truthy imageUrl then
          emit (SetSettings (SpreadPrev "wallpaper" imageUrl));;
          emit (SetSettingsMessage "Wallpaper successfully generated and applied!");;
          emit (SetWallpaperPrompt "")
        else throw "No image URL returned."
  end.

Definition generate_catch (message : string) : M unit :=
  emit (SetSettingsMessage (generation_error message));;
  emit (SetSettings (SpreadPrev "wallpaper" (VStr first_wallpaper_url))).

Definition handleGenerateWallpaper (r : State) (fetch : fetch_outcome) : M unit :=
  if negb (truthy (VStr (trim (wallpaperPrompt r)))) then
    emit (SetSettingsMessage "Please enter a description for the wallpaper.")
  else
    key ← lift (get (settings r) "pollinationsApiKey");
    if negb (truthy key) then
      emit (SetSettingsMessage "Pollinations API Key is required to generate images.")
    else
      emit (SetIsGeneratingWallpaper true);;
      emit (SetSettingsMessage "Generating image... this may take up to a minute.");;
      let suffix := ", 16:9 background, wallpaper, 4k" in
      let finalPrompt := wallpaperPrompt r +:+ suffix in
      try_catch_finally
        (generate_body r fetch finalPrompt)
        generate_catch
        (emit (SetIsGeneratingWallpaper false)).

(** ** The weather refresher *)

Definition mock_snapshot (unit : value) : WeatherSnapshot :=
  {| temp := VNum (of_Z (if is_string unit "F" then 72 else 22));
     condition := VStr "Clear Sky";
     location := VStr "Rochester, MN (Mock)";
     icon := VStr "01d";
     humidity := VNum (of_Z 45);
     wind := VNum (of_Z 12) |}.

Definition error_snapshot : WeatherSnapshot :=
  {| temp := VStr "--";
     condition := VStr "API Error";
     location := VStr "Check Key";
     icon := VStr "unknown";
     humidity := VNum (of_Z 0);
     wind := VNum (of_Z 0) |}.

Definition weather_url (query : string) (apiKey : value) (units : string) : string :=
  "https://api.openweathermap.org/data/2.5/weather?" +:+ query
    +:+ "&appid=" +:+ to_string apiKey +:+ "&units=" +:+ units.

(** The [try] block. *)
Definition weather_body (r : State) (position : position_outcome) (fetch : fetch_outcome)
  : M unit :=
  loc ← lift (get (settings r) "location");
  auto ← lift (get (settings r) "isAutoLocation");
  query ← (if truthy auto then
             emit GetCurrentPosition;;
             match position with
             | PositionRejects => throw "User denied Geolocation"
             | PositionResolves pos =>
                 coords ← lift (get pos "coords");
                 latitude ← lift (get coords "latitude");
                 coords' ← lift (get pos "coords");
                 longitude ← lift (get coords' "longitude");
                 mret ("lat=" +:+ to_string latitude +:+ "&lon=" +:+ to_string longitude)
             end
           else mret ("q=" +:+ to_string loc));
  unit ← lift (get (settings r) "unit");
  let units := if is_string unit "F" then "imperial" else "metric" in
  apiKey ← lift (get (settings r) "apiKey");
  emit (Fetch {| request_url := weather_url query apiKey units;
                 method := "GET";
                 headers := [];
                 body := None |});;
  match fetch with
  | FetchRejects message => throw message
  | FetchResolves status json =>
      if negb (ok status) then throw "Failed to fetch weather"
      else
        data ← res_json json;
        main ← lift (get data "main");
        t ← lift (get main "temp");
        conditions ← lift (get data "weather");
        first ← lift (get conditions "0");
        description ← lift (get first "description");
        place ← lift (get data "name");
        first' ← lift (get conditions "0");
        icon_id ← lift (get first' "icon");
        main' ← lift (get data "main");
        h ← lift (get main' "humidity");
        w ← lift (get data "wind");
        speed ← lift (get w "speed");
        emit (SetWeather {| temp := VNum (Math_round (to_number t));
                            condition := description;
                            location := place;
                            icon := icon_id;
                            humidity := h;
                            wind := speed |})
  end.

Definition fetchWeather (r : State) (position : position_outcome) (fetch : fetch_outcome)
  : M unit :=
  emit (SetLoadingWeather true);;
  apiKey ← lift (get (settings r) "apiKey");
  if negb (truthy apiKey) then
    (* setTimeout(..., 800): the callback's events, 800 ms later *)
    emit (Wait 800);;
    unit ← lift (get (settings r) "unit");
    emit (SetWeather (mock_snapshot unit));;
    emit (SetLoadingWeather false)
  else
    try_catch_finally
      (weather_body r position fetch)
      (fun _ => emit (SetWeather error_snapshot))
      (emit (SetLoadingWeather false)).

(** ** What a trace shows *)

Definition requests (t : list event) : list Request :=
  omap (fun e => match e with Fetch r => Some r | _ => None end) t.

Definition position_requests (t : list event) : nat :=
  length (omap (fun e => match e with GetCurrentPosition => Some tt | _ => None end) t).

Definition waits (t : list event) : list Q :=
  omap (fun e => match e with Wait ms => Some ms | _ => None end) t.

(** The values given to [setAiChatResponse] or [setAiSearchResponse]. *)
Definition responses (isSearch : bool) (t : list event) : list value :=
  omap (fun e => match e, isSearch with
                 | SetAiChatResponse v, false => Some v
                 | SetAiSearchResponse v, true => Some v
                 | _, _ => None
                 end) t.

(** The values given to [setIsAIChatting] or [setIsAISearching]. *)
Definition busy_updates (isSearch : bool) (t : list event) : list bool :=
  omap (fun e => match e, isSearch with
                 | SetIsAIChatting b, false => Some b
                 | SetIsAISearching b, true => Some b
                 | _, _ => None
                 end) t.

Definition snapshots (t : list event) : list WeatherSnapshot :=
  omap (fun e => match e with SetWeather w => Some w | _ => None end) t.

(** A computation that sets a weather snapshot only if it ends normally. *)
Definition snapshot_only_if_normal {A : Type} (m : M A) : Prop :=
  match result m with
  | Normal _ => True
  | _ => snapshots (trace m) = []
  end.

(** How often a flag that starts as [current] goes from [true] to [false]
    under a sequence of assignments, and what it ends as. *)
Fixpoint falls (current : bool) (updates : list bool) : nat :=
  match updates with
  | [] => 0
  | b :: rest => (if current && negb b then 1 else 0) + falls b rest
  end.

(** What has happened when the first request goes out. *)
Fixpoint before_first_request (t : list event) : list event :=
  match t with
  | [] => []
  | Fetch _ :: _ => []
  | e :: rest => e :: before_first_request rest
  end.

Definition ends_with (suffix s : string) : bool :=
  String.eqb (substring (String.length s - String.length suffix) (String.length suffix) s) suffix
  && (String.length suffix <=? String.length s)%nat.

(** What the store holds when both write-through effects have kept up. *)
Definition written_through (st : State) : Prop :=
  localStorage st !! "dashboardSettings" = Some (storage_text (Json.stringify (settings st))) /\
  localStorage st !! "dashboardNotes" = Some (notes st).

(** ** Sample runs *)

(** The component mounted over an empty [localStorage]. *)
Definition fresh_state : State :=
  {| settings := DEFAULT_SETTINGS;
     settings_ref := 0;
     notes := "";
     weather := None;
     loadingWeather := false;
     aiChatQuery := "";
     aiChatResponse := VStr "";
     isAIChatting := false;
     aiSearchQuery := "";
     aiSearchResponse := VStr "";
     isAISearching := false;
     wallpaperPrompt := "";
     isGeneratingWallpaper := false;
     settingsMessage := None;
     localStorage := persist_notes "" (persist_settings DEFAULT_SETTINGS ∅) |}.

(** The user types a display name into the settings panel. *)
Definition renamed_state : State :=
  dispatch fresh_state (change_setting fresh_state "userName" (VStr "Ada")).

(** A chat completion carrying [text]. *)
Definition completion_of (text : string) : value :=
  object [("choices", VArr [object [("message", object [("content", VStr text)])]])].

Definition rate_limited : fetch_outcome := FetchResolves 429 (JsonRejects "").

(** An endpoint that answers 429 twice and then 200. *)
Definition twice_limited (attempt : Z) : fetch_outcome :=
  if attempt <? 2 then rate_limited else FetchResolves 200 (JsonResolves (completion_of "hi")).

(** A random generator that always returns one half. *)
Definition half (attempt : Z) : Q := 1 # 2.

(** The user pastes a Pollinations key into the settings panel. *)
Definition keyed_state : State :=
  dispatch fresh_state (change_setting fresh_state "pollinationsApiKey" (VStr "sk-test")).

(** The user types a chat prompt and a search prompt; there is no key. *)
Definition typed_state : State :=
  dispatch fresh_state [SetAiChatQuery "hello"; SetAiSearchQuery "weather today"].

(** With a key, the user types a search prompt. *)
Definition search_typed_state : State :=
  dispatch keyed_state [SetAiSearchQuery "weather today"].

(** The search is submitted and its first request is in flight: the
    handler has run up to the wrapper's first [await], and then to its
    own end.  Then the user types a chat prompt. *)
Definition searching_state : State :=
  dispatch
    (dispatch search_typed_state
       (before_first_request (trace (handleAISearchSubmit search_typed_state twice_limited half))
          ++ [SetAiSearchQuery ""]))
    [SetAiChatQuery "hello"].

(** The user pastes an OpenWeatherMap key into the settings panel. *)
Definition weather_keyed_state : State :=
  dispatch fresh_state (change_setting fresh_state "apiKey" (VStr "owm-test")).

(** The user types a wallpaper description; a Pollinations key is set. *)
Definition prompted_state : State :=
  dispatch keyed_state [SetWallpaperPrompt "a quiet harbour at dawn"].


End App.

(** * More of what a trace shows *)

Module Watch.
Import Js App.

(** The values given to [setLoadingWeather]. *)
Definition loading_updates (t : list event) : list bool :=
  omap (fun e => match e with SetLoadingWeather b => Some b | _ => None end) t.

(** The values given to [setIsGeneratingWallpaper]. *)
Definition generating_updates (t : list event) : list bool :=
  omap (fun e => match e with SetIsGeneratingWallpaper b => Some b | _ => None end) t.

(** The arguments of [setSettings]. *)
Definition settings_updates (t : list event) : list settings_update :=
  omap (fun e => match e with SetSettings u => Some u | _ => None end) t.

(** The texts given to [setSettingsMessage]. *)
Definition shown_messages (t : list event) : list string :=
  omap (fun e => match e with SetSettingsMessage s => Some s | _ => None end) t.

(** A computation that neither touches the loading flag nor sets a
    snapshot. *)
Definition weather_quiet {A : Type} (m : M A) : Prop :=
  loading_updates (trace m) = [] /\ snapshots (trace m) = [].

(** A computation that does not touch the loading flag and sets exactly
    one snapshot if it ends normally, none if it throws. *)
Definition one_snapshot_if_normal {A : Type} (m : M A) : Prop :=
  loading_updates (trace m) = [] /\
  match result m with
  | Normal _ => length (snapshots (trace m)) = 1%nat
  | Throw _ => snapshots (trace m) = []
  end.

(** The sum of the waits, in ms. *)
Definition total (ms : list Q) : Q := fold_right Qplus 0%Q ms.

(** Only white space and line terminators. *)
Definition blank (s : string) : bool :=
  forallb is_white_space (list_ascii_of_string s).

(** With a key, the user types only spaces into the chat box and a real
    prompt into the search box. *)
Definition spaces_state : State :=
  dispatch keyed_state [SetAiChatQuery "   "; SetAiSearchQuery " tides in Brest "].

(** The answer of the weather provider, as its interface describes it. *)
Definition weather_answer (t h description icon_id place speed : value) : value :=
  object [ ("main", object [("temp", t); ("humidity", h)]);
           ("weather", VArr [object [("description", description); ("icon", icon_id)]]);
           ("name", place);
           ("wind", object [("speed", speed)]) ].

(** A position as the geolocation service reports it. *)
Definition position_at (latitude longitude : value) : value :=
  object [("coords", object [("latitude", latitude); ("longitude", longitude)])].

(** With an OpenWeatherMap key, the user turns on auto-location. *)
Definition auto_located_state : State :=
  dispatch weather_keyed_state (change_setting weather_keyed_state "isAutoLocation" (VBool true)).

End Watch.

(** * What the settings hold *)

Module Reload.
Import Js App.

(** What a field of the settings holds: a string (the text inputs, the
    model select, the wallpaper URLs) or a boolean (the toggles); [null]
    is what a stored field can also hold. *)
Definition plain (v : value) : bool :=
  match v with
  | VStr _ | VBool _ | VNull => true
  | _ => false
  end.

(** A property name that is not an array index. *)
Definition named (key : string) : bool :=
  match array_index key with
  | Some _ => false
  | None => true
  end.

Fixpoint distinct (keys : list string) : bool :=
  match keys with
  | [] => true
  | k :: rest => negb (existsb (String.eqb k) rest) && distinct rest
  end.

(** An object whose fields are plain, under distinct names. *)
Definition flat_record (v : value) : bool :=
  match v with
  | VObj props =>
      forallb (fun '(k, x) => named k && plain x) props && distinct (map fst props)
  | _ => false
  end.

(** The text of one member of a flat record. *)
Definition member_text (p : string * value) : string :=
  Json.quote (fst p) +:+ ":" +:+ from_option id "null" (Json.stringify (snd p)).

End Reload.

(** * The search box *)

Module SearchBox.
Import Js.

(** The characters [encodeURIComponent] leaves as they are: letters,
    digits and [- _ . ! ~ * ' ( )]. *)
Definition unreserved (c : ascii) : bool :=
  let n := code c in
  ((65 <=? n) && (n <=? 90)) || ((97 <=? n) && (n <=? 122)) || is_digit c
  || (n =? 45) || (n =? 95) || (n =? 46) || (n =? 33) || (n =? 126)
  || (n =? 42) || (n =? 39) || (n =? 40) || (n =? 41).

Definition hex_upper (d : Z) : ascii :=
  ascii_of_N (Z.to_N (if d <? 10 then 48 + d else 55 + d)).

(** [%XX] for one octet. *)
Definition percent (octet : Z) : string :=
  String "%" (String (hex_upper (octet / 16)) (String (hex_upper (octet mod 16)) "")).

(** One code unit: kept if unreserved, otherwise its UTF-8 octets, one
    below 128 and two from 128 to 255.  (Strings are code units below 256
    here, so that there is no lone surrogate and no URIError.) *)
Definition encode_unit (c : ascii) : string :=
  let n := code c in
  if unreserved c then String c ""
  else if n <? 128 then percent n
  else percent (192 + n / 64) +:+ percent (128 + n mod 64).

Fixpoint encodeURIComponent (s : string) : string :=
  match s with
  | String c rest => encode_unit c +:+ encodeURIComponent rest
  | "" => ""
  end.

(** What the search handlers do to the page. *)
Inductive action :=
| PreventDefault
| Navigate (href : string)
| SetSearchQuery (s : string)
| SetIsListening (b : bool)
| ConsoleError (s : string)
| SetLang (s : string)
| StartRecognition.

Definition search_href (query : string) : string :=
  "https://www.google.com/search?q=" +:+ encodeURIComponent query.

(** The submit handler of the search box, over the render's
    [searchQuery]. *)
Definition handleSearch (searchQuery : string) : list action :=
  PreventDefault ::
  (if negb (truthy (VStr (trim searchQuery))) then []
   else [Navigate (search_href searchQuery)]).

(** [startVoiceSearch], given whether the browser has a recognition
    constructor, and the two callbacks it installs. *)
Definition startVoiceSearch (supported : bool) : list action :=
  if negb supported then [ConsoleError "Voice search not supported."]
  else [SetLang "en-US"; SetIsListening true; StartRecognition].

Definition onresult (transcript : string) : list action :=
  [SetSearchQuery transcript; Navigate (search_href transcript); SetIsListening false].

Definition onend : list action := [SetIsListening false].

Definition navigations (actions : list action) : list string :=
  omap (fun a => match a with Navigate href => Some href | _ => None end) actions.

(** The first code unit of an encoded text and what follows it. *)
Definition first_unit (s : string) : option (ascii * string) :=
  match s with
  | String "%" (String a (String b rest)) =>
      match hex_value a, hex_value b with
      | Some x1, Some x0 =>
          let octet := 16 * x1 + x0 in
          if octet <? 128 then Some (ascii_of_N (Z.to_N octet), rest)
          else
            match rest with
            | String "%" (String a' (String b' rest')) =>
                match hex_value a', hex_value b' with
                | Some y1, Some y0 =>
                    Some (ascii_of_N (Z.to_N (64 * (octet - 192) + (16 * y1 + y0 - 128))), rest')
                | _, _ => None
                end
            | _ => None
            end
      | _, _ => None
      end
  | String c rest => Some (c, rest)
  | "" => None
  end.

End SearchBox.

(** * The digital clock *)

Module Clock.
Import Js.

Fixpoint copies (n : nat) (fill : string) : string :=
  match n with
  | O => ""
  | S n' => fill +:+ copies n' fill
  end.

(** [s.padStart(target, fill)]: [s] itself when it is long enough or the
    filler is empty, otherwise the filler repeated and cut to the missing
    length, then [s]. *)
Definition padStart (target : nat) (fill s : string) : string :=
  let len := String.length s in
  if (target <=? len)%nat then s
  else if String.eqb fill "" then s
  else substring 0 (target - len) (copies (target - len) fill) +:+ s.

(** What [formatTime] reads from a [Date]: the local hour and minute. *)
Record Date := { getHours : Z; getMinutes : Z }.

Definition formatTime (date : Date) (is24 : value) : string :=
  let hours := getHours date in
  let minutes := padStart 2 "0" (number_to_string (of_Z (getMinutes date))) in
  if negb (truthy is24) then
    let hours := Z.rem hours 12 in
    let hours := if number_truthy (of_Z hours) then hours else 12 in
    number_to_string (of_Z hours) +:+ ":" +:+ minutes
  else padStart 2 "0" (number_to_string (of_Z hours)) +:+ ":" +:+ minutes.

(** The hours and minutes a [Date] can give. *)
Definition valid (date : Date) : bool :=
  (0 <=? getHours date) && (getHours date <? 24)
  && (0 <=? getMinutes date) && (getMinutes date <? 60).

(** The hour shown on the twelve-hour clock. *)
Definition dial_hour (hours : Z) : Z :=
  let hours := Z.rem hours 12 in
  if number_truthy (of_Z hours) then hours else 12.

Definition minute_text (minutes : Z) : string :=
  padStart 2 "0" (number_to_string (of_Z minutes)).

Definition colon_free (s : string) : bool :=
  forallb (fun c => negb (Ascii.eqb c ":")) (list_ascii_of_string s).

End Clock.

(** * When the weather is fetched again *)

Module Effects.
Import Js App.

(** [Object.is], where the values decide it: [None] for two objects or
    arrays, which are the same only as one object, and for two numbers,
    where the sign of zero would decide. *)
Definition same_value (a b : value) : option bool :=
  match a, b with
  | VUndefined, VUndefined | VNull, VNull => Some true
  | VBool x, VBool y => Some (Bool.eqb x y)
  | VStr x, VStr y => Some (String.eqb x y)
  | VNum _, VNum _ => None
  | (VArr _ | VObj _), (VArr _ | VObj _) => None
  | _, _ => Some false
  end.

(** How React compares the dependencies of an effect with those of the
    previous render: one by one, up to the first that differs. *)
Fixpoint same_inputs (prev next : list value) : option bool :=
  match prev, next with
  | a :: prev', b :: next' =>
      match same_value a b with
      | Some true => same_inputs prev' next'
      | other => other
      end
  | _, _ => Some true
  end.

(** The dependencies of the weather effect. *)
Definition weather_inputs (settings : value) : completion (list value) :=
  loc ← get settings "location";
  apiKey ← get settings "apiKey";
  unit ← get settings "unit";
  auto ← get settings "isAutoLocation";
  mret [loc; apiKey; unit; auto].

(** Whether the render [next] that follows the render [prev] runs the
    weather effect, that is [fetchWeather]. *)
Definition weather_effect_runs (prev next : State) : option bool :=
  match weather_inputs (settings prev), weather_inputs (settings next) with
  | Normal a, Normal b => negb <$> same_inputs a b
  | _, _ => None
  end.

End Effects.

(** * Properties *)

Import Js App.

(** ** Objects *)

Lemma assoc_replace key x props :
  is_Some (assoc key props) -> assoc key (replace key x props) = Some x.
Proof.
  induction props as [|[k w] rest IH]; cbn.
  - intros [? ?]; discriminate.
  - destruct (String.eqb k key) eqn:E; cbn; rewrite E; auto.
Qed.

Lemma assoc_insert_index i key x props :
  assoc key props = None -> assoc key (insert_index i key x props) = Some x.
Proof.
  induction props as [|[k w] rest IH]; cbn.
  - now rewrite String.eqb_refl.
  - destruct (String.eqb k key) eqn:E; [discriminate|]. intros Hrest.
    destruct (array_index k) as [j|]; [destruct (j <? i)|]; cbn;
      rewrite ?E, ?String.eqb_refl; auto.
Qed.

Lemma assoc_app_last key x props :
  assoc key props = None -> assoc key (props ++ [(key, x)]) = Some x.
Proof.
  induction props as [|[k w] rest IH]; cbn.
  - now rewrite String.eqb_refl.
  - destruct (String.eqb k key); [discriminate | auto].
Qed.

Lemma assoc_define key x props : assoc key (define props key x) = Some x.
Proof.
  unfold define. destruct (assoc key props) eqn:E.
  - apply assoc_replace. rewrite E. eauto.
  - destruct (array_index key); [apply assoc_insert_index | apply assoc_app_last]; exact E.
Qed.

Lemma object_snoc entries key x :
  object (entries ++ [(key, x)]) =
  VObj (define (fold_left (fun props '(k, v) => define props k v) entries []) key x).
Proof. unfold object. now rewrite fold_left_app. Qed.

(** Reading back the property a spread has just set. *)
Lemma get_spread_with v key x : get (spread_with v key x) key = Normal x.
Proof.
  unfold spread_with. rewrite object_snoc. cbn. now rewrite assoc_define.
Qed.

(** A value that can be read from once can be read from again. *)
Lemma get_again v key x key' : get v key = Normal x -> exists y, get v key' = Normal y.
Proof.
  destruct v; cbn; try discriminate; intros _; eauto.
  - destruct (String.eqb key' "length"); eauto.
    destruct (array_index key'); eauto. destruct (String.get _ _); eauto.
  - destruct (String.eqb key' "length"); eauto. destruct (array_index key'); eauto.
Qed.

(** ** Write-through of settings and notes *)

Lemma apply_settings_ref st e : (settings_ref st <= settings_ref (App.apply st e))%nat.
Proof. destruct st, e; cbn; lia. Qed.

Lemma fold_apply_settings_ref batch st :
  (settings_ref st <= settings_ref (fold_left App.apply batch st))%nat.
Proof.
  revert st. induction batch as [|e batch IH]; intros st; cbn; [lia|].
  specialize (IH (App.apply st e)). pose proof (apply_settings_ref st e). lia.
Qed.

(** The identity of the settings object stays the same only if no
    [setSettings] was called. *)
Lemma apply_same_ref st e :
  settings_ref (App.apply st e) = settings_ref st -> settings (App.apply st e) = settings st.
Proof. destruct st, e; cbn; intros; try reflexivity; lia. Qed.

Lemma fold_apply_same_ref batch st :
  settings_ref (fold_left App.apply batch st) = settings_ref st ->
  settings (fold_left App.apply batch st) = settings st.
Proof.
  revert st. induction batch as [|e batch IH]; intros st; cbn; [reflexivity|].
  intros Href.
  pose proof (fold_apply_settings_ref batch (App.apply st e)).
  pose proof (apply_settings_ref st e).
  rewrite IH by lia. apply apply_same_ref. lia.
Qed.

Lemma apply_localStorage st e : localStorage (App.apply st e) = localStorage st.
Proof. destruct st, e; reflexivity. Qed.

Lemma fold_apply_localStorage batch st :
  localStorage (fold_left App.apply batch st) = localStorage st.
Proof.
  revert st. induction batch as [|e batch IH]; intros st; cbn; [reflexivity|].
  now rewrite IH, apply_localStorage.
Qed.

Lemma with_storage_fields st ls :
  settings (with_storage st ls) = settings st /\
  notes (with_storage st ls) = notes st /\
  localStorage (with_storage st ls) = ls.
Proof. destruct st; cbn; auto. Qed.

Lemma mount_written_through ls st : mount ls = Some (Normal st) -> written_through st.
Proof.
  unfold mount. destruct (load_settings ls) as [[s|]|]; try discriminate.
  intros [= <-]. unfold written_through, persist_notes, persist_settings; cbn. split.
  - rewrite lookup_insert_ne by discriminate. apply lookup_insert_eq.
  - apply lookup_insert_eq.
Qed.

Lemma dispatch_written_through st batch :
  written_through st -> written_through (dispatch st batch).
Proof.
  intros [Hs Hn]. unfold dispatch, run_effects, written_through.
  set (st' := fold_left App.apply batch st).
  destruct (with_storage_fields st'
    (if String.eqb (notes st) (notes st')
     then if Nat.eqb (settings_ref st) (settings_ref st') then localStorage st'
          else persist_settings (settings st') (localStorage st')
     else persist_notes (notes st')
            (if Nat.eqb (settings_ref st) (settings_ref st') then localStorage st'
             else persist_settings (settings st') (localStorage st'))))
    as (-> & -> & ->).
  assert (Hls : localStorage st' = localStorage st) by apply fold_apply_localStorage.
  assert (Hset : (if Nat.eqb (settings_ref st) (settings_ref st') then localStorage st'
                  else persist_settings (settings st') (localStorage st'))
                 !! "dashboardSettings"
                 = Some (storage_text (Json.stringify (settings st')))).
  { destruct (Nat.eqb (settings_ref st) (settings_ref st')) eqn:E.
    - apply Nat.eqb_eq in E. rewrite Hls.
      unfold st'. rewrite fold_apply_same_ref by (symmetry; exact E). exact Hs.
    - apply lookup_insert_eq. }
  assert (Hnot : String.eqb (notes st) (notes st') = true ->
                 (if Nat.eqb (settings_ref st) (settings_ref st') then localStorage st'
                  else persist_settings (settings st') (localStorage st'))
                 !! "dashboardNotes" = Some (notes st')).
  { intros E. apply String.eqb_eq in E. rewrite <- E, Hls.
    destruct (Nat.eqb _ _); [exact Hn|].
    unfold persist_settings. rewrite lookup_insert_ne by discriminate. exact Hn. }
  destruct (String.eqb (notes st) (notes st')) eqn:E; split; auto.
  - unfold persist_notes. rewrite lookup_insert_ne by discriminate. exact Hset.
  - apply lookup_insert_eq.
Qed.

Lemma reachable_written_through st : reachable st -> written_through st.
Proof.
  induction 1 as [ls st Hm | st batch _ IH].
  - eapply mount_written_through; eauto.
  - now apply dispatch_written_through.
Qed.

Lemma mount_empty : mount ∅ = Some (Normal fresh_state).
Proof. reflexivity. Qed.

Lemma reachable_fresh : reachable fresh_state.
Proof. apply (reachable_mount ∅). exact mount_empty. Qed.

(** C3, as amended.  After every batch of state updates (any settings
    mutation among them) the store holds the JSON serialisation of the
    current settings under the key [dashboardSettings] and the current
    notes under the key [dashboardNotes]; for a change made in the
    settings panel the serialised value is the previous record with the
    one field replaced. *)
Theorem write_through_dashboard_keys (st : State) (batch : list event) :
  reachable st ->
  (localStorage (dispatch st batch) !! "dashboardSettings"
     = Some (storage_text (Json.stringify (settings (dispatch st batch)))) /\
   localStorage (dispatch st batch) !! "dashboardNotes" = Some (notes (dispatch st batch))) /\
  (forall key x,
     localStorage (dispatch st (change_setting st key x)) !! "dashboardSettings"
       = Some (storage_text (Json.stringify (spread_with (settings st) key x)))).
Proof.
  intros Hst. split.
  - apply (dispatch_written_through st batch). now apply reachable_written_through.
  - intros key x.
    destruct (dispatch_written_through st (change_setting st key x)) as [-> _].
    + now apply reachable_written_through.
    + f_equal. f_equal. f_equal. unfold dispatch, run_effects, change_setting. cbn.
      destruct st; cbn. reflexivity.
Qed.

Lemma write_through_dashboard_keys_witness :
  reachable fresh_state /\
  localStorage renamed_state !! "dashboardSettings"
    = Some (storage_text (Json.stringify (settings renamed_state))) /\
  localStorage renamed_state !! "dashboardNotes" = Some (notes renamed_state) /\
  localStorage renamed_state !! "dashboardSettings"
    = Some (storage_text (Json.stringify (spread_with (settings fresh_state) "userName" (VStr "Ada")))).
Proof.
  split; [exact reachable_fresh|].
  destruct (write_through_dashboard_keys fresh_state
              (change_setting fresh_state "userName" (VStr "Ada")) reachable_fresh)
    as [[Hs Hn] Hk].
  split; [exact Hs|]. split; [exact Hn|]. exact (Hk "userName" (VStr "Ada")).
Defined.

(** C3 as stated fails: after a settings mutation nothing is stored under
    the keys [settings] and [notes]. *)
Lemma nothing_under_settings_and_notes :
  reachable renamed_state /\
  get (settings renamed_state) "userName" = Normal (VStr "Ada") /\
  localStorage renamed_state !! "settings" = None /\
  localStorage renamed_state !! "notes" = None /\
  localStorage renamed_state !! "settings"
    <> Some (storage_text (Json.stringify (settings renamed_state))).
Proof.
  split; [apply reachable_dispatch, reachable_fresh|].
  split; [reflexivity|].
  assert (H : localStorage renamed_state !! "settings" = None) by reflexivity.
  split; [exact H|]. split; [reflexivity|]. rewrite H. discriminate.
Qed.

(** ** Loading the settings *)

(** C2, as amended.  The loader returns the default record when nothing is
    stored under the settings key or the stored text is empty; any other
    stored text is handed to [JSON.parse], whose outcome (a value of any
    shape, or the SyntaxError) is the loader's. *)
Theorem load_settings_default_or_parse (ls : gmap string string) :
  (ls !! "dashboardSettings" = None \/ ls !! "dashboardSettings" = Some "" ->
   load_settings ls = Some (Normal DEFAULT_SETTINGS)) /\
  (forall saved, ls !! "dashboardSettings" = Some saved -> saved <> "" ->
   load_settings ls = Json.parse saved).
Proof.
  unfold load_settings. split.
  - intros [-> | ->]; reflexivity.
  - intros saved -> Hne. cbn. destruct (String.eqb_spec saved ""); [contradiction | reflexivity].
Qed.

Lemma load_settings_default_or_parse_witness :
  load_settings ∅ = Some (Normal DEFAULT_SETTINGS) /\
  load_settings {["dashboardSettings" := "{}"]} = Json.parse "{}".
Proof.
  split.
  - apply (proj1 (load_settings_default_or_parse ∅)). left. reflexivity.
  - apply (proj2 (load_settings_default_or_parse {["dashboardSettings" := "{}"]}) "{}").
    + reflexivity.
    + discriminate.
Defined.

(** C2 as stated fails: a stored text that is not JSON makes the loader
    throw, so that the component does not mount, and a stored text that
    is JSON of another shape is returned as it is. *)
Lemma corrupted_settings_not_defaulted :
  load_settings {["dashboardSettings" := "{"]} = Some (Throw "SyntaxError") /\
  mount {["dashboardSettings" := "{"]} = Some (Throw "SyntaxError") /\
  load_settings {["dashboardSettings" := "[]"]} = Some (Normal (VArr [])) /\
  load_settings {["dashboardSettings" := "[]"]} <> Some (Normal DEFAULT_SETTINGS).
Proof.
  split; [reflexivity|]. split; [reflexivity|].
  assert (H : load_settings {["dashboardSettings" := "[]"]} = Some (Normal (VArr [])))
    by reflexivity.
  split; [exact H|]. rewrite H. discriminate.
Qed.

(** ** The chat wrapper, one turn at a time *)

Lemma finally_normal r isSearch attempt :
  attempt_finally r isSearch attempt = (trace (attempt_finally r isSearch attempt), Normal tt).
Proof. unfold attempt_finally. destruct (_ || _); reflexivity. Qed.

Ltac run_turn Hkey Hfetch :=
  unfold turn, attempt_body; rewrite Hkey, Hfetch;
  match goal with
  | |- context [attempt_finally ?r ?s ?a] => rewrite (finally_normal r s a)
  end; cbn.

(** A 429 with attempts left: wait, then go round again. *)
Lemma turn_retry r fetch random payload isSearch attempt key json :
  get (settings r) "pollinationsApiKey" = Normal key ->
  fetch attempt = FetchResolves 429 json ->
  attempt < maxRetries - 1 ->
  turn r fetch random payload isSearch attempt =
    retry_turn r random payload isSearch attempt key.
Proof.
  intros Hkey Hfetch Hlt. apply Z.ltb_lt in Hlt. run_turn Hkey Hfetch.
  rewrite Hlt. reflexivity.
Qed.

Lemma turn_401 r fetch random payload isSearch attempt key json :
  get (settings r) "pollinationsApiKey" = Normal key ->
  fetch attempt = FetchResolves 401 json ->
  turn r fetch random payload isSearch attempt =
    final_turn r payload isSearch attempt key (VStr (ai_error authentication_failed)).
Proof. intros Hkey Hfetch. run_turn Hkey Hfetch. reflexivity. Qed.

Lemma turn_failed r fetch random payload isSearch attempt key status json :
  get (settings r) "pollinationsApiKey" = Normal key ->
  fetch attempt = FetchResolves status json ->
  ok status = false ->
  status <> 401 ->
  status <> 429 \/ maxRetries - 1 <= attempt ->
  turn r fetch random payload isSearch attempt =
    final_turn r payload isSearch attempt key (VStr (ai_error (api_call_failed status))).
Proof.
  intros Hkey Hfetch Hok H401 H429. run_turn Hkey Hfetch. rewrite Hok. cbn.
  destruct (Z.eqb_spec status 401); [contradiction|].
  replace ((status =? 429) && (attempt <? maxRetries - 1)) with false; [reflexivity|].
  symmetry. apply andb_false_iff. destruct H429 as [H|H].
  - left. now apply Z.eqb_neq.
  - right. now apply Z.ltb_ge.
Qed.

Lemma turn_rejected r fetch random payload isSearch attempt key message :
  get (settings r) "pollinationsApiKey" = Normal key ->
  fetch attempt = FetchRejects message ->
  turn r fetch random payload isSearch attempt =
    final_turn r payload isSearch attempt key (VStr (ai_error message)).
Proof. intros Hkey Hfetch. run_turn Hkey Hfetch. reflexivity. Qed.

Lemma turn_answered r fetch random payload isSearch attempt key status data text :
  get (settings r) "pollinationsApiKey" = Normal key ->
  fetch attempt = FetchResolves status (JsonResolves data) ->
  ok status = true ->
  response_text data = Normal text ->
  turn r fetch random payload isSearch attempt = final_turn r payload isSearch attempt key text.
Proof.
  intros Hkey Hfetch Hok Htext. run_turn Hkey Hfetch. rewrite Hok, Htext. reflexivity.
Qed.

Lemma turn_unreadable r fetch random payload isSearch attempt key status json message :
  get (settings r) "pollinationsApiKey" = Normal key ->
  fetch attempt = FetchResolves status json ->
  ok status = true ->
  json = JsonRejects message
    \/ (exists data, json = JsonResolves data /\ response_text data = Throw message) ->
  turn r fetch random payload isSearch attempt =
    final_turn r payload isSearch attempt key (VStr (ai_error message)).
Proof.
  intros Hkey Hfetch Hok [-> | (data & -> & Htext)]; run_turn Hkey Hfetch; rewrite Hok;
    cbn; rewrite ?Htext; reflexivity.
Qed.

Lemma get_optional_normal v key : exists x, get_optional v key = Normal x.
Proof.
  destruct v; cbn; eauto.
  - destruct (String.eqb key "length"); eauto.
    destruct (array_index key); eauto. destruct (String.get _ _); eauto.
  - destruct (String.eqb key "length"); eauto. destruct (array_index key); eauto.
Qed.

(** Extracting the text throws only when [data] is [undefined] or [null]. *)
Lemma response_text_cases data :
  (exists text, response_text data = Normal text) \/
  (exists message, response_text data = Throw message).
Proof.
  unfold response_text. destruct (get data "choices") as [choices|message] eqn:E.
  - left. cbn.
    destruct (get_optional_normal choices "0") as [choice ->]. cbn.
    destruct (get_optional_normal choice "message") as [message ->]. cbn.
    destruct (get_optional_normal message "content") as [content ->]. cbn. eauto.
  - right. cbn. eauto.
Qed.

(** Every turn either is a retry or ends the call with one response. *)
Lemma turn_cases r fetch random payload isSearch attempt key :
  get (settings r) "pollinationsApiKey" = Normal key ->
  (attempt < maxRetries - 1 /\
   turn r fetch random payload isSearch attempt =
     retry_turn r random payload isSearch attempt key) \/
  (exists text,
     turn r fetch random payload isSearch attempt = final_turn r payload isSearch attempt key text).
Proof.
  intros Hkey. destruct (fetch attempt) as [message|status json] eqn:Hfetch.
  - right. eexists. eapply turn_rejected; eauto.
  - destruct (ok status) eqn:Hok.
    + right. destruct json as [message|data].
      * eexists. eapply turn_unreadable; eauto.
      * destruct (response_text_cases data) as [[text Ht]|[message Ht]]; eexists.
        -- eapply turn_answered; eauto.
        -- eapply turn_unreadable; eauto.
    + destruct (Z.eq_dec status 401) as [->|H401].
      * right. eexists. eapply turn_401; eauto.
      * destruct (Z.eq_dec status 429) as [->|H429].
        -- destruct (Z_lt_le_dec attempt (maxRetries - 1)).
           ++ left. split; [assumption|]. eapply turn_retry; eauto.
           ++ right. eexists. eapply turn_failed; eauto.
        -- right. eexists. eapply turn_failed; eauto.
Qed.

(** ** The retry loop *)

Lemma attempts_final r fetch random payload isSearch remaining attempt key text :
  turn r fetch random payload isSearch attempt = final_turn r payload isSearch attempt key text ->
  attempts r fetch random payload isSearch (S remaining) attempt =
    ([Fetch (post_request apiUrl key payload); set_response isSearch text]
       ++ trace (attempt_finally r isSearch attempt),
     Normal text).
Proof.
  intros Hturn. cbn [attempts]. rewrite Hturn. unfold final_turn. cbn.
  now rewrite app_nil_r.
Qed.

Lemma attempts_retry r fetch random payload isSearch remaining attempt key :
  turn r fetch random payload isSearch attempt = retry_turn r random payload isSearch attempt key ->
  attempts r fetch random payload isSearch (S remaining) attempt =
    ([Fetch (post_request apiUrl key payload);
      WarnRetrying (backoff_delay attempt (random attempt));
      Wait (backoff_delay attempt (random attempt))]
       ++ trace (attempt_finally r isSearch attempt)
       ++ trace (attempts r fetch random payload isSearch remaining (attempt + 1)),
     result (attempts r fetch random payload isSearch remaining (attempt + 1))).
Proof.
  intros Hturn. cbn [attempts]. rewrite Hturn. unfold retry_turn. cbn.
  destruct (attempts r fetch random payload isSearch remaining (attempt + 1)) as [t c].
  reflexivity.
Qed.

Lemma call_with_key r fetch random prompt model isSearch key :
  get (settings r) "pollinationsApiKey" = Normal key ->
  truthy key = true ->
  callPollinationsChatAPI r fetch random prompt model isSearch =
    (set_busy isSearch true
       :: trace (attempts r fetch random (chat_payload prompt model) isSearch 3 0),
     result (attempts r fetch random (chat_payload prompt model) isSearch 3 0)).
Proof.
  intros Hkey Htruthy. unfold callPollinationsChatAPI.
  change (Z.to_nat (maxRetries - 0)) with 3%nat.
  generalize (attempts r fetch random (chat_payload prompt model) isSearch 3 0).
  intros [t c]. rewrite Hkey. cbn. rewrite Htruthy. reflexivity.
Qed.

Lemma call_without_key r fetch random prompt model isSearch key :
  get (settings r) "pollinationsApiKey" = Normal key ->
  truthy key = false ->
  callPollinationsChatAPI r fetch random prompt model isSearch =
    ([set_response isSearch (VStr key_not_set)], Normal VUndefined).
Proof.
  intros Hkey Htruthy. unfold callPollinationsChatAPI. rewrite Hkey. cbn.
  now rewrite Htruthy.
Qed.

(** ** What the [finally] block shows *)

Lemma finally_trace r isSearch attempt :
  trace (attempt_finally r isSearch attempt) =
    if (attempt =? maxRetries - 1) || (negb (isAIChatting r) && negb (isAISearching r))
    then [set_busy isSearch false] else [].
Proof. unfold attempt_finally. now destruct (_ || _). Qed.

Lemma finally_quiet r isSearch attempt :
  requests (trace (attempt_finally r isSearch attempt)) = [] /\
  waits (trace (attempt_finally r isSearch attempt)) = [] /\
  responses isSearch (trace (attempt_finally r isSearch attempt)) = [].
Proof.
  rewrite finally_trace. destruct (_ || _), isSearch; cbn; auto.
Qed.

Lemma requests_app t1 t2 : requests (t1 ++ t2) = requests t1 ++ requests t2.
Proof. apply omap_app. Qed.

Lemma waits_app t1 t2 : waits (t1 ++ t2) = waits t1 ++ waits t2.
Proof. apply omap_app. Qed.

Lemma responses_app isSearch t1 t2 :
  responses isSearch (t1 ++ t2) = responses isSearch t1 ++ responses isSearch t2.
Proof. apply omap_app. Qed.

Lemma responses_set_response isSearch v : responses isSearch [set_response isSearch v] = [v].
Proof. now destruct isSearch. Qed.

Lemma responses_set_busy isSearch b : responses isSearch [set_busy isSearch b] = [].
Proof. now destruct isSearch. Qed.

(** What a call that ends in its first turn shows. *)
Lemma first_turn_final r fetch random prompt model isSearch key text :
  get (settings r) "pollinationsApiKey" = Normal key ->
  truthy key = true ->
  turn r fetch random (chat_payload prompt model) isSearch 0
    = final_turn r (chat_payload prompt model) isSearch 0 key text ->
  requests (trace (callPollinationsChatAPI r fetch random prompt model isSearch))
    = [post_request apiUrl key (chat_payload prompt model)] /\
  waits (trace (callPollinationsChatAPI r fetch random prompt model isSearch)) = [] /\
  responses isSearch (trace (callPollinationsChatAPI r fetch random prompt model isSearch))
    = [text] /\
  result (callPollinationsChatAPI r fetch random prompt model isSearch) = Normal text.
Proof.
  intros Hkey Htruthy Hturn.
  rewrite (call_with_key _ _ _ _ _ _ _ Hkey Htruthy).
  rewrite (attempts_final _ _ _ _ _ _ _ _ _ Hturn).
  destruct (finally_quiet r isSearch 0) as (Hr & Hw & Hs).
  cbn [trace result fst snd].
  change (set_busy isSearch true :: ?t) with ([set_busy isSearch true] ++ t).
  rewrite !requests_app, !waits_app, !responses_app, Hr, Hw, Hs.
  rewrite responses_set_busy.
  change ([Fetch ?q; set_response isSearch text]) with ([Fetch q] ++ [set_response isSearch text]).
  rewrite responses_app, responses_set_response.
  destruct isSearch; cbn; auto.
Qed.

(** ** No credential *)

(** C5.  With no Pollinations key in the settings, a call of the wrapper
    sets the widget's response to the literal error text and does nothing
    else: no request is sent and no busy flag is touched.  A submission
    (a submit with a prompt that is not blank) therefore sends no request,
    leaves both busy flags as they were, and ends with the widget's
    response field holding that text. *)
Theorem no_key_short_circuit (r : State) (fetch : Z -> fetch_outcome) (random : Z -> Q)
    (key : value) :
  get (settings r) "pollinationsApiKey" = Normal key ->
  truthy key = false ->
  (forall prompt model isSearch,
     callPollinationsChatAPI r fetch random prompt model isSearch =
       ([set_response isSearch (VStr "Error: Pollinations API Key not set in settings.")],
        Normal VUndefined)) /\
  (trim (aiChatQuery r) <> "" ->
   requests (trace (handleAIChatSubmit r fetch random)) = [] /\
   busy_updates false (trace (handleAIChatSubmit r fetch random)) = [] /\
   busy_updates true (trace (handleAIChatSubmit r fetch random)) = [] /\
   forall st,
     aiChatResponse (fold_left App.apply (trace (handleAIChatSubmit r fetch random)) st)
       = VStr "Error: Pollinations API Key not set in settings." /\
     isAIChatting (fold_left App.apply (trace (handleAIChatSubmit r fetch random)) st)
       = isAIChatting st) /\
  (trim (aiSearchQuery r) <> "" ->
   requests (trace (handleAISearchSubmit r fetch random)) = [] /\
   busy_updates false (trace (handleAISearchSubmit r fetch random)) = [] /\
   busy_updates true (trace (handleAISearchSubmit r fetch random)) = [] /\
   forall st,
     aiSearchResponse (fold_left App.apply (trace (handleAISearchSubmit r fetch random)) st)
       = VStr "Error: Pollinations API Key not set in settings." /\
     isAISearching (fold_left App.apply (trace (handleAISearchSubmit r fetch random)) st)
       = isAISearching st).
Proof.
  intros Hkey Hfalsy.
  assert (Hcall : forall prompt model isSearch,
             callPollinationsChatAPI r fetch random prompt model isSearch =
               ([set_response isSearch (VStr key_not_set)], Normal VUndefined)).
  { intros. now apply call_without_key with key. }
  split; [exact Hcall|]. split.
  - intros Hprompt. unfold handleAIChatSubmit. cbn [truthy].
    destruct (String.eqb_spec (trim (aiChatQuery r)) ""); [contradiction|].
    cbn [negb]. rewrite Hcall. cbn.
    do 3 (split; [reflexivity|]). intros st. destruct st. split; reflexivity.
  - intros Hprompt. unfold handleAISearchSubmit. cbn [truthy].
    destruct (String.eqb_spec (trim (aiSearchQuery r)) ""); [contradiction|].
    destruct (get_again _ _ _ "aiSearchModel" Hkey) as [model ->].
    cbn [negb lift emit mbind M_bind]. rewrite Hcall. cbn.
    do 3 (split; [reflexivity|]). intros st. destruct st. split; reflexivity.
Qed.

Lemma no_key_short_circuit_witness :
  get (settings typed_state) "pollinationsApiKey" = Normal (VStr "") /\
  callPollinationsChatAPI typed_state twice_limited half "hello" (VStr "openai") false =
    ([SetAiChatResponse (VStr "Error: Pollinations API Key not set in settings.")],
     Normal VUndefined) /\
  requests (trace (handleAIChatSubmit typed_state twice_limited half)) = [] /\
  busy_updates true (trace (handleAISearchSubmit typed_state twice_limited half)) = [].
Proof.
  assert (Hkey : get (settings typed_state) "pollinationsApiKey" = Normal (VStr ""))
    by reflexivity.
  destruct (no_key_short_circuit typed_state twice_limited half (VStr "") Hkey eq_refl)
    as (Hcall & Hchat & Hsearch).
  split; [exact Hkey|]. split; [exact (Hcall "hello" (VStr "openai") false)|].
  split.
  - apply Hchat. discriminate.
  - apply Hsearch. discriminate.
Defined.

(** ** Authentication failure *)

(** C6.  When the first request is answered 401, the call sends that one
    request, waits for nothing, and produces the authentication error
    text, as the widget's response and as its own result. *)
Theorem unauthorized_is_not_retried (r : State) (fetch : Z -> fetch_outcome) (random : Z -> Q)
    (prompt : string) (model : value) (isSearch : bool) (key : value) (json : json_outcome) :
  get (settings r) "pollinationsApiKey" = Normal key ->
  truthy key = true ->
  fetch 0 = FetchResolves 401 json ->
  length (requests (trace (callPollinationsChatAPI r fetch random prompt model isSearch)))
    = 1%nat /\
  waits (trace (callPollinationsChatAPI r fetch random prompt model isSearch)) = [] /\
  responses isSearch (trace (callPollinationsChatAPI r fetch random prompt model isSearch))
    = [VStr "AI Error: Authentication failed. Check your API key."] /\
  result (callPollinationsChatAPI r fetch random prompt model isSearch)
    = Normal (VStr "AI Error: Authentication failed. Check your API key.").
Proof.
  intros Hkey Htruthy Hfetch.
  destruct (first_turn_final r fetch random prompt model isSearch key
              (VStr (ai_error authentication_failed)) Hkey Htruthy)
    as (Hr & Hw & Hs & Hres).
  - eapply turn_401; eauto.
  - rewrite Hr, Hw, Hs, Hres. auto.
Qed.

Lemma unauthorized_is_not_retried_witness :
  length (requests (trace (callPollinationsChatAPI keyed_state
            (fun _ => FetchResolves 401 (JsonRejects "")) half "hello" (VStr "openai") false)))
    = 1%nat /\
  result (callPollinationsChatAPI keyed_state
            (fun _ => FetchResolves 401 (JsonRejects "")) half "hello" (VStr "openai") false)
    = Normal (VStr "AI Error: Authentication failed. Check your API key.").
Proof.
  destruct (unauthorized_is_not_retried keyed_state
              (fun _ => FetchResolves 401 (JsonRejects "")) half "hello" (VStr "openai") false
              (VStr "sk-test") (JsonRejects "") eq_refl eq_refl eq_refl)
    as (Hr & _ & _ & Hres).
  split; [exact Hr | exact Hres].
Defined.

(** ** Rate limiting *)

Lemma nearest_even_between num den A B :
  0 < den -> A * den <= num -> num <= B * den ->
  A <= nearest_even num den <= B.
Proof.
  intros Hden HA HB. unfold nearest_even.
  pose proof (Z.div_mod num den ltac:(lia)) as Hdm.
  pose proof (Z.mod_pos_bound num den Hden) as Hrem.
  assert (HAd : A <= num / den) by (apply Z.div_le_lower_bound; lia).
  assert (HBd : num / den <= B) by (apply Z.div_le_upper_bound; lia).
  assert (Hup : 0 < num mod den -> num / den + 1 <= B) by nia.
  destruct (Z.compare_spec (2 * (num mod den)) den) as [E|E|E].
  - destruct (Z.even (num / den)); [lia|]. split; [lia|]. apply Hup. lia.
  - lia.
  - split; [lia|]. apply Hup. lia.
Qed.

Lemma floor_log2_small p q :
  0 < p -> 0 < q -> p < 2 ^ 53 * q -> floor_log2 p q <= 52.
Proof.
  intros Hp Hq Hlt. unfold floor_log2.
  set (l := Z.log2 p - Z.log2 q).
  pose proof (Z.log2_spec p Hp) as [Hp1 Hp2].
  pose proof (Z.log2_spec q Hq) as [Hq1 Hq2].
  pose proof (Z.log2_nonneg p). pose proof (Z.log2_nonneg q).
  destruct (Z_le_gt_dec l 52) as [Hl|Hl].
  { destruct (if 0 <=? l then _ else _); lia. }
  assert (Hnonneg : (0 <=? l) = true) by (apply Z.leb_le; lia). rewrite Hnonneg.
  destruct (2 ^ l * q <=? p) eqn:E.
  - apply Z.leb_le in E.
    assert (Hpow : 2 ^ 53 <= 2 ^ l) by (apply Z.pow_le_mono_r; lia). nia.
  - destruct (Z_le_gt_dec l 53) as [Hl'|Hl']; [lia|]. exfalso.
    assert (Hlog : Z.log2 q + 54 <= Z.log2 p) by (unfold l in Hl'; lia).
    assert (Hpow : 2 ^ (Z.log2 q + 54) <= 2 ^ Z.log2 p) by (apply Z.pow_le_mono_r; lia).
    rewrite Z.pow_add_r in Hpow by lia.
    replace (Z.succ (Z.log2 q)) with (Z.log2 q + 1) in Hq2 by lia.
    rewrite Z.pow_add_r in Hq2 by lia.
    change (2 ^ 54) with (2 ^ 53 * 2) in Hpow. change (2 ^ 1) with 2 in Hq2.
    assert (0 < 2 ^ Z.log2 q) by (apply Z.pow_pos_nonneg; lia).
    nia.
Qed.

(** Rounding keeps a number between the integers it lies between. *)
Lemma round64_between (a b : Z) (x : Q) :
  0 <= a -> b < 2 ^ 53 ->
  (inject_Z a <= x)%Q -> (x <= inject_Z b)%Q ->
  (inject_Z a <= round64 x)%Q /\ (round64 x <= inject_Z b)%Q.
Proof.
  intros Ha Hb Hax Hxb. destruct x as [num den].
  unfold Qle in Hax, Hxb. cbn in Hax, Hxb. unfold round64. cbn [Qnum Qden].
  destruct num as [|p|p]; [unfold Qle; cbn; lia | | lia].
  unfold round64_positive.
  assert (He : Z.max (floor_log2 (Z.pos p) (Z.pos den) - 52) (-1074) <= 0).
  { pose proof (floor_log2_small (Z.pos p) (Z.pos den) ltac:(lia) ltac:(lia) ltac:(nia)). lia. }
  set (e := Z.max _ _) in *.
  destruct (0 <=? e) eqn:E.
  - apply Z.leb_le in E. assert (e = 0) as -> by lia.
    change (2 ^ 0) with 1. rewrite !Z.mul_1_r.
    pose proof (nearest_even_between (Z.pos p) (Z.pos den) a b ltac:(lia) ltac:(lia) ltac:(lia)).
    unfold Qle. cbn. lia.
  - apply Z.leb_gt in E.
    assert (Hs : 0 < 2 ^ (- e)) by (apply Z.pow_pos_nonneg; lia).
    pose proof (nearest_even_between (Z.pos p * 2 ^ (- e)) (Z.pos den)
                  (a * 2 ^ (- e)) (b * 2 ^ (- e)) ltac:(lia) ltac:(nia) ltac:(nia)) as Hn.
    rewrite Qred_correct. unfold Qle. cbn [Qnum Qden inject_Z].
    rewrite Z2Pos.id by exact Hs. lia.
Qed.

(** The delays before the second and the third attempt. *)
Lemma backoff_delay_bounds (rnd0 rnd1 : Q) :
  (0 <= rnd0)%Q /\ (rnd0 < 1)%Q ->
  (0 <= rnd1)%Q /\ (rnd1 < 1)%Q ->
  (1000 <= backoff_delay 0 rnd0)%Q /\ (backoff_delay 0 rnd0 <= 2000)%Q /\
  (2000 <= backoff_delay 1 rnd1)%Q /\ (backoff_delay 1 rnd1 <= 3000)%Q /\
  (3000 <= backoff_delay 0 rnd0 + backoff_delay 1 rnd1)%Q /\
  (backoff_delay 0 rnd0 + backoff_delay 1 rnd1 <= 5000)%Q.
Proof.
  intros [H0 H0'] [H1 H1'].
  assert (Hjitter : forall rnd, (0 <= rnd)%Q -> (rnd < 1)%Q ->
            (0 <= round64 (rnd * 1000))%Q /\ (round64 (rnd * 1000) <= 1000)%Q).
  { intros rnd Hr Hr'. apply (round64_between 0 1000); [lia | reflexivity | |];
      change (inject_Z 0) with 0%Q; change (inject_Z 1000) with 1000%Q; lra. }
  destruct (Hjitter rnd0 H0 H0') as [J0 J0']. destruct (Hjitter rnd1 H1 H1') as [J1 J1'].
  unfold backoff_delay.
  change (round64 (2 ^ 0 * 1000)) with 1000%Q. change (round64 (2 ^ 1 * 1000)) with 2000%Q.
  destruct (round64_between 1000 2000 (1000 + round64 (rnd0 * 1000))) as [A0 B0];
    [lia | reflexivity | change (inject_Z 1000) with 1000%Q; lra
    | change (inject_Z 2000) with 2000%Q; lra |].
  destruct (round64_between 2000 3000 (2000 + round64 (rnd1 * 1000))) as [A1 B1];
    [lia | reflexivity | change (inject_Z 2000) with 2000%Q; lra
    | change (inject_Z 3000) with 3000%Q; lra |].
  change (inject_Z 1000) with 1000%Q in *. change (inject_Z 2000) with 2000%Q in *.
  change (inject_Z 3000) with 3000%Q in *.
  repeat split; lra.
Qed.

(** What a call shows whose first two requests are answered 429 and whose
    third turn ends it. *)
Lemma third_turn_final r fetch random prompt model isSearch key j0 j1 text :
  get (settings r) "pollinationsApiKey" = Normal key ->
  truthy key = true ->
  fetch 0 = FetchResolves 429 j0 ->
  fetch 1 = FetchResolves 429 j1 ->
  turn r fetch random (chat_payload prompt model) isSearch 2
    = final_turn r (chat_payload prompt model) isSearch 2 key text ->
  length (requests (trace (callPollinationsChatAPI r fetch random prompt model isSearch)))
    = 3%nat /\
  waits (trace (callPollinationsChatAPI r fetch random prompt model isSearch))
    = [backoff_delay 0 (random 0); backoff_delay 1 (random 1)] /\
  responses isSearch (trace (callPollinationsChatAPI r fetch random prompt model isSearch))
    = [text] /\
  result (callPollinationsChatAPI r fetch random prompt model isSearch) = Normal text.
Proof.
  intros Hkey Htruthy H0 H1 Hturn.
  rewrite (call_with_key _ _ _ _ _ _ _ Hkey Htruthy).
  rewrite (attempts_retry r fetch random _ isSearch 2 0 key)
    by (eapply turn_retry; eauto; reflexivity).
  rewrite (attempts_retry r fetch random _ isSearch 1 (0 + 1) key)
    by (eapply turn_retry; eauto; reflexivity).
  rewrite (attempts_final _ _ _ _ _ _ _ _ _ Hturn).
  cbn [trace result fst snd].
  destruct (finally_quiet r isSearch 0) as (Hr0 & Hw0 & Hs0).
  destruct (finally_quiet r isSearch (0 + 1)) as (Hr1 & Hw1 & Hs1).
  destruct (finally_quiet r isSearch 2) as (Hr2 & Hw2 & Hs2).
  repeat match goal with
         | |- context [?e :: ?t ++ ?u] => change (e :: t ++ u) with ((e :: t) ++ u)
         end.
  change (set_busy isSearch true :: ?t) with ([set_busy isSearch true] ++ t).
  rewrite !requests_app, !waits_app, !responses_app.
  rewrite Hr0, Hw0, Hs0, Hr1, Hw1, Hs1, Hr2, Hw2, Hs2.
  rewrite responses_set_busy.
  change ([Fetch ?q; set_response isSearch text]) with ([Fetch q] ++ [set_response isSearch text]).
  rewrite responses_app, responses_set_response.
  destruct isSearch; cbn; auto.
Qed.

(** C4, as amended.  Against an endpoint that answers 429 twice and then
    200, the call sends exactly three requests and produces the text of
    the third answer.  After the first and after the second request it
    waits the binary64 value of [2^attempt * 1000 + Math.random() * 1000]
    ms: between 1000 and 2000 ms and between 2000 and 3000 ms, bounds
    included, so at least 3000 ms in all.  When the third answer is 429 as
    well, the call has sent three requests and ends with the text it has
    for any failing status, carrying the number 429. *)
Theorem two_backoffs_then_answer (r : State) (fetch : Z -> fetch_outcome) (random : Z -> Q)
    (prompt : string) (model : value) (isSearch : bool) (key : value) (j0 j1 : json_outcome) :
  get (settings r) "pollinationsApiKey" = Normal key ->
  truthy key = true ->
  fetch 0 = FetchResolves 429 j0 ->
  fetch 1 = FetchResolves 429 j1 ->
  (0 <= random 0%Z)%Q /\ (random 0%Z < 1)%Q ->
  (0 <= random 1%Z)%Q /\ (random 1%Z < 1)%Q ->
  (forall data text,
     fetch 2 = FetchResolves 200 (JsonResolves data) ->
     response_text data = Normal text ->
     length (requests (trace (callPollinationsChatAPI r fetch random prompt model isSearch)))
       = 3%nat /\
     waits (trace (callPollinationsChatAPI r fetch random prompt model isSearch))
       = [backoff_delay 0 (random 0); backoff_delay 1 (random 1)] /\
     responses isSearch (trace (callPollinationsChatAPI r fetch random prompt model isSearch))
       = [text] /\
     result (callPollinationsChatAPI r fetch random prompt model isSearch) = Normal text) /\
  (forall j2,
     fetch 2 = FetchResolves 429 j2 ->
     length (requests (trace (callPollinationsChatAPI r fetch random prompt model isSearch)))
       = 3%nat /\
     waits (trace (callPollinationsChatAPI r fetch random prompt model isSearch))
       = [backoff_delay 0 (random 0); backoff_delay 1 (random 1)] /\
     responses isSearch (trace (callPollinationsChatAPI r fetch random prompt model isSearch))
       = [VStr "AI Error: API call failed with status: 429"] /\
     result (callPollinationsChatAPI r fetch random prompt model isSearch)
       = Normal (VStr "AI Error: API call failed with status: 429")) /\
  ((1000 <= backoff_delay 0 (random 0%Z))%Q /\ (backoff_delay 0 (random 0%Z) <= 2000)%Q /\
   (2000 <= backoff_delay 1 (random 1%Z))%Q /\ (backoff_delay 1 (random 1%Z) <= 3000)%Q /\
   (3000 <= backoff_delay 0 (random 0%Z) + backoff_delay 1 (random 1%Z))%Q /\
   (backoff_delay 0 (random 0%Z) + backoff_delay 1 (random 1%Z) <= 5000)%Q).
Proof.
  intros Hkey Htruthy H0 H1 Hrnd0 Hrnd1. split; [|split].
  - intros data text H2 Htext.
    apply (third_turn_final r fetch random prompt model isSearch key j0 j1 text); auto.
    eapply turn_answered; eauto.
  - intros j2 H2.
    apply (third_turn_final r fetch random prompt model isSearch key j0 j1
             (VStr (ai_error (api_call_failed 429)))); auto.
    eapply turn_failed; eauto; try discriminate.
    right. reflexivity.
  - now apply backoff_delay_bounds.
Qed.

Lemma two_backoffs_then_answer_witness :
  length (requests (trace (callPollinationsChatAPI keyed_state twice_limited half
                             "hello" (VStr "openai") false))) = 3%nat /\
  waits (trace (callPollinationsChatAPI keyed_state twice_limited half
                  "hello" (VStr "openai") false))
    = [backoff_delay 0 (1 # 2); backoff_delay 1 (1 # 2)] /\
  result (callPollinationsChatAPI keyed_state twice_limited half "hello" (VStr "openai") false)
    = Normal (VStr "hi") /\
  (3000 <= backoff_delay 0 (1 # 2) + backoff_delay 1 (1 # 2))%Q.
Proof.
  destruct (two_backoffs_then_answer keyed_state twice_limited half "hello" (VStr "openai")
              false (VStr "sk-test") (JsonRejects "") (JsonRejects "")
              eq_refl eq_refl eq_refl eq_refl)
    as (Hanswer & _ & Hdelay).
  - split; [now cbv | reflexivity].
  - split; [now cbv | reflexivity].
  - destruct (Hanswer (completion_of "hi") (VStr "hi") eq_refl eq_refl)
      as (Hr & Hw & _ & Hres).
    split; [exact Hr|]. split; [exact Hw|]. split; [exact Hres|].
    apply Hdelay.
Defined.

(** C4 as stated fails in its last clause.  With the attempts exhausted on
    429 the call ends with [AI Error: API call failed with status: 429]:
    the text the wrapper builds for every failing status that is neither
    401 nor a retried 429, as for a 500, with the status number in it.
    The wrapper has no text of its own for rate limiting. *)
Lemma exhausted_429_is_generic_failure :
  result (callPollinationsChatAPI keyed_state (fun _ => rate_limited) half
            "hello" (VStr "openai") false)
    = Normal (VStr (ai_error (api_call_failed 429))) /\
  result (callPollinationsChatAPI keyed_state (fun _ => FetchResolves 500 (JsonRejects "")) half
            "hello" (VStr "openai") false)
    = Normal (VStr (ai_error (api_call_failed 500))) /\
  ai_error (api_call_failed 429) = "AI Error: API call failed with status: 429" /\
  length (requests (trace (callPollinationsChatAPI keyed_state (fun _ => rate_limited) half
                             "hello" (VStr "openai") false))) = 3%nat.
Proof. repeat split; reflexivity. Qed.

(** ** The busy flag *)

(** C1 fails on the code.  The chat widget is submitted while the search
    widget's request is in flight, so that the chat call's closure holds
    [isAISearching = true]; the call ends in its first turn, with an answer
    or with the authentication error.  One response is produced, but
    [setIsAIChatting(false)] is never called: the chat flag is set and
    stays set. *)
Lemma chat_busy_flag_stays_set :
  before_first_request (trace (handleAISearchSubmit search_typed_state twice_limited half))
    = [SetAiSearchResponse (VStr "Searching the web..."); SetIsAISearching true] /\
  isAISearching searching_state = true /\
  isAIChatting searching_state = false /\
  aiChatQuery searching_state = "hello" /\
  (result (handleAIChatSubmit searching_state
             (fun _ => FetchResolves 200 (JsonResolves (completion_of "hi"))) half)
     = Normal tt /\
   responses false (trace (callPollinationsChatAPI searching_state
                       (fun _ => FetchResolves 200 (JsonResolves (completion_of "hi"))) half
                       "hello" (VStr "openai") false)) = [VStr "hi"] /\
   busy_updates false (trace (callPollinationsChatAPI searching_state
                         (fun _ => FetchResolves 200 (JsonResolves (completion_of "hi"))) half
                         "hello" (VStr "openai") false)) = [true] /\
   falls false (busy_updates false (trace (handleAIChatSubmit searching_state
                         (fun _ => FetchResolves 200 (JsonResolves (completion_of "hi"))) half)))
     = 0%nat /\
   isAIChatting (fold_left App.apply (trace (handleAIChatSubmit searching_state
                         (fun _ => FetchResolves 200 (JsonResolves (completion_of "hi"))) half))
                   searching_state) = true) /\
  (busy_updates false (trace (callPollinationsChatAPI searching_state
                         (fun _ => FetchResolves 401 (JsonRejects "")) half
                         "hello" (VStr "openai") false)) = [true] /\
   isAIChatting (fold_left App.apply (trace (handleAIChatSubmit searching_state
                         (fun _ => FetchResolves 401 (JsonRejects "")) half))
                   searching_state) = true).
Proof. repeat split; reflexivity. Qed.

(** ** The shape of every call *)

(** The loop makes some retry turns and then a turn that ends the call;
    it never runs out of turns. *)
Lemma attempts_shape r fetch random payload isSearch key remaining :
  get (settings r) "pollinationsApiKey" = Normal key ->
  forall attempt,
  attempt = maxRetries - Z.of_nat remaining ->
  (0 < remaining)%nat ->
  exists (n : nat) (text : value),
    (n < remaining)%nat /\
    attempts r fetch random payload isSearch remaining attempt =
      (retry_turns r random payload isSearch key n attempt
         ++ trace (final_turn r payload isSearch (attempt + Z.of_nat n) key text),
       Normal text).
Proof.
  intros Hkey. induction remaining as [|remaining IH]; intros attempt Hattempt Hpos; [lia|].
  destruct (turn_cases r fetch random payload isSearch attempt key Hkey)
    as [[Hlt Hturn] | [text Hturn]].
  - unfold maxRetries in *.
    destruct (IH (attempt + 1)) as (n & text & Hn & Hrest); [lia | lia |].
    exists (S n), text. split; [lia|].
    rewrite (attempts_retry _ _ _ _ _ _ _ _ Hturn), Hrest. cbn [trace result fst snd].
    replace (attempt + Z.of_nat (S n)) with (attempt + 1 + Z.of_nat n) by lia.
    cbn [retry_turns retry_turn trace fst]. now rewrite <- !app_assoc.
  - exists 0%nat, text. split; [lia|].
    rewrite (attempts_final _ _ _ _ _ _ _ _ _ Hturn). cbn [retry_turns].
    now rewrite Z.add_0_r.
Qed.

Lemma call_shape r fetch random prompt model isSearch key :
  get (settings r) "pollinationsApiKey" = Normal key ->
  truthy key = true ->
  exists (n : nat) (text : value),
    (n <= 2)%nat /\
    callPollinationsChatAPI r fetch random prompt model isSearch =
      (set_busy isSearch true
         :: retry_turns r random (chat_payload prompt model) isSearch key n 0
         ++ trace (final_turn r (chat_payload prompt model) isSearch (Z.of_nat n) key text),
       Normal text).
Proof.
  intros Hkey Htruthy. rewrite (call_with_key _ _ _ _ _ _ _ Hkey Htruthy).
  destruct (attempts_shape r fetch random (chat_payload prompt model) isSearch key 3 Hkey 0)
    as (n & text & Hn & ->); [reflexivity | lia |].
  exists n, text. split; [lia|]. reflexivity.
Qed.

(** With a credential, every call sends between one and three requests
    and sets the widget's response exactly once, to the value it returns. *)
Lemma one_response_per_call (r : State) (fetch : Z -> fetch_outcome) (random : Z -> Q)
    (prompt : string) (model : value) (isSearch : bool) (key : value) :
  get (settings r) "pollinationsApiKey" = Normal key ->
  truthy key = true ->
  exists text,
    responses isSearch (trace (callPollinationsChatAPI r fetch random prompt model isSearch))
      = [text] /\
    result (callPollinationsChatAPI r fetch random prompt model isSearch) = Normal text /\
    (1 <= length (requests (trace (callPollinationsChatAPI r fetch random prompt model isSearch)))
       <= 3)%nat.
Proof.
  intros Hkey Htruthy.
  destruct (call_shape r fetch random prompt model isSearch key Hkey Htruthy)
    as (n & text & Hn & ->).
  exists text. cbn [trace result fst snd].
  destruct n as [|[|[|n]]]; [| | | lia];
    cbn [retry_turns retry_turn final_turn trace fst Z.of_nat Pos.of_succ_nat Pos.succ];
    rewrite !finally_trace;
    repeat match goal with |- context [if ?b then _ else _] => destruct b end;
    destruct isSearch; cbn; repeat split; lia.
Qed.

(** When neither busy flag is set in the render the call belongs to, the
    flag is cleared at the end of every turn, retry turns included: once
    per request. *)
Lemma busy_updates_idle_closure (r : State) (fetch : Z -> fetch_outcome) (random : Z -> Q)
    (prompt : string) (model : value) (isSearch : bool) (key : value) :
  get (settings r) "pollinationsApiKey" = Normal key ->
  truthy key = true ->
  isAIChatting r = false ->
  isAISearching r = false ->
  busy_updates isSearch (trace (callPollinationsChatAPI r fetch random prompt model isSearch))
    = true :: repeat false
                (length (requests (trace (callPollinationsChatAPI r fetch random prompt model
                                            isSearch)))) /\
  falls false
    (busy_updates isSearch (trace (callPollinationsChatAPI r fetch random prompt model isSearch)))
    = 1%nat.
Proof.
  intros Hkey Htruthy Hchat Hsearch.
  destruct (call_shape r fetch random prompt model isSearch key Hkey Htruthy)
    as (n & text & Hn & ->).
  cbn [trace fst].
  destruct n as [|[|[|n]]]; [| | | lia];
    cbn [retry_turns retry_turn final_turn trace fst Z.of_nat Pos.of_succ_nat Pos.succ];
    rewrite !finally_trace, Hchat, Hsearch;
    rewrite ?orb_true_r; destruct isSearch; cbn; auto.
Qed.

(** When one of the busy flags is set in that render, the flag is cleared
    only at the end of the third turn: a call that ends earlier leaves it
    set. *)
Lemma busy_updates_stale_closure (r : State) (fetch : Z -> fetch_outcome) (random : Z -> Q)
    (prompt : string) (model : value) (isSearch : bool) (key : value) :
  get (settings r) "pollinationsApiKey" = Normal key ->
  truthy key = true ->
  isAIChatting r = true \/ isAISearching r = true ->
  busy_updates isSearch (trace (callPollinationsChatAPI r fetch random prompt model isSearch))
    = if Nat.eqb (length (requests (trace (callPollinationsChatAPI r fetch random prompt model
                                              isSearch)))) 3
      then [true; false] else [true].
Proof.
  intros Hkey Htruthy Hbusy.
  assert (Hflags : negb (isAIChatting r) && negb (isAISearching r) = false).
  { destruct Hbusy as [-> | ->]; [reflexivity | apply andb_false_r]. }
  destruct (call_shape r fetch random prompt model isSearch key Hkey Htruthy)
    as (n & text & Hn & ->).
  cbn [trace fst].
  destruct n as [|[|[|n]]]; [| | | lia];
    cbn [retry_turns retry_turn final_turn trace fst Z.of_nat Pos.of_succ_nat Pos.succ];
    rewrite !finally_trace, Hflags; destruct isSearch; cbn; auto.
Qed.

(** ** try, catch, finally *)

Lemma try_throw {A : Type} (body : M A) (handler : string -> M A) (finalizer : M unit) message :
  result body = Throw message ->
  result finalizer = Normal tt ->
  try_catch_finally body handler finalizer =
    (trace body ++ trace (handler message) ++ trace finalizer, result (handler message)).
Proof.
  destruct body as [t1 r1], finalizer as [t3 r3]. cbn. intros -> ->.
  unfold try_catch_finally. now destruct (handler message).
Qed.

Lemma snapshots_app t1 t2 : snapshots (t1 ++ t2) = snapshots t1 ++ snapshots t2.
Proof. apply omap_app. Qed.

(** ** The weather refresher *)

Lemma snapshot_bind {A B : Type} (m : M A) (f : A -> M B) :
  snapshots (trace m) = [] ->
  (forall a, snapshot_only_if_normal (f a)) ->
  snapshot_only_if_normal (m ≫= f).
Proof.
  unfold snapshot_only_if_normal.
  destruct m as [t [a|]]; cbn [mbind M_bind result trace fst snd]; intros Ht Hf; auto.
  specialize (Hf a). destruct (f a) as [t' c]. cbn [result trace fst snd] in *.
  destruct c; auto; now rewrite snapshots_app, Ht, Hf.
Qed.

Lemma snapshot_throw {A : Type} (message : string) :
  snapshot_only_if_normal (@throw A message).
Proof. reflexivity. Qed.

Ltac snapshot_steps :=
  repeat (apply snapshot_bind; [reflexivity | intros ?]).

(** The [try] block sets a snapshot only as its last step: when it throws
    it has set none. *)
Lemma weather_body_snapshot r position fetch :
  snapshot_only_if_normal (weather_body r position fetch).
Proof.
  unfold weather_body. snapshot_steps.
  apply snapshot_bind.
  - destruct (truthy _); [|reflexivity]. destruct position as [|pos]; [reflexivity|].
    cbn [mbind M_bind emit].
    destruct (get pos "coords") as [coords|]; cbn; try reflexivity.
    destruct (get coords "latitude"), (get coords "longitude"); reflexivity.
  - intros query. snapshot_steps.
    destruct fetch as [message|status json]; [apply snapshot_throw|].
    destruct (ok status); cbn [negb]; [|apply snapshot_throw].
    apply snapshot_bind; [now destruct json | intros data].
    snapshot_steps. exact I.
Qed.

Lemma weather_body_throws_quietly r position fetch message :
  result (weather_body r position fetch) = Throw message ->
  snapshots (trace (weather_body r position fetch)) = [].
Proof.
  intros H. pose proof (weather_body_snapshot r position fetch) as Hq.
  unfold snapshot_only_if_normal in Hq. now rewrite H in Hq.
Qed.

Lemma fetchWeather_mock r position fetch apiKey :
  get (settings r) "apiKey" = Normal apiKey ->
  truthy apiKey = false ->
  exists unit,
    get (settings r) "unit" = Normal unit /\
    fetchWeather r position fetch =
      ([SetLoadingWeather true; Wait 800; SetWeather (mock_snapshot unit);
        SetLoadingWeather false],
       Normal tt).
Proof.
  intros Hkey Hfalsy. destruct (get_again _ _ _ "unit" Hkey) as [unit Hunit].
  exists unit. split; [exact Hunit|].
  unfold fetchWeather. rewrite Hkey. cbn. rewrite Hfalsy, Hunit. reflexivity.
Qed.

(** C7.  With no OpenWeatherMap key in the settings, the refresher sends
    no request and asks for no position; after 800 ms it sets a snapshot
    whose location label is [Rochester, MN (Mock)], whose condition is
    [Clear Sky], and whose temperature is 72 when the unit is F and 22
    otherwise (so for C), and clears the loading flag. *)
Theorem weather_mock_without_key (r : State) (position : position_outcome)
    (fetch : fetch_outcome) (apiKey : value) :
  get (settings r) "apiKey" = Normal apiKey ->
  truthy apiKey = false ->
  exists unit,
    get (settings r) "unit" = Normal unit /\
    trace (fetchWeather r position fetch) =
      [SetLoadingWeather true; Wait 800; SetWeather (mock_snapshot unit);
       SetLoadingWeather false] /\
    requests (trace (fetchWeather r position fetch)) = [] /\
    position_requests (trace (fetchWeather r position fetch)) = 0%nat /\
    location (mock_snapshot unit) = VStr "Rochester, MN (Mock)" /\
    ends_with "(Mock)" "Rochester, MN (Mock)" = true /\
    condition (mock_snapshot unit) = VStr "Clear Sky" /\
    temp (mock_snapshot unit) = VNum (of_Z (if is_string unit "F" then 72 else 22)) /\
    temp (mock_snapshot (VStr "F")) = VNum (of_Z 72) /\
    temp (mock_snapshot (VStr "C")) = VNum (of_Z 22).
Proof.
  intros Hkey Hfalsy.
  destruct (fetchWeather_mock r position fetch apiKey Hkey Hfalsy) as (unit & Hunit & ->).
  exists unit. repeat split; try reflexivity. exact Hunit.
Qed.

Lemma weather_mock_without_key_witness :
  trace (fetchWeather fresh_state PositionRejects (FetchRejects "offline")) =
    [SetLoadingWeather true; Wait 800; SetWeather (mock_snapshot (VStr "F"));
     SetLoadingWeather false] /\
  requests (trace (fetchWeather fresh_state PositionRejects (FetchRejects "offline"))) = [].
Proof.
  destruct (weather_mock_without_key fresh_state PositionRejects (FetchRejects "offline")
              (VStr "") eq_refl eq_refl)
    as (unit & Hunit & Htrace & Hrequests & _).
  split; [|exact Hrequests].
  rewrite Htrace. injection Hunit as <-. reflexivity.
Defined.

(** C10.  With no OpenWeatherMap key, the one snapshot the refresher sets
    carries the location label [Rochester, MN (Mock)], whatever the
    settings hold otherwise: for any two renders without a key, whatever
    their [location] and [isAutoLocation], the labels are the same. *)
Theorem weather_mock_label_is_constant (r : State) (position : position_outcome)
    (fetch : fetch_outcome) (apiKey : value) :
  get (settings r) "apiKey" = Normal apiKey ->
  truthy apiKey = false ->
  map location (snapshots (trace (fetchWeather r position fetch)))
    = [VStr "Rochester, MN (Mock)"] /\
  (forall r' position' fetch' apiKey',
     get (settings r') "apiKey" = Normal apiKey' ->
     truthy apiKey' = false ->
     map location (snapshots (trace (fetchWeather r' position' fetch')))
       = map location (snapshots (trace (fetchWeather r position fetch)))).
Proof.
  intros Hkey Hfalsy.
  assert (Hlabel : forall r position fetch apiKey,
             get (settings r) "apiKey" = Normal apiKey -> truthy apiKey = false ->
             map location (snapshots (trace (fetchWeather r position fetch)))
               = [VStr "Rochester, MN (Mock)"]).
  { clear. intros r position fetch apiKey Hkey Hfalsy.
    destruct (fetchWeather_mock r position fetch apiKey Hkey Hfalsy) as (unit & _ & ->).
    reflexivity. }
  split.
  - eapply Hlabel; eauto.
  - intros r' position' fetch' apiKey' Hkey' Hfalsy'.
    rewrite (Hlabel r' position' fetch' apiKey' Hkey' Hfalsy').
    symmetry. eapply Hlabel; eauto.
Qed.

Lemma weather_mock_label_is_constant_witness :
  map location (snapshots (trace (fetchWeather fresh_state PositionRejects (FetchRejects ""))))
    = [VStr "Rochester, MN (Mock)"] /\
  map location
    (snapshots
       (trace (fetchWeather
                 (dispatch (dispatch fresh_state (change_setting fresh_state "location"
                                                    (VStr "Oslo")))
                    [SetSettings (SpreadPrev "isAutoLocation" (VBool true))])
                 (PositionResolves VNull) (FetchRejects ""))))
    = map location
        (snapshots (trace (fetchWeather fresh_state PositionRejects (FetchRejects "")))).
Proof.
  destruct (weather_mock_label_is_constant fresh_state PositionRejects (FetchRejects "")
              (VStr "") eq_refl eq_refl) as [Hlabel Hsame].
  split; [exact Hlabel|].
  apply (Hsame _ (PositionResolves VNull) (FetchRejects "") (VStr "")); reflexivity.
Defined.

(** The causes of failure that make the [try] block throw. *)
Lemma weather_body_fails r position fetch apiKey :
  get (settings r) "apiKey" = Normal apiKey ->
  (exists status json, fetch = FetchResolves status json /\ ok status = false) \/
  (exists message, fetch = FetchRejects message) \/
  (exists auto, get (settings r) "isAutoLocation" = Normal auto /\ truthy auto = true /\
                position = PositionRejects) ->
  exists message, result (weather_body r position fetch) = Throw message.
Proof.
  intros Hkey Hcause. unfold weather_body.
  destruct (get_again _ _ _ "location" Hkey) as [loc ->].
  destruct (get_again _ _ _ "isAutoLocation" Hkey) as [auto Hauto]. rewrite Hauto.
  destruct (get_again _ _ _ "unit" Hkey) as [unit ->]. rewrite Hkey.
  cbn [lift mbind M_bind].
  destruct (truthy auto) eqn:Htruthy.
  - destruct position as [|pos].
    + cbn. eauto.
    + cbn [mbind M_bind emit].
      destruct (get pos "coords") as [coords|]; cbn; eauto.
      destruct (get coords "latitude"); cbn; eauto.
      destruct (get coords "longitude"); cbn; eauto.
      destruct Hcause as [(status & json & -> & Hok) | [(message & ->) | (? & ? & ? & ?)]];
        [rewrite Hok | | discriminate]; cbn; eauto.
  - cbn.
    destruct Hcause as [(status & json & -> & Hok) | [(message & ->) | (auto' & Ha & Ht & _)]].
    + rewrite Hok. cbn. eauto.
    + cbn. eauto.
    + rewrite Hauto in Ha. injection Ha as <-. congruence.
Qed.

Lemma apply_error_snapshot st :
  weather (App.apply (App.apply st (SetWeather error_snapshot)) (SetLoadingWeather false))
    = Some error_snapshot /\
  loadingWeather (App.apply (App.apply st (SetWeather error_snapshot)) (SetLoadingWeather false))
    = false.
Proof. destruct st. split; reflexivity. Qed.

(** C8.  With an OpenWeatherMap key, when the request is answered with a
    status outside 200..299, or the request is rejected, or the position
    is asked for and refused, or anything else is thrown in the [try]
    block, the refresher sets exactly one snapshot, the error snapshot
    ([--], [API Error], [Check Key], humidity 0, wind 0), which replaces
    whatever snapshot the state held, and clears the loading flag. *)
Theorem weather_failure_sets_error_snapshot (r : State) (position : position_outcome)
    (fetch : fetch_outcome) (apiKey : value) :
  get (settings r) "apiKey" = Normal apiKey ->
  truthy apiKey = true ->
  (exists status json, fetch = FetchResolves status json /\ ok status = false) \/
  (exists message, fetch = FetchRejects message) \/
  (exists auto, get (settings r) "isAutoLocation" = Normal auto /\ truthy auto = true /\
                position = PositionRejects) \/
  (exists message, result (weather_body r position fetch) = Throw message) ->
  snapshots (trace (fetchWeather r position fetch)) = [error_snapshot] /\
  result (fetchWeather r position fetch) = Normal tt /\
  (forall st,
     weather (fold_left App.apply (trace (fetchWeather r position fetch)) st)
       = Some error_snapshot /\
     loadingWeather (fold_left App.apply (trace (fetchWeather r position fetch)) st) = false) /\
  error_snapshot =
    {| temp := VStr "--";
       condition := VStr "API Error";
       location := VStr "Check Key";
       icon := VStr "unknown";
       humidity := VNum (of_Z 0);
       wind := VNum (of_Z 0) |}.
Proof.
  intros Hkey Htruthy Hcause.
  assert (Hthrow : exists message, result (weather_body r position fetch) = Throw message).
  { destruct Hcause as [H | [H | [H | H]]]; [| | | exact H];
      eapply weather_body_fails; eauto. }
  destruct Hthrow as [message Hthrow].
  assert (Hrun : fetchWeather r position fetch =
                   (SetLoadingWeather true
                      :: trace (weather_body r position fetch)
                      ++ [SetWeather error_snapshot; SetLoadingWeather false],
                    Normal tt)).
  { unfold fetchWeather. rewrite Hkey. cbn [lift mbind M_bind emit]. rewrite Htruthy.
    cbn [negb]. rewrite (try_throw _ _ (emit (SetLoadingWeather false)) message Hthrow eq_refl).
    reflexivity. }
  rewrite Hrun. cbn [trace result fst snd]. split; [|split; [reflexivity|split; [|reflexivity]]].
  - change (SetLoadingWeather true :: ?t) with ([SetLoadingWeather true] ++ t).
    rewrite !snapshots_app, (weather_body_throws_quietly _ _ _ _ Hthrow). reflexivity.
  - intros st.
    change (SetLoadingWeather true :: ?t) with ([SetLoadingWeather true] ++ t).
    rewrite !fold_left_app. cbn [fold_left]. apply apply_error_snapshot.
Qed.

Lemma weather_failure_sets_error_snapshot_witness :
  snapshots (trace (fetchWeather weather_keyed_state PositionRejects
                      (FetchResolves 401 (JsonRejects "")))) = [error_snapshot] /\
  weather (fold_left App.apply
             (trace (fetchWeather weather_keyed_state PositionRejects
                       (FetchResolves 401 (JsonRejects ""))))
             weather_keyed_state) = Some error_snapshot.
Proof.
  destruct (weather_failure_sets_error_snapshot weather_keyed_state PositionRejects
              (FetchResolves 401 (JsonRejects "")) (VStr "owm-test") eq_refl eq_refl)
    as (Hsnap & _ & Hstate & _).
  - left. exists 401, (JsonRejects ""). split; reflexivity.
  - split; [exact Hsnap | apply Hstate].
Defined.

(** ** The wallpaper generator *)

(** The failures of the request and of its answer, and the message each
    one throws in the [try] block. *)
Lemma generate_body_fails r fetch finalPrompt key :
  get (settings r) "pollinationsApiKey" = Normal key ->
  (forall message, fetch = FetchRejects message ->
     result (generate_body r fetch finalPrompt) = Throw message) /\
  (forall status json, fetch = FetchResolves status json -> ok status = false ->
     result (generate_body r fetch finalPrompt) = Throw ("Status: " +:+ string_of_Z status)) /\
  (forall status data imageUrl,
     fetch = FetchResolves status (JsonResolves data) -> ok status = true ->
     get data "url" = Normal imageUrl -> truthy imageUrl = false ->
     result (generate_body r fetch finalPrompt) = Throw "No image URL returned.").
Proof.
  intros Hkey. unfold generate_body. rewrite Hkey. cbn [lift mbind M_bind emit].
  repeat split.
  - intros message ->. reflexivity.
  - intros status json -> Hok. rewrite Hok. reflexivity.
  - intros status data imageUrl -> Hok Hurl Hfalsy. rewrite Hok. cbn.
    rewrite Hurl. cbn. rewrite Hfalsy. reflexivity.
Qed.

Lemma apply_revert st message :
  get (settings
         (App.apply
            (App.apply
               (App.apply st (SetSettingsMessage (generation_error message)))
               (SetSettings (SpreadPrev "wallpaper" (VStr first_wallpaper_url))))
            (SetIsGeneratingWallpaper false)))
      "wallpaper" = Normal (VStr first_wallpaper_url) /\
  settingsMessage
    (App.apply
       (App.apply
          (App.apply st (SetSettingsMessage (generation_error message)))
          (SetSettings (SpreadPrev "wallpaper" (VStr first_wallpaper_url))))
       (SetIsGeneratingWallpaper false))
    = Some (generation_error message) /\
  isGeneratingWallpaper
    (App.apply
       (App.apply
          (App.apply st (SetSettingsMessage (generation_error message)))
          (SetSettings (SpreadPrev "wallpaper" (VStr first_wallpaper_url))))
       (SetIsGeneratingWallpaper false))
    = false.
Proof.
  destruct st. cbn [App.apply settings settingsMessage isGeneratingWallpaper update_settings].
  split; [apply get_spread_with | split; reflexivity].
Qed.

(** C9.  When the generator has passed its two checks and the [try] block
    throws (the request is rejected, the status is outside 200..299, or
    the answer has no truthy [url]), then, whatever the settings held
    before, their [wallpaper] ends as the first preset's URL, the message
    shown is the generation error with the thrown message in brackets, and
    the busy flag is cleared. *)
Theorem wallpaper_failure_reverts_to_first_preset (r : State) (fetch : fetch_outcome)
    (key : value) :
  trim (wallpaperPrompt r) <> "" ->
  get (settings r) "pollinationsApiKey" = Normal key ->
  truthy key = true ->
  (exists message, fetch = FetchRejects message) \/
  (exists status json, fetch = FetchResolves status json /\ ok status = false) \/
  (exists status data imageUrl,
     fetch = FetchResolves status (JsonResolves data) /\ ok status = true /\
     get data "url" = Normal imageUrl /\ truthy imageUrl = false) \/
  (exists message,
     result (generate_body r fetch (wallpaperPrompt r +:+ ", 16:9 background, wallpaper, 4k"))
       = Throw message) ->
  exists message,
    result (generate_body r fetch (wallpaperPrompt r +:+ ", 16:9 background, wallpaper, 4k"))
      = Throw message /\
    (forall st,
       get (settings (fold_left App.apply (trace (handleGenerateWallpaper r fetch)) st))
           "wallpaper"
         = Normal (VStr first_wallpaper_url) /\
       settingsMessage (fold_left App.apply (trace (handleGenerateWallpaper r fetch)) st)
         = Some ("Image generation error. Check prompt and key. (" +:+ message +:+ ")") /\
       isGeneratingWallpaper (fold_left App.apply (trace (handleGenerateWallpaper r fetch)) st)
         = false) /\
    first_wallpaper_url =
      "https://images.unsplash.com/photo-1550684848-fac1c5b4e853?q=80&w=2070&auto=format&fit=crop".
Proof.
  intros Hprompt Hkey Htruthy Hcause.
  destruct (generate_body_fails r fetch
              (wallpaperPrompt r +:+ ", 16:9 background, wallpaper, 4k") key Hkey)
    as (Hrejected & Hstatus & Hurl).
  assert (Hthrow : exists message,
             result (generate_body r fetch
                       (wallpaperPrompt r +:+ ", 16:9 background, wallpaper, 4k"))
               = Throw message).
  { destruct Hcause as [(message & H) | [(status & json & H & Hok)
                        | [(status & data & imageUrl & H & Hok & Hget & Hfalsy) | H]]]; eauto. }
  destruct Hthrow as [message Hthrow]. exists message.
  split; [exact Hthrow|]. split; [|reflexivity].
  assert (Hrun : trace (handleGenerateWallpaper r fetch) =
                   ([SetIsGeneratingWallpaper true;
                     SetSettingsMessage "Generating image... this may take up to a minute."]
                      ++ trace (generate_body r fetch
                                  (wallpaperPrompt r +:+ ", 16:9 background, wallpaper, 4k")))
                     ++ [SetSettingsMessage (generation_error message);
                         SetSettings (SpreadPrev "wallpaper" (VStr first_wallpaper_url));
                         SetIsGeneratingWallpaper false]).
  { unfold handleGenerateWallpaper. cbn [truthy].
    destruct (String.eqb_spec (trim (wallpaperPrompt r)) ""); [contradiction|].
    cbn [negb]. rewrite Hkey. cbn [lift mbind M_bind]. rewrite Htruthy. cbn [negb].
    rewrite (try_throw _ _ (emit (SetIsGeneratingWallpaper false)) message Hthrow eq_refl).
    cbn. reflexivity. }
  intros st. rewrite Hrun, fold_left_app. cbn [fold_left]. apply apply_revert.
Qed.

Lemma wallpaper_failure_reverts_to_first_preset_witness :
  get (settings (fold_left App.apply
                   (trace (handleGenerateWallpaper prompted_state
                             (FetchResolves 500 (JsonRejects ""))))
                   (dispatch prompted_state
                      (change_setting prompted_state "wallpaper" (VStr "https://example.org/x.png")))))
      "wallpaper"
    = Normal (VStr first_wallpaper_url) /\
  settingsMessage (fold_left App.apply
                     (trace (handleGenerateWallpaper prompted_state
                               (FetchResolves 500 (JsonRejects ""))))
                     prompted_state)
    = Some "Image generation error. Check prompt and key. (Status: 500)".
Proof.
  destruct (wallpaper_failure_reverts_to_first_preset prompted_state
              (FetchResolves 500 (JsonRejects "")) (VStr "sk-test"))
    as (message & Hthrow & Hstate & _).
  - discriminate.
  - reflexivity.
  - reflexivity.
  - right. left. exists 500, (JsonRejects ""). split; reflexivity.
  - split.
    + apply Hstate.
    + destruct (Hstate prompted_state) as (_ & -> & _).
      injection Hthrow as <-. reflexivity.
Defined.

(** ** Sample runs *)

Lemma one_response_per_call_witness :
  exists text,
    responses false (trace (callPollinationsChatAPI keyed_state twice_limited half
                              "hello" (VStr "openai") false)) = [text] /\
    result (callPollinationsChatAPI keyed_state twice_limited half "hello" (VStr "openai") false)
      = Normal text /\
    (1 <= length (requests (trace (callPollinationsChatAPI keyed_state twice_limited half
                                     "hello" (VStr "openai") false))) <= 3)%nat.
Proof.
  exact (one_response_per_call keyed_state twice_limited half "hello" (VStr "openai") false
           (VStr "sk-test") eq_refl eq_refl).
Defined.

Lemma busy_updates_idle_closure_witness :
  busy_updates false (trace (callPollinationsChatAPI keyed_state twice_limited half
                               "hello" (VStr "openai") false))
    = true :: repeat false
                (length (requests (trace (callPollinationsChatAPI keyed_state twice_limited half
                                            "hello" (VStr "openai") false)))) /\
  falls false
    (busy_updates false (trace (callPollinationsChatAPI keyed_state twice_limited half
                                  "hello" (VStr "openai") false)))
    = 1%nat.
Proof.
  exact (busy_updates_idle_closure keyed_state twice_limited half "hello" (VStr "openai") false
           (VStr "sk-test") eq_refl eq_refl eq_refl eq_refl).
Defined.

Lemma busy_updates_stale_closure_witness :
  busy_updates false (trace (callPollinationsChatAPI searching_state twice_limited half
                               "hello" (VStr "openai") false))
    = if Nat.eqb (length (requests (trace (callPollinationsChatAPI searching_state twice_limited
                                              half "hello" (VStr "openai") false)))) 3
      then [true; false] else [true].
Proof.
  exact (busy_updates_stale_closure searching_state twice_limited half "hello" (VStr "openai")
           false (VStr "sk-test") eq_refl eq_refl (or_intror eq_refl)).
Defined.

(** The retried call, event by event: the busy flag is cleared after the
    first 429 already, while the call goes on. *)
Example retried_call_trace :
  trace (callPollinationsChatAPI keyed_state twice_limited half "hello" (VStr "openai") false) =
    [SetIsAIChatting true;
     Fetch (post_request apiUrl (VStr "sk-test") (chat_payload "hello" (VStr "openai")));
     WarnRetrying (backoff_delay 0 (1 # 2)); Wait (backoff_delay 0 (1 # 2));
     SetIsAIChatting false;
     Fetch (post_request apiUrl (VStr "sk-test") (chat_payload "hello" (VStr "openai")));
     WarnRetrying (backoff_delay 1 (1 # 2)); Wait (backoff_delay 1 (1 # 2));
     SetIsAIChatting false;
     Fetch (post_request apiUrl (VStr "sk-test") (chat_payload "hello" (VStr "openai")));
     SetAiChatResponse (VStr "hi");
     SetIsAIChatting false].
Proof. reflexivity. Qed.

(** The delays are binary64 sums: half a second of jitter is exact, and
    with the largest value below 1 the sum rounds up to the full second.
    One tenth rounds as the literal [0.1] does. *)
Example backoff_delay_values :
  backoff_delay 0 (1 # 2) = 1500%Q /\
  backoff_delay 1 (1 # 2) = 2500%Q /\
  backoff_delay 0 (1 - (1 # 9007199254740992)) = 2000%Q /\
  backoff_delay 1 (1 - (1 # 9007199254740992)) = 3000%Q /\
  round64 ((1 - (1 # 9007199254740992)) * 1000)
    = (8796093022207999 # 8796093022208)%Q /\
  round64 (1 # 10) = (3602879701896397 # 36028797018963968)%Q.
Proof. vm_compute. repeat split; reflexivity. Qed.

(** An answer without the expected field gives the placeholder text. *)
Example empty_answer_placeholder :
  result (callPollinationsChatAPI keyed_state
            (fun _ => FetchResolves 200 (JsonResolves (VObj []))) half
            "hello" (VStr "openai") false)
    = Normal (VStr "No response received from AI.").
Proof. reflexivity. Qed.

(** A generated image is applied as the wallpaper and written through. *)
Example wallpaper_success :
  get (settings (dispatch prompted_state
                   (trace (handleGenerateWallpaper prompted_state
                             (FetchResolves 200
                                (JsonResolves (object [("url", VStr "https://img.example/1.png")])))))))
      "wallpaper" = Normal (VStr "https://img.example/1.png") /\
  wallpaperPrompt (dispatch prompted_state
                     (trace (handleGenerateWallpaper prompted_state
                               (FetchResolves 200
                                  (JsonResolves (object [("url", VStr "https://img.example/1.png")]))))))
    = "".
Proof. split; reflexivity. Qed.

(** A live weather answer: the temperature 71.5 is rounded to 72. *)
Example weather_success :
  snapshots
    (trace (fetchWeather weather_keyed_state PositionRejects
              (FetchResolves 200
                 (JsonResolves
                    (object [ ("main", object [ ("temp", VNum (dec 715 (-1)));
                                                ("humidity", VNum (of_Z 40)) ]);
                              ("weather", VArr [ object [ ("description", VStr "light rain");
                                                         ("icon", VStr "10d") ] ]);
                              ("name", VStr "Rochester");
                              ("wind", object [ ("speed", VNum (dec 35 (-1))) ]) ])))))
    = [ {| temp := VNum (of_Z 72);
           condition := VStr "light rain";
           location := VStr "Rochester";
           icon := VStr "10d";
           humidity := VNum (of_Z 40);
           wind := VNum (dec 35 (-1)) |} ].
Proof. reflexivity. Qed.

(** The stored settings read back as the settings. *)
Example settings_round_trip :
  load_settings (localStorage renamed_state) = Some (Normal (settings renamed_state)).
Proof. reflexivity. Qed.

(** The request body of a chat call. *)
Example chat_request_body :
  body (post_request apiUrl (VStr "sk-test") (chat_payload "hi" (VStr "openai")))
    = Some (Json.quote_chars "{" +:+ Json.quote "model" +:+ ":" +:+ Json.quote "openai" +:+ ","
            +:+ Json.quote "messages" +:+ ":[{" +:+ Json.quote "role" +:+ ":" +:+ Json.quote "user"
            +:+ "," +:+ Json.quote "content" +:+ ":" +:+ Json.quote "hi" +:+ "}],"
            +:+ Json.quote "stream" +:+ ":false}").
Proof. reflexivity. Qed.

(** Numbers print as JavaScript prints them. *)
Example number_printing :
  map number_to_string [dec 1920 0; dec 715 (-1); dec 1 21; dec 15 (-8); dec (-5) (-1)]
    = ["1920"; "71.5"; "1e+21"; "1.5e-7"; "-0.5"].
Proof. reflexivity. Qed.

Example rounding :
  map Math_round [dec 715 (-1); dec 725 (-1); dec (-25) (-1); dec (-26) (-1)]
    = [of_Z 72; of_Z 73; of_Z (-2); of_Z (-3)].
Proof. reflexivity. Qed.

(** * Further properties *)

Import Watch.

(** ** The chat wrapper: failures that are not retried *)

(** A failing status other than 401 and 429, and a rejected request, end
    the call at once: one request, no wait, and the error text with the
    status or the rejection's message in it. *)
Theorem other_failures_end_the_call (r : State) (fetch : Z -> fetch_outcome) (random : Z -> Q)
    (prompt : string) (model : value) (isSearch : bool) (key : value) :
  get (settings r) "pollinationsApiKey" = Normal key ->
  truthy key = true ->
  (forall status json,
     fetch 0 = FetchResolves status json ->
     ok status = false -> status <> 401 -> status <> 429 ->
     requests (trace (callPollinationsChatAPI r fetch random prompt model isSearch))
       = [post_request apiUrl key (chat_payload prompt model)] /\
     waits (trace (callPollinationsChatAPI r fetch random prompt model isSearch)) = [] /\
     responses isSearch (trace (callPollinationsChatAPI r fetch random prompt model isSearch))
       = [VStr ("AI Error: API call failed with status: " +:+ string_of_Z status)] /\
     result (callPollinationsChatAPI r fetch random prompt model isSearch)
       = Normal (VStr ("AI Error: API call failed with status: " +:+ string_of_Z status))) /\
  (forall message,
     fetch 0 = FetchRejects message ->
     requests (trace (callPollinationsChatAPI r fetch random prompt model isSearch))
       = [post_request apiUrl key (chat_payload prompt model)] /\
     waits (trace (callPollinationsChatAPI r fetch random prompt model isSearch)) = [] /\
     responses isSearch (trace (callPollinationsChatAPI r fetch random prompt model isSearch))
       = [VStr ("AI Error: " +:+ message)] /\
     result (callPollinationsChatAPI r fetch random prompt model isSearch)
       = Normal (VStr ("AI Error: " +:+ message))).
Proof.
  intros Hkey Htruthy. split.
  - intros status json Hfetch Hok H401 H429.
    apply (first_turn_final r fetch random prompt model isSearch key
             (VStr (ai_error (api_call_failed status))) Hkey Htruthy).
    eapply turn_failed; eauto.
  - intros message Hfetch.
    apply (first_turn_final r fetch random prompt model isSearch key
             (VStr (ai_error message)) Hkey Htruthy).
    eapply turn_rejected; eauto.
Qed.

Lemma other_failures_end_the_call_witness :
  result (callPollinationsChatAPI keyed_state (fun _ => FetchResolves 503 (JsonRejects "")) half
            "hello" (VStr "openai") false)
    = Normal (VStr "AI Error: API call failed with status: 503") /\
  requests (trace (callPollinationsChatAPI keyed_state (fun _ => FetchRejects "Failed to fetch")
                     half "hello" (VStr "openai") true))
    = [post_request apiUrl (VStr "sk-test") (chat_payload "hello" (VStr "openai"))].
Proof.
  split.
  - destruct (other_failures_end_the_call keyed_state
                (fun _ => FetchResolves 503 (JsonRejects "")) half "hello" (VStr "openai") false
                (VStr "sk-test") eq_refl eq_refl) as [Hstatus _].
    destruct (Hstatus 503 (JsonRejects "") eq_refl eq_refl) as (_ & _ & _ & Hres);
      [discriminate | discriminate | exact Hres].
  - destruct (other_failures_end_the_call keyed_state
                (fun _ => FetchRejects "Failed to fetch") half "hello" (VStr "openai") true
                (VStr "sk-test") eq_refl eq_refl) as [_ Hrejected].
    destruct (Hrejected "Failed to fetch" eq_refl) as (Hreq & _). exact Hreq.
Defined.

(** ** The chat wrapper: how long and how often *)

Ltac call_cases Hkey Htruthy :=
  match goal with
  | |- context [callPollinationsChatAPI ?r ?fetch ?random ?prompt ?model ?isSearch] =>
      let n := fresh "n" in
      let text := fresh "text" in
      let Hn := fresh "Hn" in
      destruct (call_shape r fetch random prompt model isSearch _ Hkey Htruthy)
        as (n & text & Hn & ->);
      cbn [trace result fst snd];
      destruct n as [|[|[|n]]]; [| | | lia];
      cbn [retry_turns retry_turn final_turn trace fst Z.of_nat Pos.of_succ_nat Pos.succ];
      rewrite !finally_trace;
      repeat match goal with |- context [if ?b then _ else _] => destruct b end;
      destruct isSearch; cbn
  end.

(** Whatever the endpoint answers, a call waits at most twice: between
    1000 and 2000 ms before the second attempt and between 2000 and 3000
    ms before the third, bounds included, so for at most five seconds in
    all.  The five seconds are reached: the sums are rounded, and with the
    largest value [Math.random()] has the waits are 2000 and 3000 ms. *)
Theorem backoff_is_bounded (r : State) (fetch : Z -> fetch_outcome) (random : Z -> Q)
    (prompt : string) (model : value) (isSearch : bool) (key : value) :
  get (settings r) "pollinationsApiKey" = Normal key ->
  truthy key = true ->
  (forall attempt, (0 <= random attempt)%Q /\ (random attempt < 1)%Q) ->
  (waits (trace (callPollinationsChatAPI r fetch random prompt model isSearch)) = []
   \/ waits (trace (callPollinationsChatAPI r fetch random prompt model isSearch))
        = [backoff_delay 0 (random 0)]
   \/ waits (trace (callPollinationsChatAPI r fetch random prompt model isSearch))
        = [backoff_delay 0 (random 0); backoff_delay 1 (random 1)]) /\
  ((1000 <= backoff_delay 0 (random 0%Z))%Q /\ (backoff_delay 0 (random 0%Z) <= 2000)%Q) /\
  ((2000 <= backoff_delay 1 (random 1%Z))%Q /\ (backoff_delay 1 (random 1%Z) <= 3000)%Q) /\
  (total (waits (trace (callPollinationsChatAPI r fetch random prompt model isSearch)))
     <= 5000)%Q.
Proof.
  intros Hkey Htruthy Hrandom.
  destruct (backoff_delay_bounds (random 0%Z) (random 1%Z) (Hrandom 0) (Hrandom 1))
    as (A0 & B0 & A1 & B1 & _ & Hsum).
  assert (Hwaits :
    (waits (trace (callPollinationsChatAPI r fetch random prompt model isSearch)) = []
     \/ waits (trace (callPollinationsChatAPI r fetch random prompt model isSearch))
          = [backoff_delay 0 (random 0)]
     \/ waits (trace (callPollinationsChatAPI r fetch random prompt model isSearch))
          = [backoff_delay 0 (random 0); backoff_delay 1 (random 1)])).
  { call_cases Hkey Htruthy;
      first [ left; reflexivity | right; left; reflexivity | right; right; reflexivity ]. }
  split; [exact Hwaits|]. split; [split; assumption|]. split; [split; assumption|].
  destruct Hwaits as [-> | [-> | ->]]; unfold total; cbn [fold_right]; lra.
Qed.

Lemma backoff_is_bounded_witness :
  backoff_delay 0 (1 - (1 # 9007199254740992)) = 2000%Q /\
  (total (waits (trace (callPollinationsChatAPI keyed_state (fun _ => rate_limited)
                          (fun _ => 1 - (1 # 9007199254740992))%Q
                          "hello" (VStr "openai") false))) == 5000)%Q /\
  (total (waits (trace (callPollinationsChatAPI keyed_state (fun _ => rate_limited)
                          (fun _ => 1 - (1 # 9007199254740992))%Q
                          "hello" (VStr "openai") false))) <= 5000)%Q.
Proof.
  split; [vm_compute; reflexivity|]. split; [vm_compute; reflexivity|].
  apply (backoff_is_bounded keyed_state (fun _ => rate_limited)
           (fun _ => 1 - (1 # 9007199254740992))%Q "hello" (VStr "openai")
           false (VStr "sk-test") eq_refl eq_refl).
  intros attempt. split; [now vm_compute | reflexivity].
Defined.

(** Every attempt of a call sends the same request: the payload of the
    call, serialised, with the key of the call's render as bearer
    credential. *)
Theorem attempts_resend_one_request (r : State) (fetch : Z -> fetch_outcome) (random : Z -> Q)
    (prompt : string) (model : value) (isSearch : bool) (key : value) :
  get (settings r) "pollinationsApiKey" = Normal key ->
  truthy key = true ->
  exists n,
    (1 <= n <= 3)%nat /\
    requests (trace (callPollinationsChatAPI r fetch random prompt model isSearch))
      = repeat {| request_url := "https://enter.pollinations.ai/api/generate/v1/chat/completions";
                  method := "POST";
                  headers := [ ("Content-Type", "application/json");
                               ("Authorization", "Bearer " +:+ to_string key) ];
                  body := Json.stringify (chat_payload prompt model) |} n.
Proof.
  intros Hkey Htruthy.
  call_cases Hkey Htruthy;
    first [ exists 1%nat; split; [lia | reflexivity]
          | exists 2%nat; split; [lia | reflexivity]
          | exists 3%nat; split; [lia | reflexivity] ].
Qed.

Lemma attempts_resend_one_request_witness :
  exists n,
    (1 <= n <= 3)%nat /\
    requests (trace (callPollinationsChatAPI keyed_state twice_limited half
                       "hello" (VStr "openai") false))
      = repeat {| request_url := "https://enter.pollinations.ai/api/generate/v1/chat/completions";
                  method := "POST";
                  headers := [ ("Content-Type", "application/json");
                               ("Authorization", "Bearer sk-test") ];
                  body := Json.stringify (chat_payload "hello" (VStr "openai")) |} n.
Proof.
  exact (attempts_resend_one_request keyed_state twice_limited half "hello" (VStr "openai") false
           (VStr "sk-test") eq_refl eq_refl).
Defined.

(** ** The chat wrapper: what a successful answer shows *)

Lemma response_text_truthy data text :
  response_text data = Normal text -> truthy text = true.
Proof.
  unfold response_text. destruct (get data "choices") as [choices|]; [|discriminate]. cbn.
  destruct (get_optional_normal choices "0") as [choice ->]. cbn.
  destruct (get_optional_normal choice "message") as [message ->]. cbn.
  destruct (get_optional_normal message "content") as [content ->]. cbn.
  intros [= <-]. destruct (truthy content) eqn:E; [exact E | reflexivity].
Qed.



(** ** The submit handlers *)

Lemma trim_start_blank s : blank s = true -> trim_start s = "".
Proof.
  unfold blank. induction s as [|c s IH]; cbn; [reflexivity|].
  destruct (is_white_space c); cbn; [exact IH | discriminate].
Qed.

Lemma blank_trim_start s : blank (trim_start s) = blank s.
Proof.
  unfold blank. induction s as [|c s IH]; cbn; [reflexivity|].
  destruct (is_white_space c) eqn:E; cbn; [exact IH | now rewrite E].
Qed.

Lemma trim_end_blank s : trim_end s = "" <-> blank s = true.
Proof.
  unfold blank. induction s as [|c s IH]; cbn; [tauto|].
  destruct (is_white_space c); cbn.
  - destruct (String.eqb_spec (trim_end s) "") as [E|E].
    + tauto.
    + split; [discriminate|]. intros H. apply IH in H. contradiction.
  - split; discriminate.
Qed.

(** [trim] leaves nothing exactly of the strings that hold only white
    space. *)
Lemma trim_empty_iff_blank s : trim s = "" <-> blank s = true.
Proof. unfold trim. rewrite trim_end_blank. now rewrite blank_trim_start. Qed.

(** With a key, a call's first two events are the busy flag and the
    first request, where it first suspends. *)
Lemma call_first_suspension r fetch random prompt model isSearch key :
  get (settings r) "pollinationsApiKey" = Normal key ->
  truthy key = true ->
  exists later,
    trace (callPollinationsChatAPI r fetch random prompt model isSearch)
      = set_busy isSearch true
          :: Fetch (post_request apiUrl key (chat_payload prompt model)) :: later /\
    first_suspension (trace (callPollinationsChatAPI r fetch random prompt model isSearch))
      = ([set_busy isSearch true;
          Fetch (post_request apiUrl key (chat_payload prompt model))], later).
Proof.
  intros Hkey Htruthy.
  destruct (call_shape r fetch random prompt model isSearch key Hkey Htruthy)
    as (n & text & _ & ->).
  cbn [trace fst].
  destruct n as [|n];
    cbn [retry_turns retry_turn final_turn trace fst app];
    eexists; (split; [reflexivity|]); now destruct isSearch.
Qed.



(** ** The wallpaper generator: checks, busy flag, success *)

(** The two checks, in order: a blank description shows the first message,
    whether or not a key is set; a description without a key shows the
    second.  Either way nothing else happens: no request, no busy flag, no
    change of the settings. *)
Theorem wallpaper_checks (r : State) (fetch : fetch_outcome) :
  (blank (wallpaperPrompt r) = true ->
   handleGenerateWallpaper r fetch =
     ([SetSettingsMessage "Please enter a description for the wallpaper."], Normal tt)) /\
  (blank (wallpaperPrompt r) = false ->
   forall key, get (settings r) "pollinationsApiKey" = Normal key -> truthy key = false ->
   handleGenerateWallpaper r fetch =
     ([SetSettingsMessage "Pollinations API Key is required to generate images."], Normal tt)).
Proof.
  unfold handleGenerateWallpaper. cbn [truthy]. split.
  - intros H. apply trim_empty_iff_blank in H. now rewrite H.
  - intros H key Hkey Hfalsy.
    destruct (String.eqb_spec (trim (wallpaperPrompt r)) "") as [E|E].
    + apply trim_empty_iff_blank in E. congruence.
    + cbn [negb]. rewrite Hkey. cbn [lift mbind M_bind]. now rewrite Hfalsy.
Qed.

Lemma wallpaper_checks_witness :
  handleGenerateWallpaper keyed_state (FetchRejects "offline") =
    ([SetSettingsMessage "Please enter a description for the wallpaper."], Normal tt) /\
  handleGenerateWallpaper (dispatch fresh_state [SetWallpaperPrompt "a red kite"])
      (FetchRejects "offline") =
    ([SetSettingsMessage "Pollinations API Key is required to generate images."], Normal tt).
Proof.
  split.
  - apply (proj1 (wallpaper_checks keyed_state (FetchRejects "offline"))). reflexivity.
  - apply (proj2 (wallpaper_checks (dispatch fresh_state [SetWallpaperPrompt "a red kite"])
                    (FetchRejects "offline"))) with (key := VStr ""); reflexivity.
Defined.

(** The [try] block either applies a truthy [url] and ends normally, or
    throws after the request and has changed nothing. *)
Lemma generate_body_cases r fetch finalPrompt key :
  get (settings r) "pollinationsApiKey" = Normal key ->
  (exists imageUrl,
     truthy imageUrl = true /\
     generate_body r fetch finalPrompt =
       ([Fetch (post_request image_apiUrl key (image_payload finalPrompt));
         SetSettings (SpreadPrev "wallpaper" imageUrl);
         SetSettingsMessage "Wallpaper successfully generated and applied!";
         SetWallpaperPrompt ""],
        Normal tt)) \/
  (exists message,
     generate_body r fetch finalPrompt =
       ([Fetch (post_request image_apiUrl key (image_payload finalPrompt))], Throw message)).
Proof.
  intros Hkey. unfold generate_body. rewrite Hkey. cbn [lift mbind M_bind emit].
  destruct fetch as [message|status json]; [right; eexists; reflexivity|].
  destruct (ok status); cbn [negb]; [|right; eexists; reflexivity].
  destruct json as [message|data]; [right; eexists; reflexivity|]. cbn.
  destruct (get data "url") as [imageUrl|message]; [|right; eexists; reflexivity]. cbn.
  destruct (truthy imageUrl) eqn:E.
  - left. exists imageUrl. split; [exact E | reflexivity].
  - right. eexists. reflexivity.
Qed.

(** Once the two checks have passed, a run sends exactly one request.
    When that request settles, whether it is rejected or answered, and
    with whatever status and body, the run ends normally, having set the
    busy flag and cleared it again and updated the settings exactly once
    (to the new image or back to the first preset).  (A request that never
    settles is not among the outcomes: the source sets no timeout, and the
    busy flag stays set while it waits.) *)
Theorem wallpaper_run_shape (r : State) (fetch : fetch_outcome) (key : value) :
  blank (wallpaperPrompt r) = false ->
  get (settings r) "pollinationsApiKey" = Normal key ->
  truthy key = true ->
  result (handleGenerateWallpaper r fetch) = Normal tt /\
  requests (trace (handleGenerateWallpaper r fetch))
    = [post_request image_apiUrl key
         (image_payload (wallpaperPrompt r +:+ ", 16:9 background, wallpaper, 4k"))] /\
  generating_updates (trace (handleGenerateWallpaper r fetch)) = [true; false] /\
  (exists imageUrl,
     settings_updates (trace (handleGenerateWallpaper r fetch))
       = [SpreadPrev "wallpaper" imageUrl] /\
     truthy imageUrl = true) /\
  (forall st, isGeneratingWallpaper (fold_left App.apply (trace (handleGenerateWallpaper r fetch)) st)
              = false).
Proof.
  intros Hblank Hkey Htruthy. unfold handleGenerateWallpaper. cbn [truthy].
  destruct (String.eqb_spec (trim (wallpaperPrompt r)) "") as [E|E].
  { apply trim_empty_iff_blank in E. congruence. }
  cbn [negb]. rewrite Hkey. cbn [lift mbind M_bind]. rewrite Htruthy. cbn [negb].
  destruct (generate_body_cases r fetch
              (wallpaperPrompt r +:+ ", 16:9 background, wallpaper, 4k") key Hkey)
    as [(imageUrl & Hurl & ->) | (message & ->)]; cbn.
  - repeat split; try reflexivity.
    + exists imageUrl. split; [reflexivity | exact Hurl].
    + intros st. now destruct st.
  - repeat split; try reflexivity.
    + exists (VStr first_wallpaper_url). split; reflexivity.
    + intros st. now destruct st.
Qed.

Lemma wallpaper_run_shape_witness :
  generating_updates (trace (handleGenerateWallpaper prompted_state (FetchRejects "offline")))
    = [true; false] /\
  length (requests (trace (handleGenerateWallpaper prompted_state (FetchRejects "offline"))))
    = 1%nat.
Proof.
  destruct (wallpaper_run_shape prompted_state (FetchRejects "offline") (VStr "sk-test")
              eq_refl eq_refl eq_refl) as (_ & Hreq & Hbusy & _).
  split; [exact Hbusy | now rewrite Hreq].
Defined.

(** A 2xx answer with a truthy [url] applies that value as the wallpaper,
    whatever the settings held, shows the success message, empties the
    description and clears the busy flag; dispatched on a reachable state,
    the new settings are written through. *)
Theorem wallpaper_success_applies_url (r : State) (fetch : fetch_outcome) (key : value)
    (status : Z) (data imageUrl : value) :
  blank (wallpaperPrompt r) = false ->
  get (settings r) "pollinationsApiKey" = Normal key ->
  truthy key = true ->
  fetch = FetchResolves status (JsonResolves data) ->
  ok status = true ->
  get data "url" = Normal imageUrl ->
  truthy imageUrl = true ->
  forall st,
    get (settings (fold_left App.apply (trace (handleGenerateWallpaper r fetch)) st)) "wallpaper"
      = Normal imageUrl /\
    settingsMessage (fold_left App.apply (trace (handleGenerateWallpaper r fetch)) st)
      = Some "Wallpaper successfully generated and applied!" /\
    wallpaperPrompt (fold_left App.apply (trace (handleGenerateWallpaper r fetch)) st) = "" /\
    isGeneratingWallpaper (fold_left App.apply (trace (handleGenerateWallpaper r fetch)) st)
      = false /\
    (reachable st ->
     localStorage (dispatch st (trace (handleGenerateWallpaper r fetch))) !! "dashboardSettings"
       = Some (storage_text (Json.stringify (spread_with (settings st) "wallpaper" imageUrl)))).
Proof.
  intros Hblank Hkey Htruthy -> Hok Hurl Himage st.
  assert (Hrun : trace (handleGenerateWallpaper r (FetchResolves status (JsonResolves data))) =
                   [SetIsGeneratingWallpaper true;
                    SetSettingsMessage "Generating image... this may take up to a minute.";
                    Fetch (post_request image_apiUrl key
                             (image_payload
                                (wallpaperPrompt r +:+ ", 16:9 background, wallpaper, 4k")));
                    SetSettings (SpreadPrev "wallpaper" imageUrl);
                    SetSettingsMessage "Wallpaper successfully generated and applied!";
                    SetWallpaperPrompt "";
                    SetIsGeneratingWallpaper false]).
  { unfold handleGenerateWallpaper. cbn [truthy].
    destruct (String.eqb_spec (trim (wallpaperPrompt r)) "") as [E|E].
    { apply trim_empty_iff_blank in E. congruence. }
    cbn [negb]. rewrite Hkey. cbn [lift mbind M_bind]. rewrite Htruthy. cbn [negb].
    unfold generate_body. rewrite Hkey. cbn [lift mbind M_bind emit]. rewrite Hok.
    cbn. rewrite Hurl. cbn. rewrite Himage. reflexivity. }
  rewrite Hrun.
  assert (Hsettings : settings (fold_left App.apply
                        [SetIsGeneratingWallpaper true;
                         SetSettingsMessage "Generating image... this may take up to a minute.";
                         Fetch (post_request image_apiUrl key
                                  (image_payload
                                     (wallpaperPrompt r +:+ ", 16:9 background, wallpaper, 4k")));
                         SetSettings (SpreadPrev "wallpaper" imageUrl);
                         SetSettingsMessage "Wallpaper successfully generated and applied!";
                         SetWallpaperPrompt "";
                         SetIsGeneratingWallpaper false] st)
                      = spread_with (settings st) "wallpaper" imageUrl)
    by now destruct st.
  split; [rewrite Hsettings; apply get_spread_with|].
  split; [now destruct st|]. split; [now destruct st|]. split; [now destruct st|].
  intros Hst.
  destruct (dispatch_written_through st
              [SetIsGeneratingWallpaper true;
               SetSettingsMessage "Generating image... this may take up to a minute.";
               Fetch (post_request image_apiUrl key
                        (image_payload
                           (wallpaperPrompt r +:+ ", 16:9 background, wallpaper, 4k")));
               SetSettings (SpreadPrev "wallpaper" imageUrl);
               SetSettingsMessage "Wallpaper successfully generated and applied!";
               SetWallpaperPrompt "";
               SetIsGeneratingWallpaper false]
              (reachable_written_through st Hst)) as [-> _].
  do 3 f_equal. unfold dispatch, run_effects. now destruct st.
Qed.

Lemma wallpaper_success_applies_url_witness :
  get (settings (fold_left App.apply
                   (trace (handleGenerateWallpaper prompted_state
                             (FetchResolves 200
                                (JsonResolves (object [("url", VStr "https://img.example/1.png")])))))
                   prompted_state))
      "wallpaper" = Normal (VStr "https://img.example/1.png").
Proof.
  apply (wallpaper_success_applies_url prompted_state _ (VStr "sk-test") 200
           (object [("url", VStr "https://img.example/1.png")])
           (VStr "https://img.example/1.png")
           eq_refl eq_refl eq_refl eq_refl eq_refl eq_refl eq_refl prompted_state).
Defined.

(** ** The state after a trace *)

Lemma loading_updates_app t1 t2 :
  loading_updates (t1 ++ t2) = loading_updates t1 ++ loading_updates t2.
Proof. apply omap_app. Qed.

(** The snapshot held after a trace is the last one set, if any was. *)
Lemma weather_after t : forall st,
  weather (fold_left App.apply t st)
    = match last (snapshots t) with
      | Some w => Some w
      | None => weather st
      end.
Proof.
  induction t as [|e t IH]; intros st; [reflexivity|].
  cbn [fold_left]. rewrite IH.
  destruct e; try (destruct st; reflexivity).
  change (snapshots (SetWeather w :: t)) with (w :: snapshots t).
  rewrite last_cons.
  destruct (last (snapshots t)); [reflexivity | now destruct st].
Qed.

(** The loading flag after a trace is the last value given to it, if any
    was. *)
Lemma loadingWeather_after t : forall st,
  loadingWeather (fold_left App.apply t st)
    = match last (loading_updates t) with
      | Some b => b
      | None => loadingWeather st
      end.
Proof.
  induction t as [|e t IH]; intros st; [reflexivity|].
  cbn [fold_left]. rewrite IH.
  destruct e; try (destruct st; reflexivity).
  change (loading_updates (SetLoadingWeather b :: t)) with (b :: loading_updates t).
  rewrite last_cons.
  destruct (last (loading_updates t)); [reflexivity | now destruct st].
Qed.

(** ** One run of the weather refresher *)

Lemma try_ends_normally {A : Type} (body : M A) (handler : string -> M A)
    (finalizer : M unit) a :
  result body = Normal a ->
  result finalizer = Normal tt ->
  try_catch_finally body handler finalizer = (trace body ++ trace finalizer, Normal a).
Proof.
  destruct body as [t1 r1], finalizer as [t3 r3]. cbn. intros -> ->. reflexivity.
Qed.

Lemma one_snapshot_bind {A B : Type} (m : M A) (f : A -> M B) :
  weather_quiet m ->
  (forall a, one_snapshot_if_normal (f a)) ->
  one_snapshot_if_normal (m ≫= f).
Proof.
  unfold weather_quiet, one_snapshot_if_normal.
  destruct m as [t [a|]]; cbn [mbind M_bind result trace fst snd]; intros [Hl Hs] Hf; auto.
  specialize (Hf a). destruct (f a) as [t' c]. cbn [result trace fst snd] in *.
  destruct Hf as [Hl' Hs']. rewrite loading_updates_app, snapshots_app, Hl, Hs. auto.
Qed.

Ltac one_snapshot_steps :=
  repeat (apply one_snapshot_bind; [split; reflexivity | intros ?]).

(** The [try] block leaves the loading flag alone, and sets one snapshot
    when it ends normally and none when it throws. *)
Lemma weather_body_one_snapshot r position fetch :
  one_snapshot_if_normal (weather_body r position fetch).
Proof.
  unfold weather_body. one_snapshot_steps.
  apply one_snapshot_bind.
  - destruct (truthy _); [|split; reflexivity].
    destruct position as [|pos]; [split; reflexivity|].
    cbn [mbind M_bind emit].
    destruct (get pos "coords") as [coords|]; cbn; try (split; reflexivity).
    destruct (get coords "latitude"), (get coords "longitude"); split; reflexivity.
  - intros query. one_snapshot_steps.
    destruct fetch as [message|status json]; [split; reflexivity|].
    destruct (ok status); cbn [negb]; [|split; reflexivity].
    apply one_snapshot_bind; [now destruct json | intros data].
    one_snapshot_steps. split; reflexivity.
Qed.

(** Whenever the settings can be read, and once the position request and
    the network request it makes have settled, each granted or answered or
    rejected, one run of the weather refresher ends normally; it has set
    the loading flag to [true] and then to [false], and has set exactly
    one snapshot, so that afterwards the dashboard is not loading and
    shows that snapshot.  (A request that never settles is not among the
    outcomes: the source sets no timeout, and the loading flag stays set
    while it waits.) *)
Theorem weather_run_shape (r : State) (position : position_outcome) (fetch : fetch_outcome)
    (apiKey : value) :
  get (settings r) "apiKey" = Normal apiKey ->
  let run := fetchWeather r position fetch in
  result run = Normal tt /\
  loading_updates (trace run) = [true; false] /\
  exists w,
    snapshots (trace run) = [w] /\
    forall st,
      loadingWeather (fold_left App.apply (trace run) st) = false /\
      weather (fold_left App.apply (trace run) st) = Some w.
Proof.
  intros Hkey run.
  assert (Hshape : result run = Normal tt /\ loading_updates (trace run) = [true; false] /\
                   exists w, snapshots (trace run) = [w]).
  { subst run. destruct (truthy apiKey) eqn:Htruthy.
    - unfold fetchWeather. rewrite Hkey.
      cbn [lift mbind M_bind emit app]. rewrite Htruthy. cbn [negb].
      pose proof (weather_body_one_snapshot r position fetch) as [Hl Hs].
      destruct (result (weather_body r position fetch)) as [[]|message] eqn:Hbody.
      + rewrite (try_ends_normally _ _ (emit (SetLoadingWeather false)) tt Hbody eq_refl).
        cbn [result trace fst snd emit].
        change (loading_updates (SetLoadingWeather true :: ?t))
          with (true :: loading_updates t).
        change (snapshots (SetLoadingWeather true :: ?t)) with (snapshots t).
        rewrite !loading_updates_app, !snapshots_app, Hl.
        destruct (snapshots (trace (weather_body r position fetch))) as [|w [|]];
          try discriminate.
        cbn. eauto.
      + rewrite (try_throw _ _ (emit (SetLoadingWeather false)) message Hbody eq_refl).
        cbn [result trace fst snd emit].
        change (loading_updates (SetLoadingWeather true :: ?t))
          with (true :: loading_updates t).
        change (snapshots (SetLoadingWeather true :: ?t)) with (snapshots t).
        rewrite !loading_updates_app, !snapshots_app, Hl, Hs. cbn. eauto.
    - destruct (fetchWeather_mock r position fetch apiKey Hkey Htruthy) as (unit & _ & ->).
      cbn. eauto. }
  destruct Hshape as (Hr & Hl & w & Hs).
  split; [exact Hr|]. split; [exact Hl|]. exists w. split; [exact Hs|].
  intros st. rewrite loadingWeather_after, weather_after, Hl, Hs. split; reflexivity.
Qed.

Lemma weather_run_shape_witness :
  get (settings weather_keyed_state) "apiKey" = Normal (VStr "owm-test") /\
  result (fetchWeather weather_keyed_state PositionRejects (FetchResolves 503 (JsonRejects "")))
    = Normal tt.
Proof.
  split; [reflexivity|].
  apply (weather_run_shape weather_keyed_state PositionRejects
           (FetchResolves 503 (JsonRejects "")) (VStr "owm-test")).
  reflexivity.
Defined.

Ltac read_fields :=
  repeat match goal with
         | |- context [get ?v ?k] => destruct (get v k) eqn:?; cbn
         end.

(** What follows the request sends nothing more. *)
Ltac after_request fetch :=
  destruct fetch as [message|status [message|data]]; cbn;
    [ | destruct (ok status); cbn | destruct (ok status); cbn; read_fields ];
    try reflexivity.

Lemma position_at_fields latitude longitude :
  exists coords,
    get (position_at latitude longitude) "coords" = Normal coords /\
    get coords "latitude" = Normal latitude /\
    get coords "longitude" = Normal longitude.
Proof. eexists. repeat split; reflexivity. Qed.



Lemma weather_answer_fields t h description icon_id place speed :
  let data := weather_answer t h description icon_id place speed in
  exists main conditions first w,
    get data "main" = Normal main /\ get main "temp" = Normal t /\
    get main "humidity" = Normal h /\
    get data "weather" = Normal conditions /\ get conditions "0" = Normal first /\
    get first "description" = Normal description /\ get first "icon" = Normal icon_id /\
    get data "name" = Normal place /\
    get data "wind" = Normal w /\ get w "speed" = Normal speed.
Proof. do 4 eexists. repeat split; reflexivity. Qed.



(** ** Writing the settings to the store and reading them back *)

Import Reload.

Lemma string_app_cons x (a b : string) : String x a +:+ b = String x (a +:+ b).
Proof. reflexivity. Qed.

Lemma string_app_nil (b : string) : "" +:+ b = b.
Proof. reflexivity. Qed.

Ltac push_app := rewrite ?string_app_cons, ?string_app_nil.

Lemma string_app_assoc (a b c : string) : (a +:+ b) +:+ c = a +:+ (b +:+ c).
Proof.
  induction a as [|x a IH]; [reflexivity|]. rewrite !string_app_cons. now rewrite IH.
Qed.

Lemma string_app_length (a b : string) :
  String.length (a +:+ b) = (String.length a + String.length b)%nat.
Proof.
  induction a as [|x a IH]; [reflexivity|].
  rewrite string_app_cons. cbn [String.length]. now rewrite IH.
Qed.

Ltac norm_app :=
  repeat (rewrite string_app_assoc || rewrite string_app_cons || rewrite string_app_nil).

Lemma parse_chars_quote_char c fuel tail :
  Json.parse_chars (S fuel) (Json.quote_char c +:+ tail)
    = match Json.parse_chars fuel tail with
      | Json.Parsed text after => Json.Parsed (String c text) after
      | Json.SyntaxError => Json.SyntaxError
      | Json.NotCovered => Json.NotCovered
      end.
Proof.
  destruct c as [[] [] [] [] [] [] [] []]; reflexivity.
Qed.

Lemma quote_char_length c : (1 <= String.length (Json.quote_char c))%nat.
Proof. destruct c as [[] [] [] [] [] [] [] []]; vm_compute; lia. Qed.

Lemma quote_chars_length s : (String.length s <= String.length (Json.quote_chars s))%nat.
Proof.
  induction s as [|c s IH]; [reflexivity|].
  cbn [Json.quote_chars String.length]. rewrite string_app_length.
  pose proof (quote_char_length c). lia.
Qed.

Lemma parse_chars_quote s : forall fuel rest,
  (String.length s < fuel)%nat ->
  Json.parse_chars fuel (Json.quote_chars s +:+ String (ascii_of_N 34) rest)
    = Json.Parsed s rest.
Proof.
  induction s as [|c s IH]; intros fuel rest Hfuel.
  - destruct fuel; [cbn in Hfuel; lia | reflexivity].
  - destruct fuel as [|fuel]; [cbn in Hfuel; lia|].
    cbn [Json.quote_chars]. rewrite string_app_assoc, parse_chars_quote_char.
    rewrite IH; [reflexivity | cbn in Hfuel; lia].
Qed.

Lemma parse_string_quote s rest :
  Json.parse_string (Json.quote_chars s +:+ String (ascii_of_N 34) rest) = Json.Parsed s rest.
Proof.
  unfold Json.parse_string. apply parse_chars_quote.
  rewrite string_app_length. pose proof (quote_chars_length s). lia.
Qed.

Lemma substring_all s : substring 0 (String.length s) s = s.
Proof. induction s as [|c s IH]; [reflexivity|]. cbn. now rewrite IH. Qed.

Lemma prefix_app word rest : String.prefix word (word +:+ rest) = true.
Proof.
  induction word as [|c word IH]; [now destruct rest|].
  rewrite string_app_cons. cbn. now destruct (ascii_dec c c).
Qed.

Lemma substring_app word rest :
  substring (String.length word) (String.length rest) (word +:+ rest) = rest.
Proof.
  induction word as [|c word IH]; [apply substring_all|].
  rewrite string_app_cons. exact IH.
Qed.

Lemma expect_word word v rest : Json.expect word v (word +:+ rest) = Json.Parsed v rest.
Proof.
  unfold Json.expect. rewrite prefix_app, string_app_length.
  replace (String.length word + String.length rest - String.length word)%nat
    with (String.length rest) by lia.
  now rewrite substring_app.
Qed.

(** A plain value is read back from its text, whatever follows. *)
Lemma parse_value_plain v fuel rest :
  plain v = true ->
  exists text,
    Json.stringify v = Some text /\
    Json.parse_value (S fuel) (text +:+ rest) = Json.Parsed v rest.
Proof.
  destruct v as [| |[]| |s| |]; try discriminate; intros _; eexists; (split; [reflexivity|]).
  - exact (expect_word "null" VNull rest).
  - exact (expect_word "true" (VBool true) rest).
  - exact (expect_word "false" (VBool false) rest).
  - unfold Json.quote. rewrite string_app_cons, string_app_assoc.
    change (Json.parse_value (S fuel) (String (ascii_of_N 34) ?t))
      with (match Json.parse_string t with
            | Json.Parsed text after => Json.Parsed (VStr text) after
            | Json.SyntaxError => Json.SyntaxError
            | Json.NotCovered => Json.NotCovered
            end).
    push_app. now rewrite parse_string_quote.
Qed.

Lemma parse_members_step fuel first props s :
  Json.parse_members (S fuel) first props s
    = match Json.skip_space s with
      | String c rest =>
          if first && (code c =? 125) then Json.Parsed (VObj []) rest
          else if code c =? 34 then
            match Json.parse_string rest with
            | Json.Parsed key after =>
                match Json.skip_space after with
                | String colon s1 =>
                    if code colon =? 58 then
                      match Json.parse_value fuel s1 with
                      | Json.Parsed v s2 =>
                          match Json.skip_space s2 with
                          | String d more =>
                              if code d =? 44
                              then Json.parse_members fuel false (define props key v) more
                              else if code d =? 125
                              then Json.Parsed (VObj (define props key v)) more
                              else Json.SyntaxError
                          | "" => Json.SyntaxError
                          end
                      | Json.SyntaxError => Json.SyntaxError
                      | Json.NotCovered => Json.NotCovered
                      end
                    else Json.SyntaxError
                | "" => Json.SyntaxError
                end
            | Json.SyntaxError => Json.SyntaxError
            | Json.NotCovered => Json.NotCovered
            end
          else Json.SyntaxError
      | "" => Json.SyntaxError
      end.
Proof. reflexivity. Qed.

Lemma skip_space_head c rest :
  Json.is_json_space c = false -> Json.skip_space (String c rest) = String c rest.
Proof. intros H. cbn [Json.skip_space]. now rewrite H. Qed.

(** One member, followed by a comma or by the closing brace. *)
Lemma parse_member fuel first props k x d more :
  plain x = true ->
  Json.is_json_space d = false ->
  Json.parse_members (S (S fuel)) first props (member_text (k, x) +:+ String d more)
    = if code d =? 44 then Json.parse_members (S fuel) false (define props k x) more
      else if code d =? 125 then Json.Parsed (VObj (define props k x)) more
      else Json.SyntaxError.
Proof.
  intros Hplain Hd.
  destruct (parse_value_plain x fuel (String d more) Hplain) as (text & Htext & Hparse).
  unfold member_text. cbn [fst snd]. rewrite Htext. cbn [from_option id].
  unfold Json.quote. norm_app.
  rewrite parse_members_step, skip_space_head by reflexivity.
  change (code (ascii_of_N 34) =? 125) with false.
  change (code (ascii_of_N 34) =? 34) with true.
  rewrite andb_false_r. cbv iota.
  rewrite parse_string_quote, skip_space_head by reflexivity.
  change (code ":" =? 58) with true. cbv iota.
  rewrite Hparse, skip_space_head by exact Hd. reflexivity.
Qed.

Lemma parse_members_all : forall ps first props fuel rest,
  ps <> [] ->
  forallb (fun p => plain (snd p)) ps = true ->
  (length ps < fuel)%nat ->
  Json.parse_members fuel first props
      (join "," (map member_text ps) +:+ String "}" rest)
    = Json.Parsed (VObj (fold_left (fun props '(k, v) => define props k v) ps props)) rest.
Proof.
  induction ps as [|[k x] ps IH]; intros first props fuel rest Hne Hplain Hfuel; [done|].
  cbn [forallb snd] in Hplain. apply andb_prop in Hplain as [Hx Hps].
  destruct fuel as [|[|fuel]]; [cbn in Hfuel; lia | cbn in Hfuel; lia |].
  destruct ps as [|q ps].
  - cbn [map join fold_left]. now rewrite parse_member.
  - change (join "," (map member_text ((k, x) :: q :: ps)))
      with (member_text (k, x) +:+ "," +:+ join "," (map member_text (q :: ps))).
    rewrite !string_app_assoc, string_app_cons, string_app_nil.
    rewrite parse_member by (exact Hx || reflexivity).
    change (code "," =? 44) with true. cbv iota.
    rewrite IH; [reflexivity | discriminate | exact Hps | cbn [length] in *; lia].
Qed.

Lemma stringify_members ps :
  forallb (fun p => plain (snd p)) ps = true ->
  omap (fun '(k, x) => match Json.stringify x with
                       | Some text => Some (Json.quote k +:+ ":" +:+ text)
                       | None => None
                       end) ps
    = map member_text ps.
Proof.
  induction ps as [|[k x] ps IH]; [reflexivity|].
  cbn [forallb snd]. intros [Hx Hps]%andb_prop.
  cbn [omap list_omap map]. rewrite (IH Hps).
  unfold member_text at 2. cbn [fst snd].
  now destruct x as [| |[]| |s| |].
Qed.

Lemma member_text_length p : (1 <= String.length (member_text p))%nat.
Proof. unfold member_text, Json.quote. rewrite string_app_cons. cbn [String.length]. lia. Qed.

Lemma join_length ps :
  (length ps <= String.length (join "," (map member_text ps)))%nat.
Proof.
  induction ps as [|p [|q ps] IH]; [reflexivity | |].
  - cbn [map join length]. apply member_text_length.
  - change (join "," (map member_text (p :: q :: ps)))
      with (member_text p +:+ "," +:+ join "," (map member_text (q :: ps))).
    rewrite !string_app_length. pose proof (member_text_length p).
    cbn [length] in *. lia.
Qed.

Lemma assoc_app_none key props extra :
  assoc key props = None -> assoc key (props ++ extra) = assoc key extra.
Proof.
  induction props as [|[k w] rest IH]; cbn; [reflexivity|].
  destruct (String.eqb k key); [discriminate | exact IH].
Qed.

(** Defining fresh names one after the other appends them in order. *)
Lemma fold_define_fresh : forall ps acc,
  forallb (fun p => named (fst p)) ps = true ->
  distinct (map fst ps) = true ->
  (forall p, In p ps -> assoc (fst p) acc = None) ->
  fold_left (fun props '(k, v) => define props k v) ps acc = acc ++ ps.
Proof.
  induction ps as [|[k x] ps IH]; intros acc Hnamed Hdistinct Hfresh.
  - now rewrite app_nil_r.
  - cbn [forallb fst] in Hnamed. apply andb_prop in Hnamed as [Hk Hnamed].
    cbn [map fst distinct] in Hdistinct. apply andb_prop in Hdistinct as [Hnew Hdistinct].
    cbn [fold_left].
    assert (Hdef : define acc k x = acc ++ [(k, x)]).
    { unfold define. pose proof (Hfresh (k, x) (or_introl eq_refl)) as Hnone.
      cbn [fst] in Hnone. rewrite Hnone.
      unfold named in Hk. now destruct (array_index k). }
    rewrite Hdef, IH; [now rewrite <- app_assoc | exact Hnamed | exact Hdistinct |].
    intros [k' x'] Hin. cbn [fst].
    rewrite assoc_app_none by (apply (Hfresh (k', x')); now right).
    cbn. destruct (String.eqb k k') eqn:E; [|reflexivity].
    apply negb_true_iff in Hnew. exfalso.
    assert (existsb (String.eqb k) (map fst ps) = true); [|congruence].
    apply existsb_exists. exists k'. split; [|exact E].
    apply in_map_iff. now exists (k', x').
Qed.

(** The text of a flat record reads back as the record. *)
Lemma json_round_trip v :
  flat_record v = true ->
  exists text,
    Json.stringify v = Some text /\
    truthy (VStr text) = true /\
    Json.parse text = Some (Normal v).
Proof.
  destruct v as [| | | | | |props]; try discriminate.
  cbn [flat_record]. intros [Hfields Hdistinct]%andb_prop.
  assert (Hplain : forallb (fun p => plain (snd p)) props = true).
  { apply forallb_forall. intros [k x] Hin.
    apply (proj1 (forallb_forall _ _) Hfields) in Hin. now apply andb_prop in Hin. }
  assert (Hnamed : forallb (fun p => named (fst p)) props = true).
  { apply forallb_forall. intros [k x] Hin.
    apply (proj1 (forallb_forall _ _) Hfields) in Hin. now apply andb_prop in Hin. }
  eexists. split; [cbn [Json.stringify]; rewrite (stringify_members _ Hplain); reflexivity|].
  split; [reflexivity|].
  unfold Json.parse. rewrite string_app_cons, string_app_nil.
  set (body := join "," (map member_text props) +:+ "}").
  assert (Hlen : (length props < 2 * String.length (String "{" body) + 1)%nat).
  { subst body. cbn [String.length]. rewrite string_app_length.
    pose proof (join_length props). lia. }
  replace (2 * String.length (String "{" body) + 2)%nat
    with (S (2 * String.length (String "{" body) + 1)) by lia.
  change (Json.parse_value (S ?f) (String "{" body))
    with (Json.parse_members f true [] body).
  subst body. destruct props as [|p props].
  - destruct (2 * _ + 1)%nat; [lia | reflexivity].
  - rewrite parse_members_all by (discriminate || assumption).
    rewrite fold_define_fresh; [reflexivity | exact Hnamed | exact Hdistinct | reflexivity].
Qed.

(** ** Reloading the page *)

Lemma written_through_load_notes st :
  written_through st -> load_notes (localStorage st) = notes st.
Proof.
  intros [_ Hnotes]. unfold load_notes. rewrite Hnotes.
  destruct (notes st); reflexivity.
Qed.

(** In every state the component reaches, the notes initialiser
    over the store gives back the notes: a reload shows the notes as they
    were, also when they are empty. *)
Theorem notes_survive_reload (st : State) :
  reachable st -> load_notes (localStorage st) = notes st.
Proof. intros Hreach. now apply written_through_load_notes, reachable_written_through. Qed.

Lemma notes_survive_reload_witness :
  load_notes (localStorage (dispatch fresh_state [SetNotes "buy milk"])) = "buy milk".
Proof.
  apply (notes_survive_reload (dispatch fresh_state [SetNotes "buy milk"])).
  apply reachable_dispatch, reachable_fresh.
Defined.

(** In every state the component reaches whose settings are a flat
    record (plain fields under distinct names that are not array indices),
    mounting the component again over the store succeeds and starts from
    the same settings and the same notes, and leaves the store as it
    is. *)
Theorem settings_survive_reload (st : State) :
  reachable st ->
  flat_record (settings st) = true ->
  exists st',
    mount (localStorage st) = Some (Normal st') /\
    settings st' = settings st /\
    notes st' = notes st /\
    localStorage st' = localStorage st.
Proof.
  intros Hreach Hflat.
  pose proof (reachable_written_through st Hreach) as Hwritten.
  pose proof (written_through_load_notes st Hwritten) as Hnotes.
  destruct Hwritten as [Hs Hn].
  destruct (json_round_trip _ Hflat) as (text & Htext & Htruthy & Hparse).
  rewrite Htext in Hs. cbn [storage_text from_option id] in Hs.
  unfold mount, load_settings. rewrite Hs, Htruthy, Hparse.
  eexists. split; [reflexivity|]. cbn [settings notes localStorage].
  split; [reflexivity|]. split; [exact Hnotes|].
  unfold persist_notes, persist_settings. rewrite Hnotes, Htext.
  cbn [storage_text from_option id].
  rewrite (insert_id (localStorage st) _ _ Hs).
  now rewrite (insert_id (localStorage st) _ _ Hn).
Qed.

Lemma settings_survive_reload_witness :
  flat_record (settings renamed_state) = true /\
  exists st',
    mount (localStorage renamed_state) = Some (Normal st') /\
    settings st' = settings renamed_state /\
    notes st' = notes renamed_state /\
    localStorage st' = localStorage renamed_state.
Proof.
  split; [reflexivity|].
  apply (settings_survive_reload renamed_state).
  - apply reachable_dispatch, reachable_fresh.
  - reflexivity.
Defined.

(** ** A change in the settings panel *)

Lemma assoc_replace_ne key k x props :
  String.eqb k key = false -> assoc k (replace key x props) = assoc k props.
Proof.
  intros Hne. induction props as [|[k' w] rest IH]; [reflexivity|]. cbn.
  destruct (String.eqb k' key) eqn:E; cbn.
  - apply String.eqb_eq in E as ->.
    rewrite String.eqb_sym in Hne. now rewrite Hne.
  - now rewrite IH.
Qed.

Lemma assoc_insert_index_ne i key k x props :
  String.eqb k key = false -> assoc k (insert_index i key x props) = assoc k props.
Proof.
  intros Hne. rewrite String.eqb_sym in Hne.
  induction props as [|[k' w] rest IH]; cbn.
  - now rewrite Hne.
  - destruct (array_index k') as [j|]; [destruct (j <? i)|]; cbn; rewrite ?Hne, ?IH; reflexivity.
Qed.

Lemma assoc_app_ne key k x props :
  String.eqb k key = false -> assoc k (props ++ [(key, x)]) = assoc k props.
Proof.
  intros Hne. rewrite String.eqb_sym in Hne.
  induction props as [|[k' w] rest IH]; cbn.
  - now rewrite Hne.
  - now rewrite IH.
Qed.

(** Defining one property leaves the others as they are. *)
Lemma assoc_define_ne key k x props :
  String.eqb k key = false -> assoc k (define props key x) = assoc k props.
Proof.
  intros Hne. unfold define. destruct (assoc key props).
  - now apply assoc_replace_ne.
  - destruct (array_index key); [now apply assoc_insert_index_ne | now apply assoc_app_ne].
Qed.

Lemma replace_names key x props : map fst (replace key x props) = map fst props.
Proof.
  induction props as [|[k w] rest IH]; [reflexivity|]. cbn.
  destruct (String.eqb k key); cbn; [reflexivity | now rewrite IH].
Qed.

Lemma replace_fields key x props :
  named key && plain x = true ->
  forallb (fun '(k, v) => named k && plain v) props = true ->
  forallb (fun '(k, v) => named k && plain v) (replace key x props) = true.
Proof.
  intros Hx. induction props as [|[k w] rest IH]; [reflexivity|]. cbn [forallb replace].
  intros [Hk Hrest]%andb_prop.
  destruct (String.eqb k key) eqn:E; cbn [forallb].
  - apply String.eqb_eq in E as ->. now rewrite Hx, Hrest.
  - now rewrite Hk, IH.
Qed.

Lemma assoc_none_fresh key props :
  assoc key props = None -> existsb (String.eqb key) (map fst props) = false.
Proof.
  induction props as [|[k w] rest IH]; [reflexivity|]. cbn.
  rewrite (String.eqb_sym key k).
  destruct (String.eqb k key); [discriminate | exact IH].
Qed.

Lemma distinct_snoc key keys :
  existsb (String.eqb key) keys = false ->
  distinct keys = true -> distinct (keys ++ [key]) = true.
Proof.
  induction keys as [|k rest IH]; [reflexivity|]. cbn [existsb distinct app].
  intros [Hk Hrest]%orb_false_elim [Hnew Hdistinct]%andb_prop.
  rewrite (IH Hrest Hdistinct), andb_true_r.
  rewrite existsb_app, negb_orb, Hnew. cbn. rewrite String.eqb_sym in Hk. now rewrite Hk.
Qed.

(** [{...settings, key: x}] over a flat record, for a plain value under a
    name: the record with the property defined, still flat. *)
Lemma spread_with_flat v key x :
  flat_record v = true -> named key = true -> plain x = true ->
  exists props,
    v = VObj props /\
    spread_with v key x = VObj (define props key x) /\
    flat_record (spread_with v key x) = true.
Proof.
  destruct v as [| | | | | |props]; try discriminate.
  intros Hflat Hkey Hx. exists props. split; [reflexivity|].
  pose proof Hflat as [Hfields Hdistinct]%andb_prop.
  assert (Hsame : spread_with (VObj props) key x = VObj (define props key x)).
  { unfold spread_with. cbn [own_properties]. rewrite object_snoc.
    rewrite fold_define_fresh; [reflexivity | | exact Hdistinct | reflexivity].
    apply forallb_forall. intros [k w] Hin.
    apply (proj1 (forallb_forall _ _) Hfields) in Hin. now apply andb_prop in Hin. }
  split; [exact Hsame|]. rewrite Hsame. cbn [flat_record].
  unfold define. destruct (assoc key props) eqn:E.
  - rewrite replace_names, Hdistinct, andb_true_r.
    apply replace_fields; [now rewrite Hkey, Hx | exact Hfields].
  - assert (Hi : array_index key = None).
    { unfold named in Hkey. now destruct (array_index key). }
    rewrite Hi, forallb_app, Hfields, map_app. cbn [forallb map fst].
    rewrite Hkey, Hx. cbn [andb].
    apply distinct_snoc; [now apply assoc_none_fresh | exact Hdistinct].
Qed.

Lemma dispatch_change_setting r key x :
  let st := dispatch r (change_setting r key x) in
  settings st = spread_with (settings r) key x /\
  notes st = notes r /\
  localStorage st = persist_settings (spread_with (settings r) key x) (localStorage r).
Proof.
  destruct r. unfold dispatch, change_setting, run_effects. cbn.
  rewrite String.eqb_refl.
  replace (Nat.eqb settings_ref0 (S settings_ref0)) with false; [auto|].
  symmetry. apply Nat.eqb_neq. lia.
Qed.

Lemma change_setting_reads r key x :
  flat_record (settings r) = true ->
  named key = true ->
  plain x = true ->
  let st := dispatch r (change_setting r key x) in
  get (settings st) key = Normal x /\
  (forall k, k <> key -> get (settings st) k = get (settings r) k) /\
  flat_record (settings st) = true.
Proof.
  intros Hflat Hkey Hx st.
  destruct (dispatch_change_setting r key x) as (Hs & _). fold st in Hs.
  destruct (spread_with_flat _ key x Hflat Hkey Hx) as (props & Hprops & Hspread & Hflat').
  rewrite Hs. split; [apply get_spread_with|]. split; [|exact Hflat'].
  intros k Hne. rewrite Hspread, Hprops. cbn [get].
  rewrite assoc_define_ne; [reflexivity|]. now apply String.eqb_neq.
Qed.

(** A change made in the settings panel to a flat record, of a
    plain value under a name: afterwards the changed field reads as the
    new value and every other field reads as before, the record is still
    flat, the notes are untouched, and the store holds the text of the new
    settings under [dashboardSettings] and is otherwise as it was. *)
Theorem panel_change_is_local (r : State) (key : string) (x : value) :
  flat_record (settings r) = true ->
  named key = true ->
  plain x = true ->
  let st := dispatch r (change_setting r key x) in
  get (settings st) key = Normal x /\
  (forall k, k <> key -> get (settings st) k = get (settings r) k) /\
  flat_record (settings st) = true /\
  notes st = notes r /\
  exists text,
    Json.stringify (settings st) = Some text /\
    localStorage st = <["dashboardSettings" := text]> (localStorage r).
Proof.
  intros Hflat Hkey Hx st.
  destruct (dispatch_change_setting r key x) as (Hs & Hn & Hl). fold st in Hs, Hn, Hl.
  destruct (change_setting_reads r key x Hflat Hkey Hx) as (Hget & Hframe & Hflat').
  fold st in Hget, Hframe, Hflat'.
  split; [exact Hget|]. split; [exact Hframe|].
  split; [exact Hflat'|]. split; [exact Hn|].
  destruct (json_round_trip _ Hflat') as (text & Htext & _).
  exists text. split; [exact Htext|].
  rewrite Hl, <- Hs. unfold persist_settings. now rewrite Htext.
Qed.

Lemma panel_change_is_local_witness :
  flat_record (settings fresh_state) = true /\
  get (settings (dispatch fresh_state
                   (change_setting fresh_state "isAutoLocation" (VBool true))))
      "isAutoLocation" = Normal (VBool true).
Proof.
  split; [reflexivity|].
  apply (panel_change_is_local fresh_state "isAutoLocation" (VBool true)); reflexivity.
Defined.

(** ** The search box *)

Import SearchBox.

Lemma first_unit_encode c rest :
  first_unit (encode_unit c +:+ rest) = Some (c, rest).
Proof. destruct c as [[] [] [] [] [] [] [] []]; reflexivity. Qed.

(** Two queries with the same encoding are the same query: the
    address of a search determines what was searched for. *)
Theorem encodeURIComponent_injective (q1 q2 : string) :
  encodeURIComponent q1 = encodeURIComponent q2 -> q1 = q2.
Proof.
  revert q2. induction q1 as [|c1 q1 IH]; intros [|c2 q2] H.
  - reflexivity.
  - cbn [encodeURIComponent] in H.
    pose proof (first_unit_encode c2 (encodeURIComponent q2)) as Hc. now rewrite <- H in Hc.
  - cbn [encodeURIComponent] in H.
    pose proof (first_unit_encode c1 (encodeURIComponent q1)) as Hc. now rewrite H in Hc.
  - cbn [encodeURIComponent] in H.
    pose proof (first_unit_encode c1 (encodeURIComponent q1)) as Hc.
    rewrite H, first_unit_encode in Hc. injection Hc as -> Hrest.
    f_equal. apply IH. now symmetry.
Qed.

Lemma encodeURIComponent_injective_witness :
  encodeURIComponent "tides & moon?" = "tides%20%26%20moon%3F" /\ "tides & moon?" = "tides & moon?".
Proof.
  split; [reflexivity|].
  apply (encodeURIComponent_injective "tides & moon?" "tides & moon?"). reflexivity.
Defined.

(** Submitting the search box always prevents the form's default.
    With an empty or white-space-only query it does nothing else; with any
    other query it navigates once, to the Google search of the query as
    typed (not trimmed), encoded.  A voice result is not checked: it
    navigates whatever the transcript, the empty one included. *)
Theorem search_navigations (query : string) :
  (blank query = true -> handleSearch query = [PreventDefault]) /\
  (blank query = false ->
     handleSearch query =
       [PreventDefault;
        Navigate ("https://www.google.com/search?q=" +:+ encodeURIComponent query)]) /\
  navigations (onresult query)
    = ["https://www.google.com/search?q=" +:+ encodeURIComponent query].
Proof.
  unfold handleSearch. cbn [truthy]. split; [|split; [|reflexivity]].
  - intros H. apply trim_empty_iff_blank in H. now rewrite H.
  - intros H. destruct (String.eqb_spec (trim query) "") as [E|E]; [|reflexivity].
    apply trim_empty_iff_blank in E. congruence.
Qed.

(** ** The digital clock *)

Import Clock.

(** A check that holds on all pairs below [n] holds on each. *)
Lemma range_check (P : Z -> Z -> bool) (n : nat) :
  forallb (fun a => forallb (fun b => P (Z.of_nat a) (Z.of_nat b)) (seq 0 n)) (seq 0 n) = true ->
  forall a b, 0 <= a < Z.of_nat n -> 0 <= b < Z.of_nat n -> P a b = true.
Proof.
  intros H a b Ha Hb.
  pose proof (proj1 (forallb_forall _ _) H (Z.to_nat a)) as H1. cbv beta in H1.
  assert (Hina : In (Z.to_nat a) (seq 0 n)) by (apply in_seq; lia).
  pose proof (proj1 (forallb_forall _ _) (H1 Hina) (Z.to_nat b)) as H2. cbv beta in H2.
  assert (Hinb : In (Z.to_nat b) (seq 0 n)) by (apply in_seq; lia).
  specialize (H2 Hinb). now rewrite !Z2Nat.id in H2 by lia.
Qed.

(** Two texts with a colon after a colon-free part agree only part by
    part. *)
Lemma split_at_colon : forall a b x y,
  colon_free a = true -> colon_free b = true ->
  a +:+ String ":" x = b +:+ String ":" y -> a = b /\ x = y.
Proof.
  unfold colon_free.
  induction a as [|c a IH]; intros [|c' b] x y Ha Hb H.
  - rewrite !string_app_nil in H. now injection H.
  - rewrite string_app_nil, string_app_cons in H. injection H as <- _.
    cbn in Hb. discriminate.
  - rewrite string_app_nil, string_app_cons in H. injection H as -> _.
    cbn in Ha. discriminate.
  - rewrite !string_app_cons in H. injection H as -> H.
    cbn [list_ascii_of_string forallb] in Ha, Hb.
    apply andb_prop in Ha as [_ Ha]. apply andb_prop in Hb as [_ Hb].
    destruct (IH b x y Ha Hb H) as [-> ->]. auto.
Qed.

Lemma minute_texts a b :
  0 <= a < 60 -> 0 <= b < 60 ->
  String.length (minute_text a) = 2%nat /\
  (minute_text a = minute_text b -> a = b).
Proof.
  intros Ha Hb.
  pose proof (range_check
    (fun a b => (String.length (minute_text a) =? 2)%nat
                && implb (String.eqb (minute_text a) (minute_text b)) (a =? b)) 60) as H.
  specialize (H ltac:(vm_compute; reflexivity) a b Ha Hb). cbv beta in H.
  apply andb_prop in H as [Hlen Hinj]. split; [now apply Nat.eqb_eq|].
  intros E. rewrite E, String.eqb_refl in Hinj. cbn in Hinj. now apply Z.eqb_eq.
Qed.

Lemma hour_texts a b :
  0 <= a < 24 -> 0 <= b < 24 ->
  let text h := padStart 2 "0" (number_to_string (of_Z h)) in
  String.length (text a) = 2%nat /\ colon_free (text a) = true /\
  (text a = text b -> a = b).
Proof.
  intros Ha Hb text.
  pose proof (range_check
    (fun a b => (String.length (text a) =? 2)%nat && colon_free (text a)
                && implb (String.eqb (text a) (text b)) (a =? b)) 24) as H.
  specialize (H ltac:(vm_compute; reflexivity) a b Ha Hb). cbv beta in H.
  apply andb_prop in H as [H Hinj]. apply andb_prop in H as [Hlen Hfree].
  split; [now apply Nat.eqb_eq|]. split; [exact Hfree|].
  intros E. rewrite E, String.eqb_refl in Hinj. cbn in Hinj. now apply Z.eqb_eq.
Qed.

Lemma dial_texts a b :
  0 <= a < 24 -> 0 <= b < 24 ->
  let text h := number_to_string (of_Z (dial_hour h)) in
  1 <= dial_hour a <= 12 /\ colon_free (text a) = true /\
  (text a = text b -> Z.rem a 12 = Z.rem b 12).
Proof.
  intros Ha Hb text.
  pose proof (range_check
    (fun a b => (1 <=? dial_hour a) && (dial_hour a <=? 12) && colon_free (text a)
                && implb (String.eqb (text a) (text b)) (Z.rem a 12 =? Z.rem b 12)) 24) as H.
  specialize (H ltac:(vm_compute; reflexivity) a b Ha Hb). cbv beta in H.
  apply andb_prop in H as [H Hinj]. apply andb_prop in H as [H Hfree].
  apply andb_prop in H as [H1 H2].
  split; [split; [now apply Z.leb_le | now apply Z.leb_le]|]. split; [exact Hfree|].
  intros E. rewrite E, String.eqb_refl in Hinj. cbn in Hinj. now apply Z.eqb_eq.
Qed.

Lemma valid_bounds d :
  valid d = true -> 0 <= getHours d < 24 /\ 0 <= getMinutes d < 60.
Proof.
  unfold valid. intros H. apply andb_prop in H as [H Hm2]. apply andb_prop in H as [H Hm1].
  apply andb_prop in H as [Hh1 Hh2]. lia.
Qed.



(** With the 24-hour setting off, the clock shows an hour from 1 to
    12 and no AM or PM: two dates have the same text exactly when their
    minutes agree and their hours agree or are twelve apart. *)
Theorem clock_12_is_a_dial (d d' : Date) (is24 : value) :
  valid d = true -> valid d' = true -> truthy is24 = false ->
  (exists hour,
     1 <= hour <= 12 /\
     formatTime d is24
       = number_to_string (of_Z hour) +:+ ":"
           +:+ padStart 2 "0" (number_to_string (of_Z (getMinutes d)))) /\
  (formatTime d is24 = formatTime d' is24 <->
   Z.rem (getHours d) 12 = Z.rem (getHours d') 12 /\ getMinutes d = getMinutes d').
Proof.
  intros [Hh Hm]%valid_bounds [Hh' Hm']%valid_bounds Hfalsy.
  unfold formatTime. rewrite Hfalsy. cbn [negb]. fold (minute_text (getMinutes d)).
  fold (minute_text (getMinutes d')). fold (dial_hour (getHours d)).
  fold (dial_hour (getHours d')).
  destruct (dial_texts _ _ Hh Hh') as (Hrange & Hfree & Hinj).
  destruct (dial_texts _ _ Hh' Hh) as (_ & Hfree' & _).
  destruct (minute_texts _ _ Hm Hm') as (_ & Hminj).
  cbv zeta in Hfree, Hinj, Hfree'.
  split; [exists (dial_hour (getHours d)); split; [exact Hrange | reflexivity]|].
  split.
  - rewrite !string_app_cons, !string_app_nil. intros E.
    apply split_at_colon in E as [E1 E2]; [|assumption..]. auto.
  - intros [E1 E2]. unfold dial_hour. now rewrite E1, E2.
Qed.

Lemma clock_12_is_a_dial_witness :
  valid {| getHours := 0; getMinutes := 30 |} = true /\
  formatTime {| getHours := 0; getMinutes := 30 |} (VBool false)
    = formatTime {| getHours := 12; getMinutes := 30 |} (VBool false).
Proof.
  split; [reflexivity|].
  apply (clock_12_is_a_dial {| getHours := 0; getMinutes := 30 |}
           {| getHours := 12; getMinutes := 30 |} (VBool false)); try reflexivity.
  split; reflexivity.
Defined.

(** ** When the weather is fetched again *)

Import Effects.

Lemma assoc_flat key props x :
  forallb (fun '(k, v) => named k && plain v) props = true ->
  assoc key props = Some x -> plain x = true.
Proof.
  induction props as [|[k w] rest IH]; [discriminate|]. cbn [forallb assoc].
  intros [Hk Hrest]%andb_prop. destruct (String.eqb k key).
  - intros [= <-]. now apply andb_prop in Hk.
  - now apply IH.
Qed.

(** A field of a flat record reads as a plain value or as [undefined]. *)
Lemma flat_record_get v key :
  flat_record v = true ->
  exists x, get v key = Normal x /\ (plain x = true \/ x = VUndefined).
Proof.
  destruct v as [| | | | | |props]; try discriminate.
  cbn [flat_record get]. intros [Hfields _]%andb_prop.
  destruct (assoc key props) as [x|] eqn:E; cbn; eauto using assoc_flat.
Qed.

Lemma same_value_refl x : plain x = true \/ x = VUndefined -> same_value x x = Some true.
Proof.
  intros [H| ->]; [|reflexivity].
  destruct x as [| |[]| |s| |]; try discriminate; cbn; try reflexivity.
  now rewrite String.eqb_refl.
Qed.

Lemma same_value_plain old x :
  plain old = true \/ old = VUndefined -> plain x = true ->
  exists b, same_value old x = Some b.
Proof.
  intros [H| ->] Hx.
  - destruct old as [| |?| |?| |], x as [| |?| |?| |]; try discriminate; cbn; eauto.
  - destruct x as [| |?| |?| |]; try discriminate; cbn; eauto.
Qed.

(** After a change in the settings panel (a plain value under a
    name, over flat settings) the weather is fetched again exactly when
    the changed field is one of [location], [apiKey], [unit] and
    [isAutoLocation] and its new value is not the old one: a change to any
    other field never refetches, and setting one of the four to the value
    it has does not either. *)
Theorem weather_refetched_on_change (r : State) (key : string) (x : value) :
  flat_record (settings r) = true ->
  named key = true ->
  plain x = true ->
  let st := dispatch r (change_setting r key x) in
  exists old same,
    get (settings r) key = Normal old /\
    same_value old x = Some same /\
    weather_effect_runs r st
      = Some (if existsb (String.eqb key) ["location"; "apiKey"; "unit"; "isAutoLocation"]
              then negb same else false).
Proof.
  intros Hflat Hkey Hx st.
  destruct (change_setting_reads r key x Hflat Hkey Hx) as (Hget & Hframe & _).
  fold st in Hget, Hframe.
  destruct (flat_record_get _ key Hflat) as (old & Hold & Hplain).
  destruct (same_value_plain old x Hplain Hx) as (same & Hsame).
  exists old, same. split; [exact Hold|]. split; [exact Hsame|].
  assert (Hread : forall k, exists v,
            get (settings r) k = Normal v /\ same_value v v = Some true /\
            get (settings st) k = Normal (if String.eqb key k then x else v) /\
            (String.eqb key k = true -> v = old)).
  { intros k. destruct (flat_record_get _ k Hflat) as (v & Hv & Pv).
    exists v. split; [exact Hv|]. split; [now apply same_value_refl|].
    destruct (String.eqb_spec key k) as [<-|Hne].
    - split; [exact Hget | intros _; congruence].
    - split; [|discriminate]. rewrite Hframe by congruence. exact Hv. }
  destruct (Hread "location") as (v1 & H1 & P1 & G1 & O1).
  destruct (Hread "apiKey") as (v2 & H2 & P2 & G2 & O2).
  destruct (Hread "unit") as (v3 & H3 & P3 & G3 & O3).
  destruct (Hread "isAutoLocation") as (v4 & H4 & P4 & G4 & O4).
  unfold weather_effect_runs, weather_inputs. rewrite H1, H2, H3, H4, G1, G2, G3, G4.
  cbn [mbind mret existsb].
  change (Normal [v1; v2; v3; v4] ≫= _) with (Normal [v1; v2; v3; v4]).
  destruct (String.eqb key "location") eqn:E1;
    [rewrite (O1 eq_refl) in *; apply String.eqb_eq in E1; subst key; cbn [String.eqb]
    |destruct (String.eqb key "apiKey") eqn:E2;
      [rewrite (O2 eq_refl) in *; apply String.eqb_eq in E2; subst key
      |destruct (String.eqb key "unit") eqn:E3;
        [rewrite (O3 eq_refl) in *; apply String.eqb_eq in E3; subst key
        |destruct (String.eqb key "isAutoLocation") eqn:E4;
          [rewrite (O4 eq_refl) in *; apply String.eqb_eq in E4; subst key|]]]];
    repeat (progress (rewrite ?P1, ?P2, ?P3, ?P4, ?Hsame; cbn));
    destruct same; cbn; repeat (progress (rewrite ?P1, ?P2, ?P3, ?P4; cbn)); reflexivity.
Qed.

Lemma weather_refetched_on_change_witness :
  flat_record (settings fresh_state) = true /\
  weather_effect_runs fresh_state
    (dispatch fresh_state (change_setting fresh_state "userName" (VStr "Ada"))) = Some false /\
  weather_effect_runs fresh_state
    (dispatch fresh_state (change_setting fresh_state "location" (VStr "Brest"))) = Some true.
Proof.
  split; [reflexivity|]. split.
  - destruct (weather_refetched_on_change fresh_state "userName" (VStr "Ada")
                eq_refl eq_refl eq_refl) as (old & same & _ & _ & H).
    exact H.
  - reflexivity.
Defined.
